(** * gemini-clone: the client state store, its persistence adapter and the
      message-list pagination, embedded from the TypeScript sources.

    - [src/client/store/index.ts]: the zustand store ([AppState], its
      actions, and the custom [storage] object given to [persist]);
    - the [MessageList] component: [generateDummyMessages], the reset
      effect and [loadOlderMessages].

    JavaScript strings are sequences of UTF-16 code units; [length],
    [substring] and [===] all work on code units, so a string is modelled
    as the list of its code units.  Values the browser supplies
    ([crypto.randomUUID()], [new Date()], [Date.now()], [Math.random()])
    are inputs of the model. *)

From Stdlib Require Import ZArith QArith Qabs String Ascii List Lia DecimalString DecimalZ.
From Stdlib Require Import Sorted.
From stdpp Require Import base decidable option list numbers sorting.

Set Warnings "-register-all".

Local Open Scope Z_scope.
Local Open Scope list_scope.

(** ** Strings *)

Abbreviation code_unit := N (only parsing).
Abbreviation jsstring := (list N) (only parsing).

(** A source literal, as code units. *)
Definition lit (s : string) : jsstring :=
  List.map N_of_ascii (list_ascii_of_string s).

(** [a === b] on strings. *)
Definition str_eqb (a b : jsstring) : bool := bool_decide (a = b).

(** [s.substring(0, n)]. *)
Definition substring0 (n : nat) (s : jsstring) : jsstring := take n s.

(** [String(z)] for an integral number, as a template literal renders it:
    plain decimal digits, with a leading minus sign below zero.  (Numbers
    are modelled as exact integers, which is what JavaScript computes for
    magnitudes below 2^53; decimal rendering without an exponent is what
    it prints below 10^21.) *)
Definition Number_toString (z : Z) : jsstring :=
  lit (NilZero.string_of_int (Z.to_int z)).

(** ** Dates

    A [Date] object holds a time value: an integral number of milliseconds
    since the epoch, or NaN (an "Invalid Date"). *)
Inductive Date : Type :=
  | InvalidDate
  | TimeValue (ms : Z).

#[global] Instance Date_eq_dec : EqDecision Date.
Proof. solve_decision. Defined.

(** The largest magnitude of a time value (ECMAScript [TimeClip]). *)
Definition max_time : Z := 8640000000000000.

(** [new Date(t)] for an integral number [t]. *)
Definition Date_of_number (t : Z) : Date :=
  if Z.abs t <=? max_time then TimeValue t else InvalidDate.

(** ** The data model of [store/index.ts] *)

Module Message.
Inductive Sender : Type := user | ai.

Record t : Type := mk {
  id : jsstring;
  content : jsstring;
  sender : Sender;
  timestamp : Date;
  imageUrl : option jsstring
}.

(** [Omit<Message, "id">], the argument of [addMessage]. *)
Record data : Type := mkData {
  d_content : jsstring;
  d_sender : Sender;
  d_timestamp : Date;
  d_imageUrl : option jsstring
}.

(** [{ ...messageData, id: crypto.randomUUID() }] *)
Definition with_id (messageData : data) (uuid : jsstring) : t :=
  {| id := uuid;
     content := d_content messageData;
     sender := d_sender messageData;
     timestamp := d_timestamp messageData;
     imageUrl := d_imageUrl messageData |}.
End Message.

Module Chatroom.
Record t : Type := mk {
  id : jsstring;
  title : jsstring;
  messages : list Message.t;
  createdAt : Date;
  lastMessage : option Date
}.
End Chatroom.

Module User.
Record t : Type := mk {
  id : jsstring;
  phone : jsstring;
  countryCode : jsstring;
  isAuthenticated : bool
}.
End User.

Inductive Theme : Type := light | dark.

Record AppState : Type := mkAppState {
  user : option User.t;
  isAuthenticating : bool;
  otpSent : bool;
  chatrooms : list Chatroom.t;
  activeChatroomId : option jsstring;
  isTyping : bool;
  searchQuery : jsstring;
  isSidebarOpen : bool;
  theme : Theme
}.

Module Store.

(** The initial state of [create]. *)
Definition initial : AppState :=
  {| user := None;
     isAuthenticating := false;
     otpSent := false;
     chatrooms := [];
     activeChatroomId := None;
     isTyping := false;
     searchQuery := [];
     isSidebarOpen := true;
     theme := light |}.

(** [set({ field })]: one setter per field that [set] is called with. *)
Definition set_user (u : option User.t) (s : AppState) : AppState :=
  mkAppState u (isAuthenticating s) (otpSent s) (chatrooms s)
    (activeChatroomId s) (isTyping s) (searchQuery s) (isSidebarOpen s) (theme s).
Definition set_isAuthenticating (b : bool) (s : AppState) : AppState :=
  mkAppState (user s) b (otpSent s) (chatrooms s)
    (activeChatroomId s) (isTyping s) (searchQuery s) (isSidebarOpen s) (theme s).
Definition set_otpSent (b : bool) (s : AppState) : AppState :=
  mkAppState (user s) (isAuthenticating s) b (chatrooms s)
    (activeChatroomId s) (isTyping s) (searchQuery s) (isSidebarOpen s) (theme s).
Definition set_chatrooms (l : list Chatroom.t) (s : AppState) : AppState :=
  mkAppState (user s) (isAuthenticating s) (otpSent s) l
    (activeChatroomId s) (isTyping s) (searchQuery s) (isSidebarOpen s) (theme s).
Definition set_activeChatroomId (a : option jsstring) (s : AppState) : AppState :=
  mkAppState (user s) (isAuthenticating s) (otpSent s) (chatrooms s)
    a (isTyping s) (searchQuery s) (isSidebarOpen s) (theme s).
Definition set_isTyping (b : bool) (s : AppState) : AppState :=
  mkAppState (user s) (isAuthenticating s) (otpSent s) (chatrooms s)
    (activeChatroomId s) b (searchQuery s) (isSidebarOpen s) (theme s).
Definition set_searchQuery (q : jsstring) (s : AppState) : AppState :=
  mkAppState (user s) (isAuthenticating s) (otpSent s) (chatrooms s)
    (activeChatroomId s) (isTyping s) q (isSidebarOpen s) (theme s).
Definition set_isSidebarOpen (b : bool) (s : AppState) : AppState :=
  mkAppState (user s) (isAuthenticating s) (otpSent s) (chatrooms s)
    (activeChatroomId s) (isTyping s) (searchQuery s) b (theme s).
Definition set_theme (t : Theme) (s : AppState) : AppState :=
  mkAppState (user s) (isAuthenticating s) (otpSent s) (chatrooms s)
    (activeChatroomId s) (isTyping s) (searchQuery s) (isSidebarOpen s) t.

Definition setUser := set_user.
Definition setAuthenticating := set_isAuthenticating.
Definition setOtpSent := set_otpSent.

(** [title || "New Chat"]: [undefined] and the empty string are falsy. *)
Definition title_or_default (title : option jsstring) : jsstring :=
  match title with
  | Some (c :: t) => c :: t
  | Some [] | None => lit "New Chat"
  end.

(** [createChatroom(title?)]; [uuid] is the value of
    [crypto.randomUUID()] and [now] that of [new Date()].  Returns the
    new chatroom and the next state. *)
Definition createChatroom (uuid : jsstring) (now : Date)
    (title : option jsstring) (s : AppState) : Chatroom.t * AppState :=
  let newChatroom :=
    {| Chatroom.id := uuid;
       Chatroom.title := title_or_default title;
       Chatroom.messages := [];
       Chatroom.createdAt := now;
       Chatroom.lastMessage := None |} in
  (newChatroom,
   set_activeChatroomId (Some (Chatroom.id newChatroom))
     (set_chatrooms (newChatroom :: chatrooms s) s)).

(** [deleteChatroom(id)] *)
Definition deleteChatroom (id : jsstring) (s : AppState) : AppState :=
  let chatroomExists :=
    existsb (fun room => str_eqb (Chatroom.id room) id) (chatrooms s) in
  if negb chatroomExists then s
  else
    let remainingChatrooms :=
      List.filter (fun room => negb (str_eqb (Chatroom.id room) id)) (chatrooms s) in
    let newActiveChatroomId :=
      if bool_decide (activeChatroomId s = Some id) then
        match remainingChatrooms with
        | first :: _ => Some (Chatroom.id first)
        | [] => None
        end
      else activeChatroomId s in
    set_isTyping false
      (set_activeChatroomId newActiveChatroomId
         (set_chatrooms remainingChatrooms s)).

(** [setActiveChatroom(id)] *)
Definition setActiveChatroom (id : jsstring) (s : AppState) : AppState :=
  set_activeChatroomId (Some id) s.

(** The title expression of [addMessage], for a room whose message list
    is empty. *)
Definition derived_title (content : jsstring) : jsstring :=
  if (50 <? length content)%nat
  then substring0 50 content ++ lit "..."
  else content.

(** The function mapped over [state.chatrooms] by [addMessage]. *)
Definition addMessage_room (chatroomId : jsstring) (message : Message.t)
    (room : Chatroom.t) : Chatroom.t :=
  if str_eqb (Chatroom.id room) chatroomId then
    {| Chatroom.id := Chatroom.id room;
       Chatroom.title :=
         if (length (Chatroom.messages room) =? 0)%nat
         then derived_title (Message.content message)
         else Chatroom.title room;
       Chatroom.messages := Chatroom.messages room ++ [message];
       Chatroom.createdAt := Chatroom.createdAt room;
       Chatroom.lastMessage := Some (Message.timestamp message) |}
  else room.

(** [addMessage(chatroomId, messageData)]; [uuid] is the value of
    [crypto.randomUUID()]. *)
Definition addMessage (uuid : jsstring) (chatroomId : jsstring)
    (messageData : Message.data) (s : AppState) : AppState :=
  let message := Message.with_id messageData uuid in
  set_chatrooms (List.map (addMessage_room chatroomId message) (chatrooms s)) s.

Definition setTyping := set_isTyping.
Definition setSearchQuery := set_searchQuery.
Definition setSidebarOpen := set_isSidebarOpen.
Definition setTheme := set_theme.

(** [getActiveChatroom()] *)
Definition getActiveChatroom (s : AppState) : option Chatroom.t :=
  List.find (fun room => bool_decide (Some (Chatroom.id room) = activeChatroomId s))
    (chatrooms s).

(** The actions of the store, each with the values the browser draws
    while it runs. *)
Inductive Action : Type :=
  | SetUser (u : option User.t)
  | SetAuthenticating (b : bool)
  | SetOtpSent (b : bool)
  | CreateChatroom (uuid : jsstring) (now : Date) (title : option jsstring)
  | DeleteChatroom (id : jsstring)
  | SetActiveChatroom (id : jsstring)
  | AddMessage (uuid : jsstring) (chatroomId : jsstring) (messageData : Message.data)
  | SetTyping (b : bool)
  | SetSearchQuery (q : jsstring)
  | SetSidebarOpen (b : bool)
  | SetTheme (t : Theme).

Definition step (a : Action) (s : AppState) : AppState :=
  match a with
  | SetUser u => setUser u s
  | SetAuthenticating b => setAuthenticating b s
  | SetOtpSent b => setOtpSent b s
  | CreateChatroom uuid now title => snd (createChatroom uuid now title s)
  | DeleteChatroom id => deleteChatroom id s
  | SetActiveChatroom id => setActiveChatroom id s
  | AddMessage uuid chatroomId messageData => addMessage uuid chatroomId messageData s
  | SetTyping b => setTyping b s
  | SetSearchQuery q => setSearchQuery q s
  | SetSidebarOpen b => setSidebarOpen b s
  | SetTheme t => setTheme t s
  end.

Definition run (acts : list Action) (s : AppState) : AppState :=
  fold_left (fun st a => step a st) acts s.

(** States reachable from [initial] by actions that the policy [allowed]
    admits in the state they are applied to. *)
Inductive reachable (allowed : Action -> AppState -> Prop) : AppState -> Prop :=
  | reach_initial : reachable allowed initial
  | reach_step a s :
      reachable allowed s -> allowed a s -> reachable allowed (step a s).

Definition any_action : Action -> AppState -> Prop := fun _ _ => True.

(** The ids of the chatrooms of the collection. *)
Definition ids (s : AppState) : list jsstring :=
  List.map Chatroom.id (chatrooms s).



End Store.

(** ** The browser: clock and random source

    [Date.now()] and [Math.random()] are read from the world; a
    computation threads the world through its calls, in evaluation order. *)
Module Browser.

Record World : Type := mkWorld {
  clock : nat -> Z;          (* the k-th reading of [Date.now()] *)
  random : nat -> jsstring;  (* the base-36 digits, after "0.", of the k-th
                                [Math.random().toString(36)] *)
  reads : nat;               (* clock readings made so far *)
  draws : nat                (* random numbers drawn so far *)
}.

Definition M (A : Type) : Type := World -> A * World.

Definition ret {A} (a : A) : M A := fun w => (a, w).

Definition bind {A B} (m : M A) (k : A -> M B) : M B :=
  fun w => let (a, w') := m w in k a w'.

(** [Date.now()] *)
Definition Date_now : M Z :=
  fun w => (clock w (reads w),
            mkWorld (clock w) (random w) (S (reads w)) (draws w)).

(** [Math.random().toString(36).substr(2, 9)] *)
Definition Math_random_fragment : M jsstring :=
  fun w => (take 9 (random w (draws w)),
            mkWorld (clock w) (random w) (reads w) (S (draws w))).

(** [for (let i = start; ...; i++) body], run for [n] iterations. *)
Fixpoint for_loop {S : Type} (n : nat) (i : Z) (body : Z -> S -> M S) (acc : S)
    : M S :=
  match n with
  | O => ret acc
  | Datatypes.S n' => bind (body i acc) (for_loop n' (i + 1) body)
  end.

End Browser.

Declare Scope browser_scope.
Delimit Scope browser_scope with browser.
Notation "x <- m ;; k" := (Browser.bind m (fun x => k))
  (at level 100, m at next level, right associativity) : browser_scope.

(** ** The message list and its pagination *)
Module MessageList.
Import Browser.
Local Open Scope browser_scope.

Definition MESSAGES_PER_PAGE : Z := 20.

Definition user_content (messageIndex : Z) : jsstring :=
  lit "This is user message #" ++ Number_toString (messageIndex + 1)
  ++ lit ". Here's a question or statement from the user.".

Definition ai_content (messageIndex : Z) : jsstring :=
  lit "This is AI response #" ++ Number_toString (messageIndex + 1)
  ++ lit ". Here's a helpful response from Gemini with some detailed information.".

(** The template literal of [uniqueId]. *)
Definition uniqueId (chatroomId : jsstring) (page messageIndex now : Z)
    (fragment : jsstring) : jsstring :=
  lit "dummy-" ++ chatroomId ++ lit "-page" ++ Number_toString page
  ++ lit "-" ++ Number_toString messageIndex
  ++ lit "-" ++ Number_toString now ++ lit "-" ++ fragment.

(** [messageIndex % 3 === 0]; [%] is the truncating remainder. *)
Definition isUser (messageIndex : Z) : bool := Z.rem messageIndex 3 =? 0.

(** The message built by one iteration, from the values it reads.  The
    numbers are integers, as the code's doubles are while they stay below
    2^53 (page indices up to 7505999377; the view passes 0 to 9). *)
Definition dummy_message (chatroomId : jsstring) (page messageIndex : Z)
    (idNow : Z) (fragment : jsstring) (tsNow : Z) : Message.t :=
  {| Message.id := uniqueId chatroomId page messageIndex idNow fragment;
     Message.content :=
       if isUser messageIndex then user_content messageIndex
       else ai_content messageIndex;
     Message.sender := if isUser messageIndex then Message.user else Message.ai;
     Message.timestamp := Date_of_number (tsNow - (messageIndex + 1) * 60000);
     Message.imageUrl := None |}.

(** The body of the [for] loop of [generateDummyMessages]. *)
Definition loop_body (chatroomId : jsstring) (page : Z) (i : Z)
    (messages : list Message.t) : M (list Message.t) :=
  let startIndex := page * MESSAGES_PER_PAGE in
  let messageIndex := startIndex + i in
  idNow <- Date_now ;;
  fragment <- Math_random_fragment ;;
  tsNow <- Date_now ;;
  ret (messages ++ [dummy_message chatroomId page messageIndex idNow fragment tsNow]).

(** [generateDummyMessages(chatroomId, page)] *)
Definition generateDummyMessages (chatroomId : jsstring) (page : Z)
    : M (list Message.t) :=
  messages <- for_loop (Z.to_nat MESSAGES_PER_PAGE) 0 (loop_body chatroomId page) [] ;;
  ret (reverse messages).

Record Props : Type := mkProps {
  chatroomId : jsstring;
  messages : list Message.t;
  isTyping : bool
}.

(** The four [useState] cells of the component. *)
Record View : Type := mkView {
  loadingOlder : bool;
  hasMoreMessages : bool;
  page : Z;
  olderMessages : list Message.t
}.

(** A pending [setTimeout] callback, with the [chatroomId] and [page] its
    closure captured. *)
Record Timer : Type := mkTimer {
  t_chatroomId : jsstring;
  t_page : Z
}.

(** A mounted component: its props, its state, and the timers it has
    scheduled that have not fired yet (all with the same delay, so they
    fire in the order they were scheduled).  An event handler sees the
    props and the state of the latest render. *)
Record Component : Type := mkComponent {
  props : Props;
  view : View;
  timers : list Timer
}.

(** The [useState] initial values. *)
Definition initial_view : View :=
  {| loadingOlder := false; hasMoreMessages := true; page := 0; olderMessages := [] |}.

(** The reset effect (dependencies [chatroomId] and [messages.length]). *)
Definition reset_effect (p : Props) (v : View) : View :=
  {| olderMessages := [];
     page := 0;
     hasMoreMessages := (0 <? length (messages p))%nat;
     loadingOlder := false |}.

(** Mounting: first render, then the effect. *)
Definition mount (p : Props) : Component :=
  {| props := p; view := reset_effect p initial_view; timers := [] |}.

(** A render with new props: the effect runs again when one of its
    dependencies changed. *)
Definition rerender (p : Props) (c : Component) : Component :=
  let changed :=
    negb (str_eqb (chatroomId p) (chatroomId (props c)))
    || negb (length (messages p) =? length (messages (props c)))%nat in
  {| props := p;
     view := if changed then reset_effect p (view c) else view c;
     timers := timers c |}.

Definition allMessages (c : Component) : list Message.t :=
  olderMessages (view c) ++ messages (props c).

(** [loadOlderMessages()], up to the point where the timer is scheduled. *)
Definition loadOlderMessages (c : Component) : Component :=
  let v := view c in
  if loadingOlder v || negb (hasMoreMessages v) then c
  else if (length (messages (props c)) =? 0)%nat then
    mkComponent (props c)
      (mkView (loadingOlder v) false (page v) (olderMessages v)) (timers c)
  else if page v >=? 10 then
    mkComponent (props c)
      (mkView (loadingOlder v) false (page v) (olderMessages v)) (timers c)
  else
    mkComponent (props c)
      (mkView true (hasMoreMessages v) (page v) (olderMessages v))
      (timers c ++ [mkTimer (chatroomId (props c)) (page v)]).

(** The functional update given to [setOlderMessages]. *)
Definition merge_older (newMessages prev : list Message.t) : list Message.t :=
  let existingIds := List.map Message.id prev in
  let filteredNewMessages :=
    List.filter (fun msg => negb (bool_decide (Message.id msg ∈ existingIds)))
      newMessages in
  filteredNewMessages ++ prev.

(** The [setTimeout] callback. *)
Definition timeout_callback (t : Timer) (v : View) : M View :=
  newMessages <- generateDummyMessages (t_chatroomId t) (t_page t) ;;
  let hasMore :=
    if (Z.of_nat (length newMessages) <? MESSAGES_PER_PAGE) || (t_page t >=? 9)
    then false else hasMoreMessages v in
  ret {| hasMoreMessages := hasMore;
         olderMessages := merge_older newMessages (olderMessages v);
         page := page v + 1;
         loadingOlder := false |}.

(** The oldest pending timer fires. *)
Definition timer_fires (c : Component) : M Component :=
  match timers c with
  | [] => ret c
  | t :: rest =>
      v <- timeout_callback t (view c) ;;
      ret (mkComponent (props c) v rest)
  end.

Inductive Event : Type :=
  | LoadRequest          (* the button or a scroll to the top *)
  | TimerFires
  | Rerender (p : Props).

(** One event on a component that has rendered since the previous event,
    as React does between two user events: its handlers read the state that
    event left.  A handler that is called again before the next render
    still reads the state of its own render; [Closure], below, keeps the
    two apart. *)
Definition handle (e : Event) (c : Component) : M Component :=
  match e with
  | LoadRequest => ret (loadOlderMessages c)
  | TimerFires => timer_fires c
  | Rerender p => ret (rerender p c)
  end.

Fixpoint handle_all (es : list Event) (c : Component) : M Component :=
  match es with
  | [] => ret c
  | e :: es' => c' <- handle e c ;; handle_all es' c'
  end.

(** One load: the request, then its completion. *)
Definition load_page (c : Component) : M Component :=
  timer_fires (loadOlderMessages c).

Fixpoint load_pages (n : nat) (c : Component) : M Component :=
  match n with
  | O => ret c
  | S n' => c' <- load_page c ;; load_pages n' c'
  end.

End MessageList.

(** ** JavaScript values, as far as the persistence adapter handles them

    [JSON.parse] returns a tree of plain objects, arrays and primitives;
    [getItem] reads it dynamically (every access can raise a [TypeError])
    and puts [Date] objects into it. *)
Module JS.

(** The numbers [JSON.parse] can return: finite ones, and the infinities
    it returns for literals beyond the range of a double. *)
Inductive number : Type :=
  | Finite (q : Q)
  | Infinity (negative : bool).

Inductive value : Type :=
  | Undefined
  | Null
  | Bool (b : bool)
  | Num (n : number)
  | Str (s : jsstring)
  | DateObj (d : Date)
  | Arr (items : list value)
  | Obj (props : list (jsstring * value)).   (* own properties, in order *)

Inductive error : Type := TypeError | SyntaxError.

(** The outcome of evaluating an expression: a value, or an exception. *)
Inductive completion (A : Type) : Type :=
  | Normal (a : A)
  | Throw (e : error).
Arguments Normal {A} a.
Arguments Throw {A} e.

Definition bind {A B} (c : completion A) (k : A -> completion B) : completion B :=
  match c with
  | Normal a => k a
  | Throw e => Throw e
  end.

(** [try { c } catch { h }] *)
Definition try_catch {A} (c : completion A) (h : completion A) : completion A :=
  match c with
  | Normal a => Normal a
  | Throw _ => h
  end.

Fixpoint mapM {A B} (f : A -> completion B) (l : list A) : completion (list B) :=
  match l with
  | [] => Normal []
  | x :: r => bind (f x) (fun y => bind (mapM f r) (fun ys => Normal (y :: ys)))
  end.

Definition lookup_prop (k : jsstring) (ps : list (jsstring * value)) : option value :=
  option_map snd (List.find (fun kv => str_eqb (fst kv) k) ps).

(** Defining a property: an existing key keeps its position, a new key
    goes last. *)
Fixpoint set_prop (k : jsstring) (v : value) (ps : list (jsstring * value))
    : list (jsstring * value) :=
  match ps with
  | [] => [(k, v)]
  | (k', v') :: r =>
      if str_eqb k' k then (k, v) :: r else (k', v') :: set_prop k v r
  end.

(** The value of the own property [k], [undefined] when there is none
    (and for every value that is not a plain object). *)
Definition field (o : value) (k : string) : value :=
  match o with
  | Obj ps => default Undefined (lookup_prop (lit k) ps)
  | _ => Undefined
  end.

(** [o.k], for the names the adapter reads ([state], [chatrooms],
    [createdAt], [lastMessage], [messages], [timestamp]): none of them is
    defined by a built-in prototype, so the read yields the own property
    or [undefined], and raises on [null] and [undefined]. *)
Definition get (o : value) (k : string) : completion value :=
  match o with
  | Undefined | Null => Throw TypeError
  | _ => Normal (field o k)
  end.

(** [o?.k] *)
Definition get_opt (o : value) (k : string) : completion value :=
  match o with
  | Undefined | Null => Normal Undefined
  | _ => get o k
  end.

Definition Qis_zero (q : Q) : bool := Qeq_bool q 0.

(** ToBoolean *)
Definition truthy (v : value) : bool :=
  match v with
  | Undefined | Null => false
  | Bool b => b
  | Num (Finite q) => negb (Qis_zero q)
  | Num (Infinity _) => true
  | Str s => negb (bool_decide (s = []))
  | DateObj _ | Arr _ | Obj _ => true
  end.

(** [recv.map(f)]: only an array has a callable [map]. *)
Definition call_map (recv : value) (f : value -> completion value)
    : completion value :=
  match recv with
  | Arr items => bind (mapM f items) (fun l => Normal (Arr l))
  | _ => Throw TypeError
  end.

(** The own enumerable properties copied by [{ ...v }]. *)
Definition spread (v : value) : list (jsstring * value) :=
  match v with
  | Obj ps => ps
  | Arr items => imap (fun i x => (Number_toString (Z.of_nat i), x)) items
  | Str s => imap (fun i c => (Number_toString (Z.of_nat i), Str [c])) s
  | _ => []
  end.

(** [o.k = v] in module (strict) code. *)
Definition assign (o : value) (k : string) (v : value) : completion value :=
  match o with
  | Obj ps => Normal (Obj (set_prop (lit k) v ps))
  | _ => Throw TypeError
  end.

(** TimeClip(ToNumber(n)) *)
Definition time_clip (n : number) : Date :=
  match n with
  | Finite q =>
      if Qle_bool (Qabs q) (inject_Z max_time)
      then TimeValue (Z.quot (Qnum q) (Zpos (Qden q)))
      else InvalidDate
  | Infinity _ => InvalidDate
  end.

(** What the platform provides; the adapter calls these and nothing in
    the repository defines them. *)
Record Platform : Type := mkPlatform {
  JSON_parse : jsstring -> completion value;   (* raises [SyntaxError] *)
  JSON_stringify : value -> jsstring;
  toISOString : Z -> jsstring;                 (* of a time value *)
  Date_parse : jsstring -> Date;               (* [new Date(string)] *)
  ToPrimitive : value -> completion jsstring   (* of an array: the join of its
                                                  elements' strings; raises when
                                                  an element has no primitive
                                                  value *)
}.

(** ToPrimitive of a plain object.  [Object.prototype.valueOf] returns the
    object itself, so the result is that of [toString]: the prototype's
    gives "[object Object]"; an own property of that name hides it, is not
    callable (no parsed value is), and the conversion raises. *)
Definition object_to_primitive (ps : list (jsstring * value)) : completion jsstring :=
  match lookup_prop (lit "toString") ps with
  | Some _ => Throw TypeError
  | None => Normal (lit "[object Object]")
  end.

Section WithPlatform.
Context (P : Platform).

(** [new Date(v)]: a primitive is converted as it is, an array or object
    through its primitive value, which it may not have. *)
Definition new_Date (v : value) : completion Date :=
  match v with
  | Undefined => Normal InvalidDate
  | Null => Normal (TimeValue 0)
  | Bool b => Normal (TimeValue (if b then 1 else 0))
  | Num n => Normal (time_clip n)
  | Str s => Normal (Date_parse P s)
  | DateObj d => Normal d
  | Arr _ => bind (ToPrimitive P v) (fun s => Normal (Date_parse P s))
  | Obj ps => bind (object_to_primitive ps) (fun s => Normal (Date_parse P s))
  end.

(** The tree that [JSON.stringify] writes for a value: a [Date] is
    replaced by what its [toJSON] returns (its ISO string, [null] when
    invalid), a property holding [undefined] is left out, [undefined] and
    the infinities in other positions become [null]. *)
Fixpoint to_json (v : value) : value :=
  match v with
  | Undefined => Null
  | Num (Infinity _) => Null
  | DateObj InvalidDate => Null
  | DateObj (TimeValue t) => Str (toISOString P t)
  | Arr items => Arr (List.map to_json items)
  | Obj ps =>
      Obj ((fix props (ps : list (jsstring * value)) :=
              match ps with
              | [] => []
              | (_, Undefined) :: r => props r
              | (k, x) :: r => (k, to_json x) :: props r
              end) ps)
  | _ => v
  end.

End WithPlatform.

End JS.

(** ** The persistence adapter of [store/index.ts] *)
Module Persist.
Import JS.

(** [localStorage]: the item stored under each name, if any. *)
Definition Storage : Type := jsstring -> option jsstring.

Definition localStorage_setItem (name item : jsstring) (ls : Storage) : Storage :=
  fun n => if str_eqb n name then Some item else ls n.

Definition localStorage_removeItem (name : jsstring) (ls : Storage) : Storage :=
  fun n => if str_eqb n name then None else ls n.

(** The objects of the store, as the interfaces lay them out. *)
Definition opt_prop (k : string) (o : option value) : list (jsstring * value) :=
  match o with
  | Some v => [(lit k, v)]
  | None => []
  end.

Definition sender_value (s : Message.Sender) : value :=
  match s with
  | Message.user => Str (lit "user")
  | Message.ai => Str (lit "ai")
  end.

Definition message_value (m : Message.t) : value :=
  Obj ([(lit "content", Str (Message.content m));
        (lit "sender", sender_value (Message.sender m));
        (lit "timestamp", DateObj (Message.timestamp m))]
       ++ opt_prop "imageUrl" (option_map Str (Message.imageUrl m))
       ++ [(lit "id", Str (Message.id m))]).

Definition chatroom_value (r : Chatroom.t) : value :=
  Obj ([(lit "id", Str (Chatroom.id r));
        (lit "title", Str (Chatroom.title r));
        (lit "messages", Arr (List.map message_value (Chatroom.messages r)));
        (lit "createdAt", DateObj (Chatroom.createdAt r))]
       ++ opt_prop "lastMessage" (option_map DateObj (Chatroom.lastMessage r))).

Definition user_value (u : option User.t) : value :=
  match u with
  | None => Null
  | Some u =>
      Obj [(lit "id", Str (User.id u));
           (lit "phone", Str (User.phone u));
           (lit "countryCode", Str (User.countryCode u));
           (lit "isAuthenticated", Bool (User.isAuthenticated u))]
  end.

Definition theme_value (t : Theme) : value :=
  match t with
  | light => Str (lit "light")
  | dark => Str (lit "dark")
  end.

(** [partialize(state)] *)
Definition partialize (s : AppState) : value :=
  Obj [(lit "user", user_value (user s));
       (lit "chatrooms", Arr (List.map chatroom_value (chatrooms s)));
       (lit "activeChatroomId",
          match activeChatroomId s with Some a => Str a | None => Null end);
       (lit "theme", theme_value (theme s))].

(** The [{ state, version }] wrapper that [persist] hands to
    [storage.setItem]; the store sets no [version], which leaves it 0. *)
Definition storage_value (s : AppState) : value :=
  Obj [(lit "state", partialize s); (lit "version", Num (Finite 0))].

Section WithPlatform.
Context (P : Platform).

(** The function mapped over [room.messages] by [getItem]. *)
Definition revive_message (msg : value) : completion value :=
  let copy := spread msg in
  bind (get msg "timestamp") (fun timestamp =>
  bind (new_Date P timestamp) (fun date =>
  Normal (Obj (set_prop (lit "timestamp") (DateObj date) copy)))).

(** The function mapped over [parsed.state.chatrooms] by [getItem]. *)
Definition revive_room (room : value) : completion value :=
  let copy := spread room in
  bind (get room "createdAt") (fun createdAt =>
  bind (new_Date P createdAt) (fun created =>
  bind (get room "lastMessage") (fun lastMessage =>
  bind (if truthy lastMessage
        then bind (new_Date P lastMessage) (fun date => Normal (DateObj date))
        else Normal Undefined) (fun lastMessage' =>
  bind (get room "messages") (fun messages =>
  bind (match messages with
        | Undefined | Null => Normal Undefined
        | _ => call_map messages revive_message
        end) (fun mapped =>
  let messages' := if truthy mapped then mapped else Arr [] in
  Normal (Obj (set_prop (lit "messages") messages'
              (set_prop (lit "lastMessage") lastMessage'
              (set_prop (lit "createdAt") (DateObj created)
                 copy)))))))))).

(** The body of the [try] block of [getItem]. *)
Definition getItem_try (item : jsstring) : completion value :=
  bind (JSON_parse P item) (fun parsed =>
  bind (get parsed "state") (fun state =>
  bind (get_opt state "chatrooms") (fun chatrooms =>
  if truthy chatrooms then
    bind (call_map chatrooms revive_room) (fun revived =>
    bind (get parsed "state") (fun state' =>
    bind (assign state' "chatrooms" revived) (fun state'' =>
    assign parsed "state" state'')))
  else Normal parsed))).

(** [storage.getItem(name)]; the result [Null] is the [null] that the
    middleware takes for "nothing persisted". *)
Definition getItem (name : jsstring) (ls : Storage) : completion value :=
  match ls name with
  | None | Some [] => Normal Null          (* [!item] *)
  | Some item => try_catch (getItem_try item) (Normal Null)
  end.

(** [storage.setItem(name, value)] *)
Definition setItem (name : jsstring) (v : value) (ls : Storage) : Storage :=
  localStorage_setItem name (JSON_stringify P v) ls.

(** [storage.removeItem(name)] *)
Definition removeItem (name : jsstring) (ls : Storage) : Storage :=
  localStorage_removeItem name ls.

End WithPlatform.

(** A time value a [Date] can hold. *)
Definition valid_date (d : Date) : Prop :=
  match d with
  | TimeValue t => Z.abs t <= max_time
  | InvalidDate => False
  end.

Definition valid_message_dates (m : Message.t) : Prop :=
  valid_date (Message.timestamp m).

Definition valid_chatroom_dates (r : Chatroom.t) : Prop :=
  valid_date (Chatroom.createdAt r)
  /\ match Chatroom.lastMessage r with Some d => valid_date d | None => True end
  /\ Forall valid_message_dates (Chatroom.messages r).

(** A reloaded message object carries the fields of [m], its timestamp as
    a [Date]. *)
Definition message_reloaded (v : value) (m : Message.t) : Prop :=
  field v "id" = Str (Message.id m)
  /\ field v "content" = Str (Message.content m)
  /\ field v "sender" = sender_value (Message.sender m)
  /\ field v "timestamp" = DateObj (Message.timestamp m)
  /\ field v "imageUrl" = from_option Str Undefined (Message.imageUrl m).

(** A reloaded chatroom object carries the fields of [r], its temporal
    fields as [Date]s. *)
Definition chatroom_reloaded (v : value) (r : Chatroom.t) : Prop :=
  field v "id" = Str (Chatroom.id r)
  /\ field v "title" = Str (Chatroom.title r)
  /\ field v "createdAt" = DateObj (Chatroom.createdAt r)
  /\ field v "lastMessage" = from_option DateObj Undefined (Chatroom.lastMessage r)
  /\ exists ms, field v "messages" = Arr ms
                /\ Forall2 message_reloaded ms (Chatroom.messages r).

(** The chatrooms of a loaded [{ state, version }] value are those of [s]. *)
Definition chatrooms_reloaded (v : value) (s : AppState) : Prop :=
  exists rooms, field (field v "state") "chatrooms" = Arr rooms
                /\ Forall2 chatroom_reloaded rooms (chatrooms s).

End Persist.

(** ** The derived list of the store: [getFilteredChatrooms] *)
Module StoreQueries.

(** [s.startsWith(needle)] *)
Definition starts_with (needle s : jsstring) : bool :=
  str_eqb (take (length needle) s) needle.

(** [s.includes(needle)]: [needle] occurs in [s] at some position. *)
Fixpoint includes (s needle : jsstring) : bool :=
  starts_with needle s
  || match s with
     | [] => false
     | _ :: rest => includes rest needle
     end.

Section WithCase.
(** [String.prototype.toLowerCase], which the platform provides. *)
Context (toLowerCase : jsstring -> jsstring).

(** [getFilteredChatrooms()] *)
Definition getFilteredChatrooms (s : AppState) : list Chatroom.t :=
  match searchQuery s with
  | [] => chatrooms s                       (* [!searchQuery] *)
  | _ :: _ =>
      List.filter
        (fun room =>
           includes (toLowerCase (Chatroom.title room)) (toLowerCase (searchQuery s)))
        (chatrooms s)
  end.

End WithCase.

End StoreQueries.

(** ** The sidebar: [formatDate] and the date it is given *)
Module Sidebar.

(** [1000 * 60 * 60 * 24] *)
Definition DAY : Z := 1000 * 60 * 60 * 24.

Section WithPlatform.
(** [new Date(string)] and [Date.prototype.toLocaleDateString] (of a time
    value), which the platform provides. *)
Context (Date_parse : jsstring -> Date) (toLocaleDateString : Z -> jsstring).

(** [formatDate(date)]; [now] is the time value of [new Date()].
    [Math.floor(diff / DAY)] is the floor of the exact quotient for every
    difference of magnitude below 2^53. *)
Definition formatDate (now : Z) (date : Date + jsstring) : jsstring :=
  let dateObj := match date with inl d => d | inr str => Date_parse str end in
  match dateObj with
  | InvalidDate => lit "Unknown"              (* [isNaN(dateObj.getTime())] *)
  | TimeValue t =>
      let diff := now - t in
      let days := diff / DAY in
      if days =? 0 then lit "Today"
      else if days =? 1 then lit "Yesterday"
      else if days <? 7 then Number_toString days ++ lit " days ago"
      else toLocaleDateString t
  end.

End WithPlatform.

(** [chatroom.lastMessage || chatroom.createdAt]: a [Date] object is
    truthy, valid or not. *)
Definition shown_date (room : Chatroom.t) : Date :=
  match Chatroom.lastMessage room with
  | Some d => d
  | None => Chatroom.createdAt room
  end.

(** [handleDeleteChatroom(id)], as far as it touches the store. *)
Definition handleDeleteChatroom (id : jsstring) (s : AppState) : AppState :=
  match List.find (fun c => str_eqb (Chatroom.id c) id) (chatrooms s) with
  | Some _ => Store.deleteChatroom id s
  | None => s
  end.

End Sidebar.

(** ** The chat area: sending a message and the simulated reply *)
Module ChatArea.

(** The component's own state: the draft, whether an image file is
    selected, and its preview once the file reader has delivered it. *)
Record Local : Type := mkLocal {
  message : jsstring;
  imageFile : bool;
  imagePreview : option jsstring
}.

(** What the browser supplies while [handleSendMessage] runs. *)
Record SendEnv : Type := mkSendEnv {
  roomUuid : jsstring;   (* [crypto.randomUUID()] in [createChatroom] *)
  roomNow : Date;        (* [new Date()] in [createChatroom] *)
  msgNow : Date;         (* [new Date()] of the user message *)
  msgUuid : jsstring     (* [crypto.randomUUID()] in [addMessage] *)
}.

Definition aiResponses : list jsstring :=
  [lit "Hello there! How can I help you today?";
   lit "That's an interesting question. Let me think about that...";
   lit "I'd be happy to help you with that. Here's what I think:";
   lit "Great question! Based on what you've shared, I would suggest:";
   lit "I understand what you're asking. Here's my perspective:";
   lit "Thanks for sharing that. Let me provide some insights:"].

(** [x || undefined] for a string or [null]. *)
Definition or_undefined (x : option jsstring) : option jsstring :=
  match x with
  | Some (c :: r) => Some (c :: r)
  | Some [] | None => None
  end.

Section WithTrim.
(** [String.prototype.trim], which the platform provides. *)
Context (trim : jsstring -> jsstring).

(** [handleSendMessage()], up to the point where the reply timer is
    scheduled.  Returns the component state, the store state, and the
    [chatroomId] captured by the timer's closure if one was scheduled. *)
Definition handleSendMessage (e : SendEnv) (l : Local) (s : AppState)
    : Local * AppState * option jsstring :=
  if bool_decide (trim (message l) = []) && negb (imageFile l) then (l, s, None)
  else
    let activeChatroom := Store.getActiveChatroom s in
    let target :=
      match option_map Chatroom.id activeChatroom with
      | Some (c :: r) => (c :: r, s)
      | Some [] | None =>                     (* [!chatroomId] *)
          let created := Store.createChatroom (roomUuid e) (roomNow e) None s in
          (Chatroom.id (fst created), snd created)
      end in
    let userMessage :=
      Message.mkData (trim (message l)) Message.user (msgNow e)
        (or_undefined (imagePreview l)) in
    let s2 := Store.addMessage (msgUuid e) (fst target) userMessage (snd target) in
    (mkLocal [] false None, Store.setTyping true s2, Some (fst target)).

End WithTrim.

(** The reply timer's callback; [r] is the index
    [Math.floor(Math.random() * aiResponses.length)], [now] the value of
    [new Date()] and [uuid] that of [crypto.randomUUID()]. *)
Definition ai_reply (r : nat) (now : Date) (uuid : jsstring)
    (chatroomId : jsstring) (s : AppState) : AppState :=
  let randomResponse := nth (r mod length aiResponses) aiResponses [] in
  let aiMessage := Message.mkData randomResponse Message.ai now None in
  Store.setTyping false (Store.addMessage uuid chatroomId aiMessage s).

(** [activeChatroom?.messages || []], the list given to [MessageList]. *)
Definition shown_messages (s : AppState) : list Message.t :=
  match Store.getActiveChatroom s with
  | Some room => Chatroom.messages room
  | None => []
  end.

End ChatArea.

(** ** Authentication: which screen [AuthWrapper] shows, and the two forms *)
Module Auth.

Inductive Screen : Type := PhoneLogin | OtpVerification | Children.

(** [AuthWrapper] *)
Definition AuthWrapper (s : AppState) : Screen :=
  let authenticated :=
    match user s with
    | Some u => User.isAuthenticated u
    | None => false
    end in
  if negb authenticated then
    (if otpSent s then OtpVerification else PhoneLogin)
  else Children.

(** [PhoneLogin]'s [onSubmit]: what runs at once, and what its timer runs. *)
Definition phone_onSubmit (s : AppState) : AppState :=
  Store.setAuthenticating true s.

Definition phone_onSubmit_timer (s : AppState) : AppState :=
  Store.setOtpSent true s.

(** The [mockUser] of [OtpVerification]. *)
Definition mockUser (uuid : jsstring) : User.t :=
  {| User.id := uuid;
     User.phone := lit "+1 234 567 8900";
     User.countryCode := lit "+1";
     User.isAuthenticated := true |}.

(** The timer callback of [OtpVerification]'s [onSubmit]. *)
Definition otp_onSubmit_timer (uuid : jsstring) (s : AppState) : AppState :=
  Store.setAuthenticating false
    (Store.setOtpSent false (Store.setUser (Some (mockUser uuid)) s)).

(** [goBack] *)
Definition goBack (s : AppState) : AppState :=
  Store.setAuthenticating false (Store.setOtpSent false s).

End Auth.

(** ** Scrolling the message list *)
Module Scroll.
Import MessageList.

(** [handleScroll(event)]; [scrollTop] is the scroll offset, zero or not. *)
Definition handleScroll (scrollTop : Z) (c : Component) : Component :=
  if (scrollTop =? 0) && hasMoreMessages (view c) && negb (loadingOlder (view c))
  then loadOlderMessages c
  else c.

End Scroll.

(** ** Handlers as closures of a render

    [loadOlderMessages] is a [useCallback] over [chatroomId],
    [loadingOlder], [hasMoreMessages] and [page]: the function that a render
    returns tests the values which that render read, also when the state has
    been set since and no render has followed.  Its [set...] calls, and the
    functional updates of the timer callback, act on the current state. *)
Module Closure.
Import Browser MessageList.
Local Open Scope browser_scope.

Record Rendered : Type := mkRendered {
  component : Component;  (* the props of the last render, the current state
                             and the pending timers *)
  seen : View             (* the state as the last render read it *)
}.

(** Mounting: the render that follows the effect reads the state it left. *)
Definition mount (p : Props) : Rendered :=
  let c := MessageList.mount p in mkRendered c (view c).

(** A render with the props [p] (the same props, when only the state
    changed): the reset effect runs when one of its dependencies changed,
    and the handlers read the state as it is then. *)
Definition render (p : Props) (r : Rendered) : Rendered :=
  let c := rerender p (component r) in mkRendered c (view c).

(** [loadOlderMessages()], as returned by the last render, up to the point
    where the timer is scheduled. *)
Definition loadOlderMessages (r : Rendered) : Rendered :=
  let c := component r in
  let s := seen r in
  let v := view c in
  if loadingOlder s || negb (hasMoreMessages s) then r
  else if (length (messages (props c)) =? 0)%nat then
    mkRendered
      (mkComponent (props c)
         (mkView (loadingOlder v) false (page v) (olderMessages v)) (timers c)) s
  else if page s >=? 10 then
    mkRendered
      (mkComponent (props c)
         (mkView (loadingOlder v) false (page v) (olderMessages v)) (timers c)) s
  else
    mkRendered
      (mkComponent (props c)
         (mkView true (hasMoreMessages v) (page v) (olderMessages v))
         (timers c ++ [mkTimer (chatroomId (props c)) (page s)])) s.

(** The oldest pending timer fires; no render has read the state it
    leaves. *)
Definition timer_fires (r : Rendered) : M Rendered :=
  c <- MessageList.timer_fires (component r) ;;
  ret (mkRendered c (seen r)).

Definition handle (e : Event) (r : Rendered) : M Rendered :=
  match e with
  | LoadRequest => ret (loadOlderMessages r)
  | TimerFires => timer_fires r
  | Rerender p => ret (render p r)
  end.

Fixpoint handle_all (es : list Event) (r : Rendered) : M Rendered :=
  match es with
  | [] => ret r
  | e :: es' => r' <- handle e r ;; handle_all es' r'
  end.

End Closure.

(** * Vocabulary of the statements *)

(** A run of [addMessage] calls, each with its own [uuid], target and
    message. *)
Definition addMessages (calls : list (jsstring * jsstring * Message.data))
    (s : AppState) : AppState :=
  fold_left (fun st '(uuid, c, m) => Store.addMessage uuid c m st) calls s.

Section PageVocabulary.
Import Browser MessageList.

(** The world after [r] more clock readings and [d] more random draws. *)
Definition advance (w : World) (r d : nat) : World :=
  mkWorld (clock w) (random w) (reads w + r) (draws w + d).

(** The message of iteration [k] of a generation started in world [w]:
    iteration [k] makes the clock readings number [2k] and [2k+1] and the
    random draw number [k] of the generation. *)
Definition kth_message (c : jsstring) (p : Z) (w : World) (k : nat) : Message.t :=
  dummy_message c p (p * MESSAGES_PER_PAGE + Z.of_nat k)
    (clock w (reads w + 2 * k)%nat)
    (take 9 (random w (draws w + k)%nat))
    (clock w (reads w + 2 * k + 1)%nat).

(** The page indices for which every number the generator computes (the
    indices [p*20 + i], [index + 1] and the offsets [(index + 1) * 60000])
    is a non-negative integer up to 2^53.  The code computes them as
    doubles, which hold these integers exactly; beyond that range a double
    rounds, and the integer arithmetic of [dummy_message] is no longer that
    of the code. *)
Definition exact_page (p : Z) : Prop :=
  0 <= p /\ (p * 20 + 20) * 60000 <= 2 ^ 53.

(** The 40 clock readings of a generation of page [p] in world [w] are times
    at or after 1970 from which every timestamp of the page is a valid
    date. *)
Definition readings_in_range (p : Z) (w : World) : Prop :=
  forall k : nat, (k < 40)%nat ->
    0 <= clock w (reads w + k)%nat <= max_time
    /\ - max_time <= clock w (reads w + k)%nat - (p * 20 + 20) * 60000.

(** The part of a synthetic id that names its chatroom and page. *)
Definition page_marker (c : jsstring) (k : Z) : jsstring :=
  lit "dummy-" ++ c ++ lit "-page" ++ Number_toString k ++ lit "-".

Definition from_page (c : jsstring) (k : Z) (id : jsstring) : Prop :=
  exists rest, id = page_marker c k ++ rest.

(** The component after [n] completed loads over the props [p]. *)
Record loaded (p : Props) (n : nat) (c : Component) : Prop := mkLoaded {
  ld_props : props c = p;
  ld_timers : timers c = [];
  ld_loading : loadingOlder (view c) = false;
  ld_page : page (view c) = Z.of_nat n;
  ld_hasMore : hasMoreMessages (view c) = (n <? 10)%nat;
  ld_length : length (olderMessages (view c)) = (20 * n)%nat;
  ld_ids : Forall (fun m => exists k : nat,
                     (k < n)%nat /\ from_page (chatroomId p) (Z.of_nat k) (Message.id m))
             (olderMessages (view c))
}.

(** Events that do not trigger the reset effect of a view showing [len]
    real messages of chatroom [cid]. *)
Definition no_reset (cid : jsstring) (len : nat) (e : Event) : Prop :=
  match e with
  | LoadRequest | TimerFires => True
  | Rerender p' => chatroomId p' = cid /\ length (messages p') = len
  end.

End PageVocabulary.

(** A world whose clock stands at [t] and whose random source always gives
    the digits [digits]. *)
Definition still_world (t : Z) (digits : string) : Browser.World :=
  Browser.mkWorld (fun _ => t) (fun _ => lit digits) 0 0.

(** A view over one real message of chatroom "c1". *)
Definition one_message_props : MessageList.Props :=
  MessageList.mkProps (lit "c1")
    [Message.mk (lit "m1") (lit "Hello") Message.user (TimeValue 1700000000000) None]
    false.

(** ** A platform for concrete runs

    It writes time values in decimal, serialises every value to the one text
    [text], and parses that text, and no other, to [tree]; it gives no array
    a primitive value (no run below converts one). *)

Definition unlit (s : jsstring) : string :=
  string_of_list_ascii (List.map ascii_of_N s).

Definition decimal_Date_parse (s : jsstring) : Date :=
  match NilZero.int_of_string (unlit s) with
  | Some d => Date_of_number (Z.of_int d)
  | None => InvalidDate
  end.

Definition table_platform (text : jsstring) (tree : JS.value) : JS.Platform :=
  {| JS.JSON_parse := fun item =>
       if str_eqb item text then JS.Normal tree else JS.Throw JS.SyntaxError;
     JS.JSON_stringify := fun _ => text;
     JS.toISOString := Number_toString;
     JS.Date_parse := decimal_Date_parse;
     JS.ToPrimitive := fun _ => JS.Throw JS.TypeError |}.

(** The platform that round-trips the persisted value of [s] through the
    text "blob". *)
Definition platform_for (s : AppState) : JS.Platform :=
  table_platform (lit "blob")
    (JS.to_json (table_platform [] JS.Null) (Persist.storage_value s)).

(** A state with one chatroom holding two messages. *)
Definition sample_state : AppState :=
  let hello := Message.mkData (lit "Hello") Message.user (TimeValue 1700000001000) None in
  let world := Message.mkData (lit "World") Message.ai (TimeValue 1700000002500) None in
  Store.addMessage (lit "m2") (lit "room-1") world
    (Store.addMessage (lit "m1") (lit "room-1") hello
       (snd (Store.createChatroom (lit "room-1") (TimeValue 1700000000000) None
               Store.initial))).

(** A state whose only chatroom holds an invalid creation date, as
    [new Date(undefined)] makes one. *)
Definition invalid_date_state : AppState :=
  Store.set_chatrooms
    [Chatroom.mk (lit "room-1") (lit "New Chat") [] InvalidDate None]
    Store.initial.

(** * Vocabulary of the further properties *)

(** The ids of the messages of a list of chatrooms, room after room. *)
Definition message_ids_of (rooms : list Chatroom.t) : list jsstring :=
  concat (List.map (fun room => List.map Message.id (Chatroom.messages room)) rooms).

Definition message_ids (s : AppState) : list jsstring :=
  message_ids_of (chatrooms s).

(** Every [crypto.randomUUID()] returns an id that is not in use. *)
Definition fresh_uuids (a : Store.Action) (s : AppState) : Prop :=
  match a with
  | Store.CreateChatroom uuid _ _ => uuid ∉ Store.ids s
  | Store.AddMessage uuid _ _ => uuid ∉ message_ids s
  | _ => True
  end.

(** Two dates that are both valid, the first not after the second. *)
Definition time_le (a b : Date) : Prop :=
  match a, b with
  | TimeValue x, TimeValue y => x <= y
  | _, _ => False
  end.

(** [a] was created no earlier than [b]. *)
Definition created_no_earlier (a b : Chatroom.t) : Prop :=
  time_le (Chatroom.createdAt b) (Chatroom.createdAt a).

(** The clock does not run backwards: the [new Date()] of a
    [createChatroom] is not before the creation of any existing chatroom. *)
Definition clock_moves_forward (a : Store.Action) (s : AppState) : Prop :=
  match a with
  | Store.CreateChatroom _ now _ =>
      Forall (fun room => time_le (Chatroom.createdAt room) now) (chatrooms s)
  | _ => True
  end.

(** Lower case for the letters A to Z, every other code unit as it is: what
    [toLowerCase] does on ASCII text. *)
Definition ascii_lower (str : jsstring) : jsstring :=
  List.map (fun c => if ((65 <=? c) && (c <=? 90))%N then (c + 32)%N else c) str.

(** The last message of a chatroom determines its [lastMessage]. *)
Definition lastMessage_tracks_messages (room : Chatroom.t) : Prop :=
  Chatroom.lastMessage room = (Message.timestamp <$> last (Chatroom.messages room)).

(** A stored chatroom that [getItem] cannot revive: [null] (or
    [undefined]), or one whose [messages] is neither absent, [null] nor an
    array. *)
Definition malformed_room (room : JS.value) : Prop :=
  room = JS.Null \/ room = JS.Undefined
  \/ match JS.field room "messages" with
     | JS.Undefined | JS.Null | JS.Arr _ => False
     | _ => True
     end.

(** A value that [new Date] converts without calling a method of it: a
    primitive (or a [Date]); an array or a plain object is converted through
    its [valueOf] and [toString]. *)
Definition primitive_or_date (v : JS.value) : Prop :=
  match v with
  | JS.Arr _ | JS.Obj _ => False
  | _ => True
  end.

(** The three properties that [getItem] rewrites in a chatroom. *)
Definition revived_keys : list jsstring :=
  [lit "createdAt"; lit "lastMessage"; lit "messages"].

(** A view over chatroom [cid] with [len] real messages, between loads
    ([loaded]) or with the load of page [n] in flight: the request was made
    from a loaded view and its timer, which captured [cid] and [n], has not
    fired. *)
Definition paging (cid : jsstring) (len : nat) (c : MessageList.Component) : Prop :=
  exists p n,
    MessageList.chatroomId p = cid /\ length (MessageList.messages p) = len
    /\ (n <= 10)%nat
    /\ (loaded p n c
        \/ ((n < 10)%nat
            /\ exists c0,
                 loaded p n c0
                 /\ c = MessageList.mkComponent p
                          (MessageList.mkView true true (Z.of_nat n)
                             (MessageList.olderMessages (MessageList.view c0)))
                          [MessageList.mkTimer cid (Z.of_nat n)])).

(** Every load request among the events is made by the handler of a render
    that has read the current state: a render comes directly before it
    ([fresh] tells whether one comes directly before the first event). *)
Fixpoint requests_after_render (fresh : bool) (es : list MessageList.Event) : Prop :=
  match es with
  | [] => True
  | MessageList.LoadRequest :: es' => fresh = true /\ requests_after_render false es'
  | MessageList.TimerFires :: es' => requests_after_render false es'
  | MessageList.Rerender _ :: es' => requests_after_render true es'
  end.

(** * Properties of the store *)

Section StoreFacts.
Import Store.

Lemma str_eqb_eq (a b : jsstring) : str_eqb a b = true <-> a = b.
Proof. unfold str_eqb. apply bool_decide_eq_true. Qed.

Lemma str_eqb_neq (a b : jsstring) : str_eqb a b = false <-> a <> b.
Proof. unfold str_eqb. apply bool_decide_eq_false. Qed.

Lemma chatroomExists_ids (id : jsstring) (l : list Chatroom.t) :
  existsb (fun room => str_eqb (Chatroom.id room) id) l = true
  <-> id ∈ List.map Chatroom.id l.
Proof.
  induction l as [|r l IH]; simpl.
  - split; [discriminate | intros H; inversion H].
  - rewrite orb_true_iff, IH, str_eqb_eq, elem_of_cons. split.
    + intros [H|H]; [left; symmetry; exact H | right; exact H].
    + intros [H|H]; [left; symmetry; exact H | right; exact H].
Qed.

Lemma remaining_filter (id : jsstring) (l : list Chatroom.t) :
  List.filter (fun room => negb (str_eqb (Chatroom.id room) id)) l
  = filter (fun room => Chatroom.id room <> id) l.
Proof.
  induction l as [|r l IH]; [reflexivity|].
  simpl. rewrite filter_cons, IH.
  destruct (str_eqb (Chatroom.id r) id) eqn:E; simpl.
  - apply str_eqb_eq in E. destruct (decide (Chatroom.id r <> id)); [contradiction | reflexivity].
  - apply str_eqb_neq in E. destruct (decide (Chatroom.id r <> id)); [reflexivity | contradiction].
Qed.

Lemma ids_filter_other (id : jsstring) (l : list Chatroom.t) :
  id ∉ List.map Chatroom.id (filter (fun room => Chatroom.id room <> id) l).
Proof.
  intros H. apply list_elem_of_fmap in H as (r & Hid & Hin).
  apply list_elem_of_filter in Hin as [Hne _]. congruence.
Qed.

Lemma addMessage_room_id c m room :
  Chatroom.id (addMessage_room c m room) = Chatroom.id room.
Proof. unfold addMessage_room. destruct (str_eqb _ _); reflexivity. Qed.

Lemma addMessage_ids uuid c m s : ids (addMessage uuid c m s) = ids s.
Proof.
  unfold ids, addMessage. simpl. rewrite List.map_map.
  apply List.map_ext. intros r. apply addMessage_room_id.
Qed.

Lemma addMessage_room_other c m room :
  Chatroom.id room <> c -> addMessage_room c m room = room.
Proof.
  intros H. unfold addMessage_room.
  apply str_eqb_neq in H. rewrite H. reflexivity.
Qed.

Lemma addMessage_lookup uuid c m s (i : nat) :
  chatrooms (addMessage uuid c m s) !! i
  = addMessage_room c (Message.with_id m uuid) <$> chatrooms s !! i.
Proof. unfold addMessage. simpl. apply list_lookup_fmap. Qed.

(** Once a room has a message, [addMessage] keeps its title. *)
Lemma addMessage_room_nonempty_title c m room :
  Chatroom.messages room <> [] ->
  Chatroom.title (addMessage_room c m room) = Chatroom.title room
  /\ Chatroom.messages (addMessage_room c m room) <> [].
Proof.
  intros Hne. unfold addMessage_room.
  destruct (str_eqb _ _); simpl; [|tauto].
  destruct (Chatroom.messages room) as [|x l] eqn:E; [contradiction|].
  simpl. split; [reflexivity | discriminate].
Qed.

Lemma addMessages_nonempty_title calls : forall s (i : nat) room,
  chatrooms s !! i = Some room ->
  Chatroom.messages room <> [] ->
  Chatroom.title <$> chatrooms (addMessages calls s) !! i = Some (Chatroom.title room).
Proof.
  induction calls as [|[[uuid c] m] calls IH]; intros s i room Hi Hne.
  - simpl. rewrite Hi. reflexivity.
  - simpl.
    destruct (addMessage_room_nonempty_title c (Message.with_id m uuid) room Hne)
      as [Ht Hm].
    rewrite <- Ht. apply IH; [|exact Hm].
    rewrite addMessage_lookup, Hi. reflexivity.
Qed.

Lemma derived_title_short (content : jsstring) :
  (length content <= 50)%nat -> derived_title content = content.
Proof.
  intros H. unfold derived_title.
  destruct (Nat.ltb_spec 50 (length content)); [lia | reflexivity].
Qed.

Lemma derived_title_long (content : jsstring) :
  (50 < length content)%nat ->
  derived_title content = take 50 content ++ lit "...".
Proof.
  intros H. unfold derived_title.
  destruct (Nat.ltb_spec 50 (length content)); [reflexivity | lia].
Qed.


End StoreFacts.

(** C1. When the id [d] of a chatroom of the collection is the active id,
    [deleteChatroom d] leaves exactly the chatrooms with another id, in their
    order (so no chatroom with id [d] remains), and the active id becomes the
    id of the first remaining chatroom of the most-recent-first collection,
    or [null] when none remains. *)
Theorem deleteChatroom_active_reselects (s : AppState) (d : jsstring) :
  d ∈ Store.ids s ->
  activeChatroomId s = Some d ->
  let s' := Store.deleteChatroom d s in
  chatrooms s' = filter (fun room => Chatroom.id room <> d) (chatrooms s)
  /\ (d ∉ Store.ids s')
  /\ activeChatroomId s' = (Chatroom.id <$> head (chatrooms s'))
  /\ (chatrooms s' = [] -> activeChatroomId s' = None).
Proof.
  intros Hin Hact s'. subst s'. unfold Store.deleteChatroom.
  apply chatroomExists_ids in Hin. rewrite Hin. simpl.
  rewrite remaining_filter.
  rewrite bool_decide_eq_true_2 by exact Hact.
  split; [reflexivity|].
  split; [unfold Store.ids; simpl; apply ids_filter_other|].
  split.
  - destruct (filter _ _); reflexivity.
  - intros E. rewrite E. reflexivity.
Qed.

Lemma deleteChatroom_active_reselects_witness :
  let room (n : N) :=
    Chatroom.mk [n] (lit "t") [] (TimeValue (Z.of_N n)) None in
  let s := Store.set_activeChatroomId (Some [2%N])
             (Store.set_chatrooms [room 3%N; room 2%N; room 1%N] Store.initial) in
  chatrooms (Store.deleteChatroom [2%N] s) = [room 3%N; room 1%N]
  /\ activeChatroomId (Store.deleteChatroom [2%N] s) = Some [3%N].
Proof.
  intros room s.
  destruct (deleteChatroom_active_reselects s [2%N]) as (H1 & _ & H3 & _).
  - vm_compute. do 1 constructor. constructor.
  - reflexivity.
  - split; [rewrite H1; reflexivity | rewrite H3, H1; reflexivity].
Defined.

(** C2. For an id that matches no chatroom, [deleteChatroom] returns the
    state it was given (same collection, same active id, same [isTyping]) and
    [addMessage] leaves the collection, indeed the whole state, as it was.
    Both are total functions: there is nothing they can raise. *)
Theorem unknown_id_is_noop (s : AppState) (d uuid : jsstring) (m : Message.data) :
  d ∉ Store.ids s ->
  Store.deleteChatroom d s = s
  /\ chatrooms (Store.addMessage uuid d m s) = chatrooms s
  /\ Store.addMessage uuid d m s = s.
Proof.
  intros Hnot.
  assert (Hmap : List.map (Store.addMessage_room d (Message.with_id m uuid)) (chatrooms s)
                 = chatrooms s).
  { unfold Store.ids in Hnot. induction (chatrooms s) as [|r l IH]; [reflexivity|].
    simpl in *. rewrite not_elem_of_cons in Hnot. destruct Hnot as [Hr Hl].
    rewrite addMessage_room_other by congruence. rewrite IH by exact Hl. reflexivity. }
  split; [|split].
  - unfold Store.deleteChatroom.
    destruct (existsb _ _) eqn:E; [|reflexivity].
    apply chatroomExists_ids in E. contradiction.
  - unfold Store.addMessage. simpl. exact Hmap.
  - unfold Store.addMessage, Store.set_chatrooms. rewrite Hmap. destruct s; reflexivity.
Qed.

Lemma unknown_id_is_noop_witness :
  let room := Chatroom.mk [1%N] (lit "t") [] (TimeValue 0) None in
  let s := Store.set_activeChatroomId (Some [1%N])
             (Store.set_isTyping true (Store.set_chatrooms [room] Store.initial)) in
  let m := Message.mkData (lit "hi") Message.user (TimeValue 5) None in
  Store.deleteChatroom [9%N] s = s /\ Store.addMessage [7%N] [9%N] m s = s.
Proof.
  intros room s m.
  destruct (unknown_id_is_noop s [9%N] [7%N] m) as (H1 & _ & H3).
  - vm_compute. intros H. apply list_elem_of_singleton in H. discriminate.
  - split; assumption.
Defined.

(** C3. When [addMessage] targets a chatroom whose message list is empty,
    the chatroom's title becomes the message content if that has at most 50
    code units, and its first 50 code units followed by three dots otherwise;
    whatever [addMessage] calls follow, to this or to any chatroom, the
    title stays what the first message made it. *)
Theorem addMessage_title_derived_once
    (s : AppState) (i : nat) (room : Chatroom.t) (uuid : jsstring) (m : Message.data) :
  chatrooms s !! i = Some room ->
  Chatroom.messages room = [] ->
  let s1 := Store.addMessage uuid (Chatroom.id room) m s in
  exists room1,
    chatrooms s1 !! i = Some room1
    /\ ((length (Message.d_content m) <= 50)%nat ->
        Chatroom.title room1 = Message.d_content m)
    /\ ((50 < length (Message.d_content m))%nat ->
        Chatroom.title room1 = take 50 (Message.d_content m) ++ lit "...")
    /\ forall calls,
         (Chatroom.title <$> chatrooms (addMessages calls s1) !! i)
         = Some (Chatroom.title room1).
Proof.
  intros Hi Hempty s1.
  exists (Store.addMessage_room (Chatroom.id room) (Message.with_id m uuid) room).
  assert (Hs1 : chatrooms s1 !! i
                = Some (Store.addMessage_room (Chatroom.id room) (Message.with_id m uuid) room)).
  { subst s1. rewrite addMessage_lookup, Hi. reflexivity. }
  assert (Htitle : Chatroom.title
                     (Store.addMessage_room (Chatroom.id room) (Message.with_id m uuid) room)
                   = Store.derived_title (Message.d_content m)).
  { unfold Store.addMessage_room.
    rewrite (proj2 (str_eqb_eq _ _) eq_refl). simpl. rewrite Hempty. reflexivity. }
  split; [exact Hs1|]. rewrite Htitle.
  split; [apply derived_title_short|].
  split; [apply derived_title_long|].
  intros calls. rewrite <- Htitle.
  apply addMessages_nonempty_title; [exact Hs1|].
  unfold Store.addMessage_room.
  rewrite (proj2 (str_eqb_eq _ _) eq_refl). simpl.
  destruct (Chatroom.messages room); discriminate.
Qed.

Lemma addMessage_title_derived_once_witness :
  let room := Chatroom.mk [1%N] (lit "New Chat") [] (TimeValue 0) None in
  let s := Store.set_chatrooms [room] Store.initial in
  let hello := Message.mkData (lit "Hello") Message.user (TimeValue 5) None in
  let world := Message.mkData (lit "World") Message.ai (TimeValue 9) None in
  (Chatroom.title <$>
     chatrooms (Store.addMessage [8%N] [1%N] world (Store.addMessage [7%N] [1%N] hello s))
     !! 0%nat)
  = Some (lit "Hello").
Proof.
  intros room s hello world.
  destruct (addMessage_title_derived_once s 0 room [7%N] hello eq_refl eq_refl)
    as (room1 & H1 & Hshort & _ & Hlater).
  specialize (Hlater [([8%N], [1%N], world)]).
  rewrite Hshort in Hlater by (vm_compute; lia).
  exact Hlater.
Defined.




(** C9, as it holds.  [addMessage] never looks at how a title came about:
    for a chatroom fresh from [createChatroom], with or without a title
    argument, the first message replaces the title by the one derived from
    its content (the content up to 50 code units, else its first 50 code
    units and three dots).  A provided non-empty title is the chatroom's
    title from its creation until that first message. *)
Theorem first_message_overrides_title
    (uuid : jsstring) (now : Date) (title : option jsstring) (s : AppState)
    (uuid' : jsstring) (m : Message.data) :
  let created := Store.createChatroom uuid now title s in
  let s2 := Store.addMessage uuid' (Chatroom.id (fst created)) m (snd created) in
  head (chatrooms (snd created)) = Some (fst created)
  /\ (forall t, title = Some t -> t <> [] -> Chatroom.title (fst created) = t)
  /\ exists room2,
       head (chatrooms s2) = Some room2
       /\ Chatroom.id room2 = uuid
       /\ Chatroom.title room2
          = (if (50 <? length (Message.d_content m))%nat
             then take 50 (Message.d_content m) ++ lit "..."
             else Message.d_content m).
Proof.
  intros created s2. subst created s2. simpl.
  split; [reflexivity|].
  split.
  - intros t -> Hne. destruct t; [contradiction | reflexivity].
  - eexists. split; [reflexivity|].
    unfold Store.addMessage_room. simpl.
    rewrite (proj2 (str_eqb_eq _ _) eq_refl). simpl.
    split; reflexivity.
Qed.

Lemma first_message_overrides_title_witness :
  let created :=
    Store.createChatroom (lit "id-1") (TimeValue 0) (Some (lit "Trip plan")) Store.initial in
  let hello := Message.mkData (lit "Hello") Message.user (TimeValue 5) None in
  Chatroom.title (fst created) = lit "Trip plan"
  /\ exists room2,
       head (chatrooms (Store.addMessage (lit "id-2") (lit "id-1") hello (snd created)))
       = Some room2
       /\ Chatroom.title room2 = lit "Hello".
Proof.
  intros created hello.
  destruct (first_message_overrides_title (lit "id-1") (TimeValue 0)
              (Some (lit "Trip plan")) Store.initial (lit "id-2") hello)
    as (_ & Hkept & room2 & Hhead & _ & Htitle).
  split; [apply Hkept; [reflexivity | discriminate]|].
  exists room2. split; [exact Hhead | exact Htitle].
Defined.

(** C9, as stated, fails: a chatroom created with the title "Trip plan"
    is titled "Hello" once the message "Hello" is appended. *)
Lemma explicit_title_lost_on_first_message :
  let created :=
    Store.createChatroom (lit "id-1") (TimeValue 0) (Some (lit "Trip plan")) Store.initial in
  let hello := Message.mkData (lit "Hello") Message.user (TimeValue 5) None in
  let s2 := Store.addMessage (lit "id-2") (Chatroom.id (fst created)) hello (snd created) in
  Chatroom.title (fst created) = lit "Trip plan"
  /\ (Chatroom.title <$> head (chatrooms s2)) = Some (lit "Hello")
  /\ lit "Hello" <> lit "Trip plan".
Proof.
  intros created hello s2.
  split; [reflexivity|]. split; [reflexivity|]. discriminate.
Qed.

(** C10. [createChatroom] called without a title, or with the empty string,
    returns a chatroom titled "New Chat", and that chatroom is the one put
    at the head of the collection; whatever the argument, the title of a
    newly created chatroom is not empty. *)
Theorem createChatroom_default_title
    (uuid : jsstring) (now : Date) (s : AppState) :
  Chatroom.title (fst (Store.createChatroom uuid now None s)) = lit "New Chat"
  /\ Chatroom.title (fst (Store.createChatroom uuid now (Some []) s)) = lit "New Chat"
  /\ forall title,
       Chatroom.title (fst (Store.createChatroom uuid now title s)) <> []
       /\ head (chatrooms (snd (Store.createChatroom uuid now title s)))
          = Some (fst (Store.createChatroom uuid now title s))
       /\ Chatroom.messages (fst (Store.createChatroom uuid now title s)) = [].
Proof.
  split; [reflexivity|]. split; [reflexivity|].
  intros title. split; [|split; reflexivity].
  simpl. destruct title as [[|c t]|]; discriminate.
Qed.

(** * Properties of decimal strings *)

Lemma unlit_lit (s : string) : unlit (lit s) = s.
Proof.
  unfold unlit, lit. rewrite List.map_map.
  rewrite (List.map_ext _ (fun a => a)) by apply ascii_N_embedding.
  rewrite List.map_id. apply string_of_list_ascii_of_string.
Qed.

Lemma not_in_digits (d : Decimal.uint) : 45%N ∉ lit (NilEmpty.string_of_uint d).
Proof.
  induction d; simpl; [intros H; inversion H|..];
    (change (lit (String ?a ?s)) with (N_of_ascii a :: lit s);
     rewrite not_elem_of_cons; split; [discriminate | assumption]).
Qed.

Lemma Number_toString_no_minus (z : Z) : 0 <= z -> 45%N ∉ Number_toString z.
Proof.
  intros Hz. unfold Number_toString. destruct z as [|p|p]; [| |lia].
  - vm_compute. intros H. apply list_elem_of_singleton in H. discriminate.
  - pose proof (DecimalPos.Unsigned.to_uint_nonnil p) as Hnn.
    cbn [Z.to_int NilZero.string_of_int]. unfold NilZero.string_of_uint.
    destruct (Pos.to_uint p); [contradiction|..]; apply not_in_digits.
Qed.

Lemma Number_toString_inj (a b : Z) : Number_toString a = Number_toString b -> a = b.
Proof.
  unfold Number_toString. intros E. apply (f_equal unlit) in E.
  rewrite !unlit_lit in E. apply (f_equal NilZero.int_of_string) in E.
  assert (Hnn : forall z, Z.to_int z <> Decimal.Pos Decimal.Nil
                          /\ Z.to_int z <> Decimal.Neg Decimal.Nil).
  { intros z. destruct z; simpl; split; try discriminate;
      intros E'; injection E' as E'; exact (DecimalPos.Unsigned.to_uint_nonnil _ E'). }
  rewrite !NilZero.isi in E by apply Hnn.
  injection E as E. apply DecimalZ.to_int_inj. exact E.
Qed.

Lemma split_at_separator (sep : N) (l1 l2 r1 r2 : jsstring) :
  sep ∉ l1 -> sep ∉ l2 -> l1 ++ sep :: r1 = l2 ++ sep :: r2 -> l1 = l2.
Proof.
  revert l2. induction l1 as [|x l1 IH]; intros [|y l2] H1 H2 E; simpl in E.
  - reflexivity.
  - injection E as E _. subst y. exfalso. apply H2. left.
  - injection E as E _. subst x. exfalso. apply H1. left.
  - injection E as -> E. f_equal.
    rewrite not_elem_of_cons in H1, H2. apply IH; tauto.
Qed.

(** * Properties of the synthetic pages *)

Section PageFacts.
Import Browser MessageList.

Lemma advance_0 w : advance w 0 0 = w.
Proof. destruct w. unfold advance. simpl. rewrite !Nat.add_0_r. reflexivity. Qed.

Lemma for_loop_spec c p w0 n : forall (i : nat) acc,
  for_loop n (Z.of_nat i) (loop_body c p) acc (advance w0 (2 * i) i)
  = (acc ++ List.map (kth_message c p w0) (seq i n),
     advance w0 (2 * (i + n)) (i + n)).
Proof.
  induction n as [|n IH]; intros i acc.
  - cbn [for_loop seq List.map]. unfold ret.
    rewrite app_nil_r, Nat.add_0_r. reflexivity.
  - cbn [for_loop]. unfold bind at 1.
    assert (Hbody : loop_body c p (Z.of_nat i) acc (advance w0 (2 * i) i)
                    = (acc ++ [kth_message c p w0 i], advance w0 (2 * S i) (S i))).
    { unfold loop_body, bind, Date_now, Math_random_fragment, ret, advance,
        kth_message. cbn [clock random reads draws].
      f_equal; [do 3 f_equal; f_equal; lia|]. f_equal; lia. }
    rewrite Hbody.
    replace (Z.of_nat i + 1) with (Z.of_nat (S i)) by lia.
    rewrite IH. cbn [seq List.map]. rewrite <- app_assoc. cbn [app].
    f_equal. unfold advance. f_equal; lia.
Qed.

Lemma generateDummyMessages_spec c p w :
  generateDummyMessages c p w
  = (reverse (List.map (kth_message c p w) (seq 0 20)), advance w 40 20).
Proof.
  unfold generateDummyMessages, bind.
  pose proof (for_loop_spec c p w (Z.to_nat MESSAGES_PER_PAGE) 0 []) as H.
  change (2 * 0)%nat with 0%nat in H. rewrite advance_0 in H.
  change (Z.of_nat 0) with 0 in H. rewrite H. reflexivity.
Qed.

Lemma page_length c p w : length (fst (generateDummyMessages c p w)) = 20%nat.
Proof. rewrite generateDummyMessages_spec. reflexivity. Qed.

Lemma page_lookup c p w (j : nat) :
  (j < 20)%nat ->
  fst (generateDummyMessages c p w) !! j = Some (kth_message c p w (19 - j)).
Proof.
  intros Hj. rewrite generateDummyMessages_spec. cbn [fst].
  rewrite reverse_lookup by (rewrite length_map, length_seq; exact Hj).
  rewrite length_map, length_seq, list_lookup_fmap.
  rewrite lookup_seq_lt by lia. reflexivity.
Qed.

Lemma isUser_divide (idx : Z) : isUser idx = true <-> (3 | idx).
Proof.
  unfold isUser. rewrite Z.eqb_eq. apply Z.rem_divide. discriminate.
Qed.

Lemma Date_of_number_valid (t : Z) :
  Z.abs t <= max_time -> Date_of_number t = TimeValue t.
Proof.
  intros H. unfold Date_of_number.
  destruct (Z.leb_spec (Z.abs t) max_time); [reflexivity | lia].
Qed.

Lemma exact_page_bounds (p : Z) :
  exact_page p -> 0 <= p /\ (p * 20 + 20) * 60000 <= 9007199254740992.
Proof. intros [H0 H]. change (2 ^ 53) with 9007199254740992 in H. split; assumption. Qed.

Lemma page_messages_agree c p w w' :
  fst (generateDummyMessages c p w') = fst (generateDummyMessages c p w) ->
  forall k : nat, (k < 20)%nat -> kth_message c p w' k = kth_message c p w k.
Proof.
  rewrite !generateDummyMessages_spec. cbn [fst]. intros E k Hk.
  apply (inj reverse) in E.
  apply (f_equal (fun l => nth_error l k)) in E.
  rewrite !nth_error_map, !nth_error_seq in E.
  destruct (Nat.ltb_spec k 20) as [_|]; [|lia].
  cbn [option_map] in E. apply (inj Some) in E. exact E.
Qed.

Lemma kth_message_readings c p w w' (k : nat) :
  0 <= p -> (k < 20)%nat ->
  readings_in_range p w -> readings_in_range p w' ->
  kth_message c p w' k = kth_message c p w k ->
  clock w' (reads w' + 2 * k)%nat = clock w (reads w + 2 * k)%nat
  /\ clock w' (reads w' + (2 * k + 1))%nat = clock w (reads w + (2 * k + 1))%nat
  /\ take 9 (random w' (draws w' + k)%nat) = take 9 (random w (draws w + k)%nat).
Proof.
  intros Hp Hk Hr Hr' E.
  pose proof (f_equal Message.id E) as Eid.
  pose proof (f_equal Message.timestamp E) as Ets.
  unfold kth_message, dummy_message in Eid, Ets.
  cbn [Message.id Message.timestamp] in Eid, Ets.
  change MESSAGES_PER_PAGE with 20 in Ets.
  destruct (Hr (2 * k)%nat ltac:(lia)) as [[Hid0 _] _].
  destruct (Hr' (2 * k)%nat ltac:(lia)) as [[Hid0' _] _].
  destruct (Hr (2 * k + 1)%nat ltac:(lia)) as [[Hts0 Hts1] Hts2].
  destruct (Hr' (2 * k + 1)%nat ltac:(lia)) as [[Hts0' Hts1'] Hts2'].
  replace (reads w + 2 * k + 1)%nat with (reads w + (2 * k + 1))%nat in Ets by lia.
  replace (reads w' + 2 * k + 1)%nat with (reads w' + (2 * k + 1))%nat in Ets by lia.
  rewrite !Date_of_number_valid in Ets by (unfold max_time in *; lia).
  unfold uniqueId in Eid. do 7 apply app_inv_head in Eid.
  assert (Enow : Number_toString (clock w' (reads w' + 2 * k)%nat)
                 = Number_toString (clock w (reads w + 2 * k)%nat)).
  { eapply (split_at_separator 45%N);
      [apply Number_toString_no_minus; exact Hid0'
      |apply Number_toString_no_minus; exact Hid0 | exact Eid]. }
  rewrite Enow in Eid. do 2 apply app_inv_head in Eid.
  split; [apply Number_toString_inj; exact Enow|].
  split; [injection Ets as Ets; change (k + (k + 0))%nat with (2 * k)%nat in Ets; lia
        | exact Eid].
Qed.

End PageFacts.

(** C8, as it holds.  Let [p] be a page index in the range where the
    code's arithmetic is exact ([exact_page]: a non-negative integer with
    [(p*20+20)*60000] at most 2^53).  A generation for chatroom [c] and page
    [p] returns exactly 20 messages.  The message at position [j] of the
    page is the one with global index [p*20 + (19-j)] (the page is the
    loop's output, reversed): its sender is "user" when that index is
    divisible by 3 and "ai" otherwise, and its timestamp is the clock
    reading made for it, less one minute per index.  When the clock does not
    advance during the generation (every reading is [t]) and the page lies
    in the range of time values, the timestamps are before [t], rise along
    the page (oldest first) and neighbours are exactly one minute apart.
    The ids and the timestamps depend on the clock and on the random source:
    generations that read the same clock values and draw the same random
    fragments return the same page, and when the readings are times at or
    after 1970 from which every timestamp of the page is a valid date, only
    such generations do. *)
Theorem generateDummyMessages_page (c : jsstring) (p : Z) (w : Browser.World) :
  exact_page p ->
  let page := fst (MessageList.generateDummyMessages c p w) in
  length page = 20%nat
  /\ (forall j : nat, (j < 20)%nat ->
        exists m, page !! j = Some m
          /\ let idx := p * 20 + Z.of_nat (19 - j) in
             ((3 | idx) -> Message.sender m = Message.user)
             /\ (~ (3 | idx) -> Message.sender m = Message.ai)
             /\ Message.timestamp m
                = Date_of_number
                    (Browser.clock w (Browser.reads w + 2 * (19 - j) + 1)%nat
                     - (idx + 1) * 60000))
  /\ (forall t,
        (forall k : nat, (k < 40)%nat -> Browser.clock w (Browser.reads w + k)%nat = t) ->
        t <= max_time -> - max_time <= t - (p * 20 + 20) * 60000 ->
        (forall j : nat, (j < 20)%nat ->
           (Message.timestamp <$> page !! j)
           = Some (TimeValue (t - (p * 20 + 20 - Z.of_nat j) * 60000)))
        /\ (forall (j : nat) a b, (S j < 20)%nat ->
              (Message.timestamp <$> page !! j) = Some (TimeValue a) ->
              (Message.timestamp <$> page !! S j) = Some (TimeValue b) ->
              b = a + 60000 /\ b < t))
  /\ (forall w',
        (forall k : nat, (k < 40)%nat ->
           Browser.clock w' (Browser.reads w' + k)%nat
           = Browser.clock w (Browser.reads w + k)%nat) ->
        (forall k : nat, (k < 20)%nat ->
           take 9 (Browser.random w' (Browser.draws w' + k)%nat)
           = take 9 (Browser.random w (Browser.draws w + k)%nat)) ->
        fst (MessageList.generateDummyMessages c p w') = page)
  /\ (forall w',
        readings_in_range p w -> readings_in_range p w' ->
        fst (MessageList.generateDummyMessages c p w') = page ->
        (forall k : nat, (k < 40)%nat ->
           Browser.clock w' (Browser.reads w' + k)%nat
           = Browser.clock w (Browser.reads w + k)%nat)
        /\ (forall k : nat, (k < 20)%nat ->
              take 9 (Browser.random w' (Browser.draws w' + k)%nat)
              = take 9 (Browser.random w (Browser.draws w + k)%nat))).
Proof.
  intros Hexact page. subst page.
  destruct (exact_page_bounds p Hexact) as [Hp _].
  split; [apply page_length|].
  split; [|split; [|split]].
  - intros j Hj. eexists. split; [apply page_lookup; exact Hj|].
    intros idx. unfold kth_message, MessageList.dummy_message. simpl.
    change MessageList.MESSAGES_PER_PAGE with 20. fold idx.
    split; [|split].
    + intros Hd. apply isUser_divide in Hd. rewrite Hd. reflexivity.
    + intros Hd. destruct (MessageList.isUser idx) eqn:E; [|reflexivity].
      apply isUser_divide in E. contradiction.
    + reflexivity.
  - intros t Hclock Htmax Htmin.
    assert (Hts : forall j : nat, (j < 20)%nat ->
              (Message.timestamp <$> fst (MessageList.generateDummyMessages c p w) !! j)
              = Some (TimeValue (t - (p * 20 + 20 - Z.of_nat j) * 60000))).
    { intros j Hj. rewrite page_lookup by exact Hj.
      unfold kth_message, MessageList.dummy_message. simpl.
      change MessageList.MESSAGES_PER_PAGE with 20.
      replace (Browser.reads w + (19 - j + (19 - j + 0)) + 1)%nat
        with (Browser.reads w + (2 * (19 - j) + 1))%nat by lia.
      rewrite Hclock by lia.
      replace (p * 20 + Z.of_nat (19 - j) + 1) with (p * 20 + 20 - Z.of_nat j) by lia.
      rewrite Date_of_number_valid; [reflexivity|]. unfold max_time in *. lia. }
    split; [exact Hts|].
    intros j a b Hj Ha Hb.
    rewrite Hts in Ha by lia. rewrite Hts in Hb by lia.
    injection Ha as <-. injection Hb as <-. lia.
  - intros w' Hclock Hrandom. rewrite !generateDummyMessages_spec. cbn [fst].
    f_equal. apply List.map_ext_in. intros k Hk. apply in_seq in Hk.
    unfold kth_message. rewrite Hrandom by lia.
    replace (Browser.reads w' + 2 * k + 1)%nat
      with (Browser.reads w' + (2 * k + 1))%nat by lia.
    replace (Browser.reads w + 2 * k + 1)%nat
      with (Browser.reads w + (2 * k + 1))%nat by lia.
    rewrite !Hclock by lia. reflexivity.
  - intros w' Hr Hr' Heq.
    pose proof (page_messages_agree c p w w' Heq) as Hk.
    split.
    + intros k Hlt.
      destruct (Nat.Even_or_Odd k) as [[h ->]|[h ->]];
        destruct (kth_message_readings c p w w' h Hp ltac:(lia) Hr Hr'
                    (Hk h ltac:(lia))) as (Hid & Hts & _); assumption.
    + intros k Hlt.
      destruct (kth_message_readings c p w w' k Hp Hlt Hr Hr' (Hk k Hlt))
        as (_ & _ & Hf). exact Hf.
Qed.

Lemma generateDummyMessages_page_witness :
  let page :=
    fst (MessageList.generateDummyMessages (lit "c1") 2 (still_world 1700000000000 "k3j9x")) in
  (Message.timestamp <$> page !! 0%nat) = Some (TimeValue (1700000000000 - 60 * 60000))
  /\ (Message.timestamp <$> page !! 19%nat) = Some (TimeValue (1700000000000 - 41 * 60000))
  /\ (Message.sender <$> page !! 19%nat) = Some Message.ai
  /\ (Message.sender <$> page !! 17%nat) = Some Message.user
  /\ fst (MessageList.generateDummyMessages (lit "c1") 2
            (still_world 1700000000001 "k3j9x")) <> page.
Proof.
  intros page.
  assert (Hexact : exact_page 2) by (split; [lia | discriminate]).
  destruct (generateDummyMessages_page (lit "c1") 2 (still_world 1700000000000 "k3j9x")
              Hexact)
    as (_ & Hsender & Hclock & _ & Honly).
  destruct (Hclock 1700000000000) as [Hts _];
    [reflexivity | unfold max_time; lia | unfold max_time; lia |].
  split; [exact (Hts 0%nat ltac:(lia))|].
  split; [exact (Hts 19%nat ltac:(lia))|].
  split; [|split].
  - destruct (Hsender 19%nat ltac:(lia)) as (m & Hm & _ & Hai & _).
    fold page in Hm. rewrite Hm. simpl. f_equal. apply Hai.
    intros [x Hx]. simpl in Hx. lia.
  - destruct (Hsender 17%nat ltac:(lia)) as (m & Hm & Huser & _).
    fold page in Hm. rewrite Hm. simpl. f_equal. apply Huser.
    exists 14. reflexivity.
  - intros Hsame.
    assert (Hrange : forall t, 1700000000000 <= t <= 1700000000001 ->
                               readings_in_range 2 (still_world t "k3j9x")).
    { intros t Ht k _. cbn [still_world Browser.clock]. unfold max_time. lia. }
    destruct (Honly (still_world 1700000000001 "k3j9x")
                (Hrange 1700000000000 ltac:(lia)) (Hrange 1700000000001 ltac:(lia))
                Hsame) as [Hreadings _].
    specialize (Hreadings 0%nat ltac:(lia)). discriminate Hreadings.
Defined.

(** C8, as stated, fails: the page is not a function of [(c, p)] alone.  Two
    generations of page 0 of the same chatroom, one millisecond apart,
    differ in the timestamp (and the id) of every message. *)
Lemma generateDummyMessages_not_deterministic :
  ~ (forall c p w w',
       fst (MessageList.generateDummyMessages c p w)
       = fst (MessageList.generateDummyMessages c p w')).
Proof.
  intros H.
  specialize (H (lit "c1") 0 (still_world 1700000000000 "k3j9x")
                (still_world 1700000000001 "k3j9x")).
  apply (f_equal (fun l => Message.timestamp <$> head l)) in H.
  vm_compute in H. discriminate.
Qed.

(** * Properties of the pagination *)

Section PaginationFacts.
Import Browser MessageList.

Lemma uniqueId_from_page c p idx now fragment :
  from_page c p (uniqueId c p idx now fragment).
Proof.
  exists (Number_toString idx ++ lit "-" ++ Number_toString now ++ lit "-" ++ fragment).
  unfold uniqueId, page_marker. rewrite <- !app_assoc. reflexivity.
Qed.

Lemma digit_toString (k : Z) :
  0 <= k <= 9 -> Number_toString k = [(48 + Z.to_N k)%N].
Proof.
  intros H.
  assert (E : k = 0 \/ k = 1 \/ k = 2 \/ k = 3 \/ k = 4 \/ k = 5 \/ k = 6
              \/ k = 7 \/ k = 8 \/ k = 9) by lia.
  repeat (destruct E as [->|E]; [reflexivity|]). subst k. reflexivity.
Qed.

(** Ids of different pages (of the ten that can be loaded) differ. *)
Lemma from_page_distinct c k k' id :
  0 <= k <= 9 -> 0 <= k' <= 9 -> from_page c k id -> from_page c k' id -> k = k'.
Proof.
  intros Hk Hk' [r ->] [r' E]. unfold page_marker in E.
  rewrite <- !app_assoc in E.
  apply app_inv_head in E. apply app_inv_head in E. apply app_inv_head in E.
  rewrite !digit_toString in E by assumption.
  simpl in E. injection E as E _. lia.
Qed.

Lemma page_ids c k w :
  Forall (fun m => from_page c k (Message.id m)) (fst (generateDummyMessages c k w)).
Proof.
  rewrite generateDummyMessages_spec. cbn [fst].
  apply Forall_reverse, list.Forall_forall. intros m Hm.
  apply list_elem_of_fmap in Hm as (i & -> & _).
  apply uniqueId_from_page.
Qed.

(** New messages whose ids are all fresh pass the duplicate filter. *)
Lemma merge_older_fresh (newMessages prev : list Message.t) :
  Forall (fun m => Message.id m ∉ List.map Message.id prev) newMessages ->
  merge_older newMessages prev = newMessages ++ prev.
Proof.
  intros H. unfold merge_older. f_equal.
  induction H as [|m l Hm Hl IH]; [reflexivity|].
  simpl. rewrite bool_decide_eq_false_2 by exact Hm. simpl. rewrite IH. reflexivity.
Qed.

Lemma mount_loaded p : messages p <> [] -> loaded p 0 (mount p).
Proof.
  intros Hne. split; try reflexivity.
  - simpl. destruct (messages p); [contradiction | reflexivity].
  - simpl. constructor.
Qed.

Lemma load_page_loaded p n c w :
  messages p <> [] -> (n < 10)%nat -> loaded p n c ->
  loaded p (S n) (fst (load_page c w))
  /\ olderMessages (view (fst (load_page c w)))
     = fst (generateDummyMessages (chatroomId p) (Z.of_nat n) w)
       ++ olderMessages (view c)
  /\ snd (load_page c w) = advance w 40 20.
Proof.
  intros Hne Hn [Hp Ht Hl Hpg Hm Hlen Hids].
  assert (Hreq : loadOlderMessages c
                 = mkComponent p
                     (mkView true true (Z.of_nat n) (olderMessages (view c)))
                     [mkTimer (chatroomId p) (Z.of_nat n)]).
  { unfold loadOlderMessages. rewrite Hl, Hm, Hp, Ht, Hpg.
    rewrite (proj2 (Nat.ltb_lt n 10) Hn). simpl.
    destruct (messages p) as [|x l]; [contradiction|]. simpl.
    destruct (Z.geb_spec (Z.of_nat n) 10); [lia | reflexivity]. }
  unfold load_page. rewrite Hreq.
  unfold timer_fires, timeout_callback, bind, ret. cbn [timers view props t_chatroomId t_page].
  rewrite generateDummyMessages_spec. cbn [fst snd].
  change (hasMoreMessages (mkView true true (Z.of_nat n) (olderMessages (view c))))
    with true.
  rewrite merge_older_fresh.
  2:{ pose proof (page_ids (chatroomId p) (Z.of_nat n) w) as Hnew.
      rewrite generateDummyMessages_spec in Hnew. cbn [fst] in Hnew.
      eapply list.Forall_impl; [exact Hnew|]. intros m Hfrom Hin. simpl in Hfrom.
      cbn [olderMessages] in Hin.
      apply list_elem_of_fmap in Hin as (m' & Hid & Hin').
      rewrite list.Forall_forall in Hids. destruct (Hids m' Hin') as (k & Hk & Hfrom').
      rewrite <- Hid in Hfrom'.
      assert (Z.of_nat n = Z.of_nat k)
        by (eapply from_page_distinct; [| |exact Hfrom|exact Hfrom']; lia).
      lia. }
  split; [|split; reflexivity].
  split; cbn [props timers view loadingOlder page hasMoreMessages olderMessages].
  - reflexivity.
  - reflexivity.
  - reflexivity.
  - lia.
  - rewrite length_reverse, length_map, length_seq. cbn [Z.of_nat].
    change (Z.of_nat 20 <? MESSAGES_PER_PAGE) with false. cbn [orb].
    destruct (Z.geb_spec (Z.of_nat n) 9), (Nat.ltb_spec (S n) 10); try reflexivity; lia.
  - rewrite length_app, length_reverse, length_map, length_seq, Hlen. lia.
  - apply Forall_app. split.
    + pose proof (page_ids (chatroomId p) (Z.of_nat n) w) as Hnew.
      rewrite generateDummyMessages_spec in Hnew. cbn [fst] in Hnew.
      eapply list.Forall_impl; [exact Hnew|]. intros m Hfrom. exists n. split; [lia | exact Hfrom].
    + eapply list.Forall_impl; [exact Hids|]. intros m (k & Hk & Hfrom).
      exists k. split; [lia | exact Hfrom].
Qed.



(** With no more history on offer and no timer pending, nothing but a reset
    changes the view, and no timer gets scheduled. *)
Lemma no_more_is_stable cid len es : forall c w,
  chatroomId (props c) = cid -> length (messages (props c)) = len ->
  hasMoreMessages (view c) = false -> timers c = [] ->
  Forall (no_reset cid len) es ->
  view (fst (handle_all es c w)) = view c /\ timers (fst (handle_all es c w)) = [].
Proof.
  induction es as [|e es IH]; intros c w Hcid Hlen Hm Ht Hes.
  - simpl. split; [reflexivity | exact Ht].
  - inversion Hes as [|? ? He Hes']; subst.
    cbn [handle_all]. unfold bind.
    assert (Hstep : exists c', handle e c w = (c', snd (handle e c w))
                     /\ view c' = view c /\ timers c' = []
                     /\ chatroomId (props c') = chatroomId (props c)
                     /\ length (messages (props c')) = length (messages (props c))).
    { destruct e as [| |p']; cbn [handle].
      - exists c. unfold ret, loadOlderMessages. rewrite Hm, orb_true_r. simpl. tauto.
      - exists c. unfold timer_fires. rewrite Ht. simpl. tauto.
      - exists (rerender p' c). unfold ret. split; [reflexivity|].
        destruct He as [He1 He2]. unfold rerender. simpl.
        rewrite He1, He2, (proj2 (str_eqb_eq _ _) eq_refl), Nat.eqb_refl. simpl.
        tauto. }
    destruct Hstep as (c' & Hc' & Hv & Ht' & Hcid' & Hlen').
    rewrite Hc'.
    destruct (IH c' (snd (handle e c w))) as [H1 H2];
      [congruence | congruence | congruence | exact Ht' | exact Hes' |].
    split; [congruence | exact H2].
Qed.

End PaginationFacts.




(** * Properties of the persistence adapter *)

Section PersistFacts.
Import JS Persist.

Lemma lookup_prop_here k v r : lookup_prop k ((k, v) :: r) = Some v.
Proof.
  unfold lookup_prop. simpl. rewrite (proj2 (str_eqb_eq k k) eq_refl). reflexivity.
Qed.

Lemma lookup_prop_next k k' v r :
  k' <> k -> lookup_prop k ((k', v) :: r) = lookup_prop k r.
Proof.
  intros H. unfold lookup_prop. simpl.
  rewrite (proj2 (str_eqb_neq k' k) H). reflexivity.
Qed.

Lemma set_prop_here k v v' r : set_prop k v ((k, v') :: r) = (k, v) :: r.
Proof. simpl. rewrite (proj2 (str_eqb_eq k k) eq_refl). reflexivity. Qed.

Lemma set_prop_next k k' v v' r :
  k' <> k -> set_prop k v ((k', v') :: r) = (k', v') :: set_prop k v r.
Proof. intros H. simpl. rewrite (proj2 (str_eqb_neq k' k) H). reflexivity. Qed.

Lemma set_prop_nil k v : set_prop k v [] = [(k, v)].
Proof. reflexivity. Qed.

Lemma lookup_prop_nil k : lookup_prop k [] = None.
Proof. reflexivity. Qed.

(** Two property names written as literals differ. *)
Ltac lit_neq := let E := fresh in intros E; vm_compute in E; discriminate E.

(** Reads and writes of properties whose names are literals. *)
Ltac props :=
  repeat first
    [ rewrite lookup_prop_here | rewrite set_prop_here
    | rewrite lookup_prop_nil | rewrite set_prop_nil
    | rewrite lookup_prop_next by lit_neq
    | rewrite set_prop_next by lit_neq ].

Ltac js_step :=
  repeat progress
    (cbn [field get get_opt spread bind default from_option Datatypes.id]; props).

Context (P : Platform).
Hypothesis ISO_roundtrip :
  forall t, Z.abs t <= max_time -> Date_parse P (toISOString P t) = TimeValue t.
Hypothesis ISO_nonempty : forall t, toISOString P t <> [].

Lemma truthy_ISO t : truthy (Str (toISOString P t)) = true.
Proof. simpl. rewrite bool_decide_eq_false_2 by apply ISO_nonempty. reflexivity. Qed.

(** Reviving a written message gives its fields back, the timestamp as a
    [Date]. *)
Lemma revive_message_written (m : Message.t) :
  valid_message_dates m ->
  exists v, revive_message P (to_json P (message_value m)) = Normal v
            /\ message_reloaded v m.
Proof.
  unfold valid_message_dates, valid_date, message_reloaded.
  destruct m as [id content sender ts image]. cbn [Message.timestamp Message.id
    Message.content Message.sender Message.imageUrl].
  destruct ts as [|t]; [contradiction|]. intros Ht.
  unfold revive_message, message_value.
  cbn [Message.timestamp Message.id Message.content Message.sender Message.imageUrl].
  destruct image as [url|], sender; cbn [option_map sender_value app opt_prop];
    cbn [to_json]; js_step; cbn [new_Date]; rewrite ISO_roundtrip by exact Ht;
    (eexists; split; [reflexivity|]); js_step; repeat split; reflexivity.
Qed.

Lemma revive_messages_written (msgs : list Message.t) :
  Forall valid_message_dates msgs ->
  exists ms, mapM (revive_message P) (List.map (to_json P) (List.map message_value msgs))
             = Normal ms
             /\ Forall2 message_reloaded ms msgs.
Proof.
  induction 1 as [|m l Hm _ (ms & Hms & HR)].
  - exists []. split; [reflexivity | constructor].
  - destruct (revive_message_written m Hm) as (v & Hv & Hr).
    exists (v :: ms). cbn [List.map mapM]. rewrite Hv. cbn [bind]. rewrite Hms.
    split; [reflexivity | constructor; assumption].
Qed.

(** Reviving a written chatroom gives its fields back, the temporal ones as
    [Date]s. *)
Lemma revive_room_written (r : Chatroom.t) :
  valid_chatroom_dates r ->
  exists v, revive_room P (to_json P (chatroom_value r)) = Normal v
            /\ chatroom_reloaded v r.
Proof.
  unfold valid_chatroom_dates, chatroom_reloaded.
  destruct r as [id title msgs created last].
  cbn [Chatroom.id Chatroom.title Chatroom.messages Chatroom.createdAt
       Chatroom.lastMessage].
  intros (Hc & Hl & Hm).
  destruct created as [|t]; [contradiction|]. simpl in Hc.
  destruct (revive_messages_written msgs Hm) as (ms & Hms & HR).
  unfold revive_room, chatroom_value.
  cbn [Chatroom.id Chatroom.title Chatroom.messages Chatroom.createdAt
       Chatroom.lastMessage].
  destruct last as [[|t']|]; [contradiction| |]; cbn [option_map app opt_prop];
    cbn [to_json]; js_step; rewrite ?truthy_ISO; cbn [truthy call_map];
    rewrite Hms; js_step; cbn [truthy new_Date];
    rewrite ?ISO_roundtrip by assumption;
    (eexists; split; [reflexivity|]); js_step;
    (split; [reflexivity|]); (split; [reflexivity|]); (split; [reflexivity|]);
    (split; [reflexivity|]); exists ms; (split; [reflexivity | exact HR]).
Qed.

Lemma revive_rooms_written (rooms : list Chatroom.t) :
  Forall valid_chatroom_dates rooms ->
  exists vs, mapM (revive_room P) (List.map (to_json P) (List.map chatroom_value rooms))
             = Normal vs
             /\ Forall2 chatroom_reloaded vs rooms.
Proof.
  induction 1 as [|r l Hr _ (vs & Hvs & HR)].
  - exists []. split; [reflexivity | constructor].
  - destruct (revive_room_written r Hr) as (v & Hv & Hrel).
    exists (v :: vs). cbn [List.map mapM]. rewrite Hv. cbn [bind]. rewrite Hvs.
    split; [reflexivity | constructor; assumption].
Qed.

(** Reading back what [setItem] wrote, given that [JSON.parse] inverts
    [JSON.stringify] on it. *)
Lemma getItem_try_written (s : AppState) :
  Forall valid_chatroom_dates (chatrooms s) ->
  JSON_parse P (JSON_stringify P (storage_value s))
  = Normal (to_json P (storage_value s)) ->
  exists v, getItem_try P (JSON_stringify P (storage_value s)) = Normal v
            /\ chatrooms_reloaded v s.
Proof.
  intros Hvalid Hparse.
  destruct (revive_rooms_written (chatrooms s) Hvalid) as (vs & Hvs & HR).
  unfold getItem_try. rewrite Hparse.
  unfold storage_value, partialize, chatrooms_reloaded.
  destruct (user s) as [u|], (activeChatroomId s) as [a|], (theme s);
    cbn [user_value theme_value to_json]; js_step; cbn [truthy call_map];
    rewrite Hvs; js_step; cbn [assign bind]; props;
    (eexists; split; [reflexivity|]); js_step;
    exists vs; (split; [reflexivity | exact HR]).
Qed.

End PersistFacts.

(** C5, as it holds.  Let the chatrooms of the state hold valid dates (time
    values, not "Invalid Date") in [createdAt], [lastMessage] and the
    message timestamps, and let the platform do its part: [JSON.parse]
    gives back the tree that [JSON.stringify] wrote for the persisted value,
    that text is not empty, and parsing the ISO string of a time value gives
    that time value.  Then [getItem] after [setItem] returns a value whose
    chatrooms carry every field of the originals, the temporal ones as [Date]
    objects equal to the originals (an absent [lastMessage] as
    [undefined]). *)
Theorem persisted_dates_roundtrip
    (P : JS.Platform) (name : jsstring) (ls : Persist.Storage) (s : AppState) :
  Forall Persist.valid_chatroom_dates (chatrooms s) ->
  JS.JSON_parse P (JS.JSON_stringify P (Persist.storage_value s))
  = JS.Normal (JS.to_json P (Persist.storage_value s)) ->
  JS.JSON_stringify P (Persist.storage_value s) <> [] ->
  (forall t, Z.abs t <= max_time ->
             JS.Date_parse P (JS.toISOString P t) = TimeValue t) ->
  (forall t, JS.toISOString P t <> []) ->
  exists v,
    Persist.getItem P name (Persist.setItem P name (Persist.storage_value s) ls)
    = JS.Normal v
    /\ Persist.chatrooms_reloaded v s.
Proof.
  intros Hvalid Hparse Hne Hiso Hiso_ne.
  destruct (getItem_try_written P Hiso Hiso_ne s Hvalid Hparse) as (v & Hv & Hrel).
  exists v. split; [|exact Hrel].
  unfold Persist.getItem, Persist.setItem, Persist.localStorage_setItem.
  rewrite (proj2 (str_eqb_eq name name) eq_refl).
  destruct (JS.JSON_stringify P (Persist.storage_value s)) as [|c text] eqn:E;
    [contradiction|].
  rewrite Hv. reflexivity.
Qed.

Lemma decimal_Date_roundtrip (t : Z) :
  Z.abs t <= max_time -> decimal_Date_parse (Number_toString t) = TimeValue t.
Proof.
  intros Ht. unfold decimal_Date_parse, Number_toString.
  rewrite unlit_lit, NilZero.isi.
  - rewrite DecimalZ.of_to. apply Date_of_number_valid. exact Ht.
  - destruct t; simpl; [discriminate | |discriminate].
    intros E. injection E as E. exact (DecimalPos.Unsigned.to_uint_nonnil _ E).
  - destruct t; simpl; [discriminate | discriminate |].
    intros E. injection E as E. exact (DecimalPos.Unsigned.to_uint_nonnil _ E).
Qed.

Lemma decimal_nonempty (t : Z) : Number_toString t <> [].
Proof.
  unfold Number_toString. intros E.
  apply (f_equal unlit) in E. rewrite unlit_lit in E.
  change (unlit []) with EmptyString in E.
  destruct t; simpl in E; try discriminate.
  - assert (H : NilEmpty.string_of_uint (Pos.to_uint p) = EmptyString)
      by (destruct (Pos.to_uint p); simpl in *; congruence).
    pose proof (NilEmpty.usu (Pos.to_uint p)) as Hu. rewrite H in Hu.
    simpl in Hu. injection Hu as Hu.
    exact (DecimalPos.Unsigned.to_uint_nonnil p (eq_sym Hu)).
Qed.

Lemma persisted_dates_roundtrip_witness :
  exists v,
    Persist.getItem (platform_for sample_state) (lit "gemini-app-storage")
      (Persist.setItem (platform_for sample_state) (lit "gemini-app-storage")
         (Persist.storage_value sample_state) (fun _ => None))
    = JS.Normal v
    /\ Persist.chatrooms_reloaded v sample_state.
Proof.
  apply persisted_dates_roundtrip.
  - repeat constructor; vm_compute; discriminate.
  - reflexivity.
  - discriminate.
  - exact decimal_Date_roundtrip.
  - exact decimal_nonempty.
Defined.

(** C5, as stated, fails for a [Date] that holds no time value: [toJSON]
    writes [null] for it, and [new Date(null)] is the epoch, so the
    chatroom is reloaded with 1 January 1970 as its creation date. *)
Lemma invalid_date_not_restored :
  ~ (forall (P : JS.Platform) (name : jsstring) (ls : Persist.Storage) (s : AppState),
       JS.JSON_parse P (JS.JSON_stringify P (Persist.storage_value s))
       = JS.Normal (JS.to_json P (Persist.storage_value s)) ->
       JS.JSON_stringify P (Persist.storage_value s) <> [] ->
       (forall t, Z.abs t <= max_time ->
                  JS.Date_parse P (JS.toISOString P t) = TimeValue t) ->
       (forall t, JS.toISOString P t <> []) ->
       exists v,
         Persist.getItem P name (Persist.setItem P name (Persist.storage_value s) ls)
         = JS.Normal v
         /\ Persist.chatrooms_reloaded v s).
Proof.
  intros H.
  destruct (H (platform_for invalid_date_state) (lit "gemini-app-storage")
              (fun _ => None) invalid_date_state)
    as (v & Hv & rooms & Hrooms & HR).
  - reflexivity.
  - discriminate.
  - exact decimal_Date_roundtrip.
  - exact decimal_nonempty.
  - vm_compute in Hv. injection Hv as <-.
    vm_compute in Hrooms. injection Hrooms as <-.
    inversion HR as [|room r rooms' rs' (_ & _ & Hcreated & _) _]; subst.
    vm_compute in Hcreated. discriminate Hcreated.
Qed.

(** C6. [getItem] always completes normally, whatever is stored and
    whatever the platform's parser does with it; it returns [null], which
    the middleware takes for "nothing persisted", when nothing is stored
    under the name, when the stored text is empty, and when [JSON.parse]
    raises on the stored text. *)
Theorem getItem_fails_open (P : JS.Platform) (name : jsstring) (ls : Persist.Storage) :
  (exists v, Persist.getItem P name ls = JS.Normal v)
  /\ (ls name = None -> Persist.getItem P name ls = JS.Normal JS.Null)
  /\ (forall item e,
        ls name = Some item -> JS.JSON_parse P item = JS.Throw e ->
        Persist.getItem P name ls = JS.Normal JS.Null).
Proof.
  split; [|split].
  - unfold Persist.getItem. destruct (ls name) as [[|c item]|]; eauto.
    destruct (Persist.getItem_try P (c :: item)); simpl; eauto.
  - intros E. unfold Persist.getItem. rewrite E. reflexivity.
  - intros item e E Hparse. unfold Persist.getItem. rewrite E.
    destruct item as [|c item]; [reflexivity|].
    unfold Persist.getItem_try. rewrite Hparse. reflexivity.
Qed.

Lemma getItem_fails_open_witness :
  Persist.getItem (platform_for sample_state) (lit "gemini-app-storage")
    (fun _ => Some (lit "{oops")) = JS.Normal JS.Null
  /\ Persist.getItem (platform_for sample_state) (lit "gemini-app-storage")
       (fun _ => None) = JS.Normal JS.Null.
Proof.
  destruct (getItem_fails_open (platform_for sample_state) (lit "gemini-app-storage")
              (fun _ => Some (lit "{oops"))) as (_ & _ & Hbad).
  destruct (getItem_fails_open (platform_for sample_state) (lit "gemini-app-storage")
              (fun _ => None)) as (_ & Hnone & _).
  split; [exact (Hbad (lit "{oops") JS.SyntaxError eq_refl eq_refl) | exact (Hnone eq_refl)].
Defined.

(** * Further properties of the store *)

Section StoreMore.
Import Store.

Lemma addMessage_rooms_unknown c msg (l : list Chatroom.t) :
  c ∉ List.map Chatroom.id l -> List.map (addMessage_room c msg) l = l.
Proof.
  induction l as [|r l IH]; [reflexivity|]. simpl. intros H.
  rewrite not_elem_of_cons in H. destruct H as [Hr Hl].
  rewrite addMessage_room_other by congruence. rewrite IH by exact Hl. reflexivity.
Qed.

Lemma message_ids_of_cons r l :
  message_ids_of (r :: l) = List.map Message.id (Chatroom.messages r) ++ message_ids_of l.
Proof. reflexivity. Qed.

Lemma message_ids_of_filter (f : Chatroom.t -> bool) (l : list Chatroom.t) :
  message_ids_of (List.filter f l) `sublist_of` message_ids_of l.
Proof.
  induction l as [|r l IH]; [constructor|]. simpl.
  destruct (f r).
  - rewrite !message_ids_of_cons. apply sublist_app; [reflexivity | exact IH].
  - rewrite message_ids_of_cons. apply sublist_inserts_l. exact IH.
Qed.

Lemma message_ids_of_addMessage_elem c msg (l : list Chatroom.t) x :
  x ∈ message_ids_of (List.map (addMessage_room c msg) l) ->
  x ∈ message_ids_of l \/ x = Message.id msg.
Proof.
  induction l as [|r l IH]; [intros H; inversion H|].
  cbn [List.map]. rewrite !message_ids_of_cons, !elem_of_app. intros [H|H].
  - unfold addMessage_room in H. destruct (str_eqb _ _); simpl in H.
    + rewrite List.map_app in H. apply elem_of_app in H as [H|H]; [tauto|].
      apply list_elem_of_singleton in H. tauto.
    + tauto.
  - destruct (IH H); tauto.
Qed.

Lemma message_ids_of_addMessage_NoDup c msg (l : list Chatroom.t) :
  NoDup (List.map Chatroom.id l) ->
  Message.id msg ∉ message_ids_of l ->
  NoDup (message_ids_of l) ->
  NoDup (message_ids_of (List.map (addMessage_room c msg) l)).
Proof.
  induction l as [|r l IH]; [intros; constructor|].
  cbn [List.map]. rewrite !message_ids_of_cons.
  intros Hids Hfresh Hnd.
  apply NoDup_cons in Hids as [Hr Hids].
  apply not_elem_of_app in Hfresh as [Hfr Hfl].
  apply NoDup_app in Hnd as (Hn1 & Hdisj & Hn2).
  destruct (decide (Chatroom.id r = c)) as [E|E].
  - rewrite addMessage_rooms_unknown by (rewrite <- E; exact Hr).
    unfold addMessage_room. rewrite (proj2 (str_eqb_eq _ _) E). simpl.
    rewrite List.map_app. simpl. apply NoDup_app. split; [|split].
    + apply NoDup_app. split; [exact Hn1|]. split; [|apply NoDup_singleton].
      intros x Hx Hx'. apply list_elem_of_singleton in Hx'. subst x. contradiction.
    + intros x Hx. apply elem_of_app in Hx as [Hx|Hx]; [apply Hdisj; exact Hx|].
      apply list_elem_of_singleton in Hx. subst x. exact Hfl.
    + exact Hn2.
  - rewrite addMessage_room_other by exact E. apply NoDup_app. split; [exact Hn1|].
    split; [|apply IH; assumption].
    intros x Hx Hx'. apply message_ids_of_addMessage_elem in Hx' as [Hx'|Hx'].
    + exact (Hdisj x Hx Hx').
    + subst x. contradiction.
Qed.

Lemma fresh_step_unique a s :
  NoDup (ids s) /\ NoDup (message_ids s) -> fresh_uuids a s ->
  NoDup (ids (step a s)) /\ NoDup (message_ids (step a s)).
Proof.
  intros [Hi Hm] Hfresh. destruct a; simpl in *; try (split; assumption).
  - (* createChatroom *)
    split; [|exact Hm]. unfold ids. simpl. apply NoDup_cons. split; assumption.
  - (* deleteChatroom *)
    unfold deleteChatroom. destruct (existsb _ _); simpl; [|split; assumption].
    unfold ids, message_ids. simpl. split.
    + rewrite remaining_filter. eapply sublist_NoDup; [exact Hi|].
      apply fmap_sublist, sublist_filter.
    + eapply sublist_NoDup; [exact Hm | apply message_ids_of_filter].
  - (* addMessage *)
    split.
    + rewrite addMessage_ids. exact Hi.
    + unfold message_ids, addMessage. simpl.
      apply message_ids_of_addMessage_NoDup; assumption.
Qed.

Lemma created_order_map (f : Chatroom.t -> Chatroom.t) (l : list Chatroom.t) :
  (forall r, Chatroom.createdAt (f r) = Chatroom.createdAt r) ->
  StronglySorted created_no_earlier l ->
  StronglySorted created_no_earlier (List.map f l).
Proof.
  intros Hf H. apply (StronglySorted_fmap f created_no_earlier created_no_earlier);
    [|exact H].
  intros x y. unfold created_no_earlier. rewrite !Hf. tauto.
Qed.

Lemma created_order_filter (f : Chatroom.t -> bool) (l : list Chatroom.t) :
  StronglySorted created_no_earlier l ->
  StronglySorted created_no_earlier (List.filter f l).
Proof.
  induction 1 as [|r l Hs IH Hall]; [constructor|]. simpl.
  destruct (f r); [|exact IH]. constructor; [exact IH|].
  apply list.Forall_forall. intros x Hx. apply list_elem_of_In in Hx.
  apply filter_In in Hx as [Hx _]. rewrite list.Forall_forall in Hall.
  apply Hall. apply list_elem_of_In. exact Hx.
Qed.

Lemma addMessage_room_createdAt c msg r :
  Chatroom.createdAt (addMessage_room c msg r) = Chatroom.createdAt r.
Proof. unfold addMessage_room. destruct (str_eqb _ _); reflexivity. Qed.

Lemma find_active_None (a : option jsstring) (l : list Chatroom.t) :
  List.find (fun room => bool_decide (Some (Chatroom.id room) = a)) l = None
  <-> match a with
      | None => True
      | Some x => x ∉ List.map Chatroom.id l
      end.
Proof.
  induction l as [|r l IH]; simpl.
  - destruct a; [|tauto]. split; [intros _ H; inversion H | reflexivity].
  - destruct (bool_decide_reflect (Some (Chatroom.id r) = a)) as [E|E].
    + subst a. split; [discriminate|]. intros H. exfalso. apply H. left.
    + rewrite IH. destruct a as [x|]; [|tauto].
      rewrite not_elem_of_cons. split; [|tauto].
      intros H. split; [congruence | exact H].
Qed.

End StoreMore.

(** X1. When every [crypto.randomUUID()] returns an id not in use, the
    chatrooms of every reachable state have pairwise different ids, and so
    have all the messages of all chatrooms. *)
Theorem reachable_ids_unique (s : AppState) :
  Store.reachable fresh_uuids s ->
  NoDup (Store.ids s) /\ NoDup (message_ids s).
Proof.
  induction 1 as [|a s Hr IH Hfresh].
  - split; constructor.
  - apply fresh_step_unique; assumption.
Qed.

Lemma reachable_ids_unique_witness :
  let hello := Message.mkData (lit "Hello") Message.user (TimeValue 5) None in
  let s := Store.run [Store.CreateChatroom [1%N] (TimeValue 1) None;
                      Store.AddMessage [7%N] [1%N] hello;
                      Store.CreateChatroom [2%N] (TimeValue 2) None;
                      Store.AddMessage [8%N] [1%N] hello] Store.initial in
  NoDup (Store.ids s) /\ NoDup (message_ids s).
Proof.
  intros hello s. apply reachable_ids_unique.
  subst s. unfold Store.run. cbn [fold_left].
  apply Store.reach_step;
    [|vm_compute; intros H; apply list_elem_of_singleton in H; discriminate].
  apply Store.reach_step;
    [|vm_compute; intros H; apply list_elem_of_singleton in H; discriminate].
  apply Store.reach_step; [|vm_compute; intros H; inversion H].
  apply Store.reach_step; [|vm_compute; intros H; inversion H].
  apply Store.reach_initial.
Defined.

(** X2. [getActiveChatroom] returns [null] exactly when the active id is
    [null] or names no chatroom; what it returns otherwise is a chatroom of
    the collection whose id is the active id, and when ids are unique it is
    the only one. *)
Theorem getActiveChatroom_spec (s : AppState) :
  (Store.getActiveChatroom s = None
   <-> match activeChatroomId s with
       | None => True
       | Some a => a ∉ Store.ids s
       end)
  /\ (forall room, Store.getActiveChatroom s = Some room ->
        activeChatroomId s = Some (Chatroom.id room)
        /\ room ∈ chatrooms s
        /\ (NoDup (Store.ids s) ->
            forall other, other ∈ chatrooms s ->
                          Chatroom.id other = Chatroom.id room -> other = room)).
Proof.
  split; [apply find_active_None|].
  intros room H. unfold Store.getActiveChatroom in H.
  apply find_some in H as [Hin Hid].
  apply bool_decide_eq_true in Hid. apply list_elem_of_In in Hin.
  split; [congruence|]. split; [exact Hin|].
  intros Hnd other Ho Heq. unfold Store.ids in Hnd.
  apply list_elem_of_lookup in Hin as [i Hi]. apply list_elem_of_lookup in Ho as [j Hj].
  assert (i = j).
  { eapply NoDup_lookup; [exact Hnd| |]; rewrite list_lookup_fmap.
    - rewrite Hi. reflexivity.
    - rewrite Hj. simpl. congruence. }
  subst j. congruence.
Qed.

Lemma getActiveChatroom_spec_witness :
  let s := Store.setActiveChatroom (lit "gone")
             (snd (Store.createChatroom (lit "id-1") (TimeValue 0) None Store.initial)) in
  Store.getActiveChatroom s = None.
Proof.
  intros s. apply (proj1 (getActiveChatroom_spec s)).
  vm_compute. intros H. apply list_elem_of_singleton in H. discriminate.
Defined.

(** X3. Right after [createChatroom] the active chatroom is the one it
    returned; right after the active chatroom was deleted, the active
    chatroom is the first of the remaining ones, or there is none. *)
Theorem active_chatroom_after_create_and_delete
    (s : AppState) (uuid : jsstring) (now : Date) (title : option jsstring) (d : jsstring) :
  Store.getActiveChatroom (snd (Store.createChatroom uuid now title s))
  = Some (fst (Store.createChatroom uuid now title s))
  /\ (d ∈ Store.ids s -> activeChatroomId s = Some d ->
      Store.getActiveChatroom (Store.deleteChatroom d s)
      = head (chatrooms (Store.deleteChatroom d s))).
Proof.
  split.
  - unfold Store.getActiveChatroom. simpl.
    rewrite bool_decide_eq_true_2 by reflexivity. reflexivity.
  - intros Hin Hact. unfold Store.deleteChatroom.
    apply chatroomExists_ids in Hin. rewrite Hin. simpl.
    rewrite bool_decide_eq_true_2 by exact Hact.
    unfold Store.getActiveChatroom. simpl.
    destruct (List.filter _ (chatrooms s)) as [|first rest]; [reflexivity|].
    simpl. rewrite bool_decide_eq_true_2 by reflexivity. reflexivity.
Qed.

Lemma active_chatroom_after_create_and_delete_witness :
  let s := snd (Store.createChatroom [2%N] (TimeValue 2) None
                  (snd (Store.createChatroom [1%N] (TimeValue 1) None Store.initial))) in
  option_map Chatroom.id (Store.getActiveChatroom (Store.deleteChatroom [2%N] s))
  = Some [1%N].
Proof.
  intros s.
  destruct (active_chatroom_after_create_and_delete s [9%N] (TimeValue 9) None [2%N])
    as [_ H].
  rewrite H; [reflexivity | vm_compute; constructor | reflexivity].
Defined.

(** X4. Deleting an existing chatroom that is not the active one keeps the
    active id and the active chatroom, clears [isTyping], removes exactly the
    chatrooms with that id and changes nothing else; with unique ids the
    collection gets shorter by one. *)
Theorem deleteChatroom_not_active (s : AppState) (d : jsstring) :
  d ∈ Store.ids s ->
  activeChatroomId s <> Some d ->
  let s' := Store.deleteChatroom d s in
  activeChatroomId s' = activeChatroomId s
  /\ Store.getActiveChatroom s' = Store.getActiveChatroom s
  /\ isTyping s' = false
  /\ chatrooms s' = filter (fun room => Chatroom.id room <> d) (chatrooms s)
  /\ (user s', isAuthenticating s', otpSent s', searchQuery s', isSidebarOpen s', theme s')
     = (user s, isAuthenticating s, otpSent s, searchQuery s, isSidebarOpen s, theme s)
  /\ (NoDup (Store.ids s) -> S (length (chatrooms s')) = length (chatrooms s)).
Proof.
  intros Hin Hact s'. subst s'. unfold Store.deleteChatroom.
  apply chatroomExists_ids in Hin. rewrite Hin. simpl.
  rewrite bool_decide_eq_false_2 by exact Hact.
  split; [reflexivity|]. split; [|split; [reflexivity|]].
  - unfold Store.getActiveChatroom. simpl. clear Hin.
    induction (chatrooms s) as [|r l IH]; [reflexivity|]. simpl.
    destruct (str_eqb (Chatroom.id r) d) eqn:E; simpl.
    + apply str_eqb_eq in E.
      rewrite bool_decide_eq_false_2 by (intros E'; apply Hact; congruence).
      exact IH.
    + destruct (bool_decide _); [reflexivity | exact IH].
  - split; [apply remaining_filter|]. split; [reflexivity|].
    intros Hnd. apply chatroomExists_ids in Hin. unfold Store.ids in Hnd, Hin.
    induction (chatrooms s) as [|r l IH]; [inversion Hin|].
    simpl in *. apply NoDup_cons in Hnd as [Hr Hnd].
    destruct (str_eqb (Chatroom.id r) d) eqn:E; simpl.
    + apply str_eqb_eq in E. f_equal.
      rewrite forallb_filter_id; [reflexivity|].
      apply forallb_forall. intros x Hx. apply negb_true_iff, str_eqb_neq.
      intros E'. apply Hr. rewrite E, <- E'. apply list_elem_of_fmap.
      exists x. split; [reflexivity | apply list_elem_of_In; exact Hx].
    + apply str_eqb_neq in E. f_equal. apply IH; [|exact Hnd].
      apply elem_of_cons in Hin as [Hin|Hin]; [congruence | exact Hin].
Qed.

Lemma deleteChatroom_not_active_witness :
  let s := snd (Store.createChatroom [2%N] (TimeValue 2) None
                  (snd (Store.createChatroom [1%N] (TimeValue 1) None
                          (Store.setTyping true Store.initial)))) in
  activeChatroomId (Store.deleteChatroom [1%N] s) = Some [2%N]
  /\ isTyping (Store.deleteChatroom [1%N] s) = false
  /\ length (chatrooms (Store.deleteChatroom [1%N] s)) = 1%nat.
Proof.
  intros s.
  destruct (deleteChatroom_not_active s [1%N]) as (H1 & _ & H3 & _ & _ & H6).
  - vm_compute. do 2 constructor.
  - discriminate.
  - split; [exact H1|]. split; [exact H3|].
    reflexivity.
Defined.

(** X5. [deleteChatroom] is idempotent, and creating a chatroom under a new
    id and deleting it at once gives back the collection but not the
    selection: the first chatroom of the collection becomes the active one,
    whichever was active before (none when the collection is empty), and
    [isTyping] is cleared. *)
Theorem deleteChatroom_idempotent_and_undo_create
    (s : AppState) (d uuid : jsstring) (now : Date) (title : option jsstring) :
  Store.deleteChatroom d (Store.deleteChatroom d s) = Store.deleteChatroom d s
  /\ (uuid ∉ Store.ids s ->
      let s' := Store.deleteChatroom uuid (snd (Store.createChatroom uuid now title s)) in
      chatrooms s' = chatrooms s
      /\ activeChatroomId s' = (Chatroom.id <$> head (chatrooms s))
      /\ isTyping s' = false).
Proof.
  split.
  - unfold Store.deleteChatroom at 1.
    destruct (existsb _ (chatrooms (Store.deleteChatroom d s))) eqn:E; [|reflexivity].
    exfalso. apply chatroomExists_ids in E.
    unfold Store.deleteChatroom in E.
    destruct (existsb _ (chatrooms s)) eqn:E'; simpl in E.
    + rewrite remaining_filter in E. exact (ids_filter_other d _ E).
    + apply not_true_iff_false in E'. apply E'. apply chatroomExists_ids. exact E.
  - intros Hfresh s'. subst s'. unfold Store.deleteChatroom. simpl.
    rewrite (proj2 (str_eqb_eq uuid uuid) eq_refl). simpl.
    rewrite bool_decide_eq_true_2 by reflexivity.
    assert (Hkeep : List.filter (fun room => negb (str_eqb (Chatroom.id room) uuid))
                      (chatrooms s) = chatrooms s).
    { apply forallb_filter_id, forallb_forall. intros x Hx.
      apply negb_true_iff, str_eqb_neq. intros E. apply Hfresh.
      apply list_elem_of_fmap. exists x. split; [congruence | apply list_elem_of_In; exact Hx]. }
    rewrite Hkeep. split; [reflexivity|]. split; [|reflexivity].
    destruct (chatrooms s); reflexivity.
Qed.

Lemma deleteChatroom_idempotent_and_undo_create_witness :
  let s := Store.setActiveChatroom [1%N]
             (snd (Store.createChatroom [2%N] (TimeValue 2) None
                     (snd (Store.createChatroom [1%N] (TimeValue 1) None Store.initial)))) in
  activeChatroomId s = Some [1%N]
  /\ activeChatroomId
       (Store.deleteChatroom [3%N] (snd (Store.createChatroom [3%N] (TimeValue 3) None s)))
     = Some [2%N].
Proof.
  intros s. split; [reflexivity|].
  destruct (deleteChatroom_idempotent_and_undo_create s [3%N] [3%N] (TimeValue 3) None)
    as [_ H].
  destruct H as (_ & H & _); [|exact H].
  vm_compute. intros H. inversion H as [|? ? ? H']; subst.
  apply list_elem_of_singleton in H'. discriminate.
Defined.

(** X6. [addMessage] keeps the number, the order and the ids of the
    chatrooms and every other field of the state.  A chatroom with another
    id is left as it is; a chatroom with the id gets the message, under the
    given uuid, as its last message and the message's timestamp as
    [lastMessage] (whether or not it is later than the previous one), and
    keeps its earlier messages and its creation date. *)
Theorem addMessage_frame
    (s : AppState) (uuid c : jsstring) (m : Message.data) :
  let s' := Store.addMessage uuid c m s in
  length (chatrooms s') = length (chatrooms s)
  /\ Store.ids s' = Store.ids s
  /\ (user s', isAuthenticating s', otpSent s', activeChatroomId s', isTyping s',
      searchQuery s', isSidebarOpen s', theme s')
     = (user s, isAuthenticating s, otpSent s, activeChatroomId s, isTyping s,
        searchQuery s, isSidebarOpen s, theme s)
  /\ forall (i : nat) room, chatrooms s !! i = Some room ->
       exists room', chatrooms s' !! i = Some room'
         /\ (Chatroom.id room <> c -> room' = room)
         /\ (Chatroom.id room = c ->
             Chatroom.messages room'
             = Chatroom.messages room ++ [Message.with_id m uuid]
             /\ Message.id (Message.with_id m uuid) = uuid
             /\ Chatroom.lastMessage room' = Some (Message.d_timestamp m)
             /\ Chatroom.createdAt room' = Chatroom.createdAt room
             /\ Chatroom.id room' = Chatroom.id room).
Proof.
  intros s'. subst s'.
  split; [unfold Store.addMessage; simpl; apply length_map|].
  split; [apply addMessage_ids|]. split; [reflexivity|].
  intros i room Hi. eexists. rewrite addMessage_lookup, Hi. split; [reflexivity|].
  split.
  - apply addMessage_room_other.
  - intros E. unfold Store.addMessage_room.
    rewrite (proj2 (str_eqb_eq _ _) E). simpl. repeat split; reflexivity.
Qed.

Lemma addMessage_frame_witness :
  let s := snd (Store.createChatroom [1%N] (TimeValue 1) None Store.initial) in
  let late := Message.mkData (lit "late") Message.user (TimeValue 900) None in
  let early := Message.mkData (lit "early") Message.ai (TimeValue 100) None in
  let s2 := Store.addMessage [8%N] [1%N] early (Store.addMessage [7%N] [1%N] late s) in
  (Chatroom.lastMessage <$> head (chatrooms s2)) = Some (Some (TimeValue 100)).
Proof.
  intros s late early s2.
  destruct (addMessage_frame (Store.addMessage [7%N] [1%N] late s) [8%N] [1%N] early)
    as (_ & _ & _ & H).
  destruct (H 0%nat _ eq_refl) as (room' & Hroom' & _ & Hsame).
  destruct (Hsame eq_refl) as (_ & _ & Hlast & _).
  subst s2. rewrite head_lookup, Hroom'. simpl. rewrite Hlast. reflexivity.
Defined.

(** X7. When the clock does not run backwards, the collection of every
    reachable state is ordered by creation date, latest first; so its head,
    which [deleteChatroom] selects, was created no earlier than any other
    chatroom. *)
Theorem chatrooms_most_recent_first (s : AppState) :
  Store.reachable clock_moves_forward s ->
  StronglySorted created_no_earlier (chatrooms s)
  /\ forall first rest, chatrooms s = first :: rest ->
       Forall (fun room => time_le (Chatroom.createdAt room) (Chatroom.createdAt first)) rest.
Proof.
  intros H.
  assert (Hs : StronglySorted created_no_earlier (chatrooms s)).
  { induction H as [|a s Hr IH Hclock]; [constructor|].
    destruct a; simpl in *; try exact IH.
    - constructor; [exact IH | exact Hclock].
    - unfold Store.deleteChatroom. destruct (existsb _ _); simpl; [|exact IH].
      apply created_order_filter. exact IH.
    - apply created_order_map; [apply addMessage_room_createdAt | exact IH]. }
  split; [exact Hs|]. intros first rest E. rewrite E in Hs.
  apply StronglySorted_inv in Hs as [_ Hall]. exact Hall.
Qed.

Lemma chatrooms_most_recent_first_witness :
  let s := Store.run [Store.CreateChatroom [1%N] (TimeValue 10) None;
                      Store.CreateChatroom [2%N] (TimeValue 20) None;
                      Store.CreateChatroom [3%N] (TimeValue 20) None;
                      Store.DeleteChatroom [3%N]] Store.initial in
  StronglySorted created_no_earlier (chatrooms s).
Proof.
  intros s. apply chatrooms_most_recent_first.
  subst s. unfold Store.run. cbn [fold_left].
  apply Store.reach_step; [|exact I].
  apply Store.reach_step; [|vm_compute; repeat constructor; discriminate].
  apply Store.reach_step; [|vm_compute; repeat constructor; discriminate].
  apply Store.reach_step; [|vm_compute; constructor].
  apply Store.reach_initial.
Defined.

(** X8. No action edits or removes a message of a chatroom that stays: for
    every chatroom of the state and every action other than the deletion of
    that chatroom's id, the next state holds a chatroom with the same id and
    creation date whose messages begin with the chatroom's messages. *)
Theorem messages_append_only (a : Store.Action) (s : AppState) (room : Chatroom.t) :
  room ∈ chatrooms s ->
  a <> Store.DeleteChatroom (Chatroom.id room) ->
  exists room',
    room' ∈ chatrooms (Store.step a s)
    /\ Chatroom.id room' = Chatroom.id room
    /\ Chatroom.createdAt room' = Chatroom.createdAt room
    /\ Chatroom.messages room `prefix_of` Chatroom.messages room'.
Proof.
  intros Hin Ha.
  assert (Hsame : forall s', chatrooms s' = chatrooms s ->
            exists room', room' ∈ chatrooms s'
              /\ Chatroom.id room' = Chatroom.id room
              /\ Chatroom.createdAt room' = Chatroom.createdAt room
              /\ Chatroom.messages room `prefix_of` Chatroom.messages room').
  { intros s' E. exists room. rewrite E. repeat split; [exact Hin | reflexivity]. }
  destruct a; simpl; try (apply Hsame; reflexivity).
  - exists room. split; [simpl; right; exact Hin|]. repeat split; reflexivity.
  - unfold Store.deleteChatroom. destruct (existsb _ _); simpl; [|apply Hsame; reflexivity].
    exists room. split; [|repeat split; reflexivity].
    rewrite remaining_filter. apply list_elem_of_filter. split; [|exact Hin].
    intros E. apply Ha. rewrite E. reflexivity.
  - exists (Store.addMessage_room chatroomId (Message.with_id messageData uuid) room).
    split; [apply list_elem_of_fmap; exists room; split; [reflexivity | exact Hin]|].
    split; [apply addMessage_room_id|]. split; [apply addMessage_room_createdAt|].
    unfold Store.addMessage_room. destruct (str_eqb _ _); simpl; [|reflexivity].
    apply prefix_app_r. reflexivity.
Qed.

Lemma messages_append_only_witness :
  let hello := Message.mkData (lit "Hello") Message.user (TimeValue 5) None in
  let s := Store.addMessage [7%N] [1%N] hello
             (snd (Store.createChatroom [1%N] (TimeValue 1) None Store.initial)) in
  exists room',
    room' ∈ chatrooms (Store.step (Store.AddMessage [8%N] [1%N] hello) s)
    /\ [Message.with_id hello [7%N]] `prefix_of` Chatroom.messages room'.
Proof.
  intros hello s.
  destruct (messages_append_only (Store.AddMessage [8%N] [1%N] hello) s
              (Chatroom.mk [1%N] (lit "Hello") [Message.with_id hello [7%N]]
                 (TimeValue 1) (Some (TimeValue 5))))
    as (room' & Hin & _ & _ & Hpre).
  - vm_compute. constructor.
  - discriminate.
  - exists room'. split; [exact Hin | exact Hpre].
Defined.

(** * Properties of the filtered list *)

Section FilterFacts.
Import StoreQueries.

Lemma starts_with_spec (needle s : jsstring) :
  starts_with needle s = true <-> exists post, s = needle ++ post.
Proof.
  unfold starts_with. rewrite str_eqb_eq. split.
  - intros H. exists (drop (length needle) s).
    rewrite <- H at 1. symmetry. apply take_drop.
  - intros [post ->]. apply take_app_length.
Qed.

Lemma includes_spec (s needle : jsstring) :
  includes s needle = true <-> exists pre post, s = pre ++ needle ++ post.
Proof.
  induction s as [|c s IH]; cbn [includes]; rewrite orb_true_iff, starts_with_spec.
  - split.
    + intros [[post H]|H]; [exists [], post; exact H | discriminate].
    + intros (pre & post & H). left. destruct pre; [exists post; exact H | discriminate].
  - rewrite IH. split.
    + intros [[post H]|(pre & post & H)].
      * exists [], post. exact H.
      * exists (c :: pre), post. rewrite H. reflexivity.
    + intros (pre & post & H). destruct pre as [|c' pre].
      * left. exists post. exact H.
      * right. exists pre, post. simpl in H. congruence.
Qed.

Lemma filter_narrower {A} (f g : A -> bool) (l : list A) :
  (forall x, f x = true -> g x = true) ->
  List.filter f l `sublist_of` List.filter g l.
Proof.
  intros H. induction l as [|x l IH]; [constructor|]. simpl.
  destruct (f x) eqn:E.
  - rewrite (H x E). constructor. exact IH.
  - destruct (g x); [constructor|]; exact IH.
Qed.

Lemma filter_sublist_of {A} (f : A -> bool) (l : list A) :
  List.filter f l `sublist_of` l.
Proof.
  induction l as [|x l IH]; [constructor|]. simpl.
  destruct (f x); constructor; exact IH.
Qed.

End FilterFacts.

(** X9. With an empty query [getFilteredChatrooms] returns the whole
    collection.  In every case it returns chatrooms of the collection in the
    collection's order, and with a non-empty query exactly those whose
    lower-cased title contains the lower-cased query as a contiguous
    run. *)
Theorem getFilteredChatrooms_spec (toLowerCase : jsstring -> jsstring) (s : AppState) :
  (searchQuery s = [] -> StoreQueries.getFilteredChatrooms toLowerCase s = chatrooms s)
  /\ StoreQueries.getFilteredChatrooms toLowerCase s `sublist_of` chatrooms s
  /\ (searchQuery s <> [] ->
      forall room,
        room ∈ StoreQueries.getFilteredChatrooms toLowerCase s
        <-> room ∈ chatrooms s
            /\ exists pre post,
                 toLowerCase (Chatroom.title room)
                 = pre ++ toLowerCase (searchQuery s) ++ post).
Proof.
  unfold StoreQueries.getFilteredChatrooms.
  split; [intros ->; reflexivity|]. split.
  - destruct (searchQuery s); [reflexivity | apply filter_sublist_of].
  - intros Hq room. destruct (searchQuery s) as [|c q] eqn:E; [contradiction|].
    rewrite list_elem_of_In, filter_In, includes_spec, <- list_elem_of_In. reflexivity.
Qed.

Lemma getFilteredChatrooms_spec_witness :
  let s := Store.setSearchQuery (lit "PLAN")
             (snd (Store.createChatroom [2%N] (TimeValue 2) (Some (lit "Groceries"))
                     (snd (Store.createChatroom [1%N] (TimeValue 1)
                             (Some (lit "Trip plan")) Store.initial)))) in
  Chatroom.mk [1%N] (lit "Trip plan") [] (TimeValue 1) None
  ∈ StoreQueries.getFilteredChatrooms ascii_lower s.
Proof.
  intros s.
  apply (proj2 (proj2 (getFilteredChatrooms_spec ascii_lower s))); [discriminate|].
  split; [vm_compute; do 2 constructor|].
  exists (lit "trip "), []. reflexivity.
Defined.

(** X10. The search ignores the case of the query: two non-empty queries
    with the same lower-case form list the same chatrooms.  A query whose
    lower-case form contains that of another lists no chatroom the other
    does not list. *)
Theorem getFilteredChatrooms_case_and_narrowing
    (toLowerCase : jsstring -> jsstring) (s : AppState) (q q' : jsstring) :
  q <> [] -> q' <> [] ->
  (toLowerCase q = toLowerCase q' ->
   StoreQueries.getFilteredChatrooms toLowerCase (Store.setSearchQuery q s)
   = StoreQueries.getFilteredChatrooms toLowerCase (Store.setSearchQuery q' s))
  /\ ((exists pre post, toLowerCase q' = pre ++ toLowerCase q ++ post) ->
      StoreQueries.getFilteredChatrooms toLowerCase (Store.setSearchQuery q' s)
      `sublist_of`
      StoreQueries.getFilteredChatrooms toLowerCase (Store.setSearchQuery q s)).
Proof.
  intros Hq Hq'. unfold StoreQueries.getFilteredChatrooms. simpl.
  destruct q as [|c q]; [contradiction|]. destruct q' as [|c' q']; [contradiction|].
  split.
  - intros E. rewrite E. reflexivity.
  - intros (pre & post & E). apply filter_narrower. intros room Hroom.
    apply includes_spec in Hroom as (a & b & Hroom). apply includes_spec.
    exists (a ++ pre), (post ++ b). rewrite Hroom, E, <- !app_assoc. reflexivity.
Qed.

Lemma getFilteredChatrooms_case_and_narrowing_witness :
  let s := snd (Store.createChatroom [2%N] (TimeValue 2) (Some (lit "Groceries"))
                  (snd (Store.createChatroom [1%N] (TimeValue 1)
                          (Some (lit "Trip plan")) Store.initial))) in
  StoreQueries.getFilteredChatrooms ascii_lower (Store.setSearchQuery (lit "TRIP") s)
  = StoreQueries.getFilteredChatrooms ascii_lower (Store.setSearchQuery (lit "trip") s).
Proof.
  intros s.
  apply (getFilteredChatrooms_case_and_narrowing ascii_lower s (lit "TRIP") (lit "trip"));
    [discriminate | discriminate | reflexivity].
Defined.

(** * Properties of the sidebar *)

(** X11. For a valid date in the past, [formatDate] counts whole periods of
    24 hours since that date, not calendar days: "Today" below 24 hours,
    "Yesterday" from 24 to below 48 hours, "N days ago" with N from 2 to 6
    up to below seven days, and the locale's date from seven days on. *)
Theorem formatDate_past
    (Date_parse : jsstring -> Date) (toLocaleDateString : Z -> jsstring) (now t : Z) :
  let label := Sidebar.formatDate Date_parse toLocaleDateString now (inl (TimeValue t)) in
  let elapsed := now - t in
  (0 <= elapsed < Sidebar.DAY -> label = lit "Today")
  /\ (Sidebar.DAY <= elapsed < 2 * Sidebar.DAY -> label = lit "Yesterday")
  /\ (2 * Sidebar.DAY <= elapsed < 7 * Sidebar.DAY ->
      2 <= elapsed / Sidebar.DAY <= 6
      /\ label = Number_toString (elapsed / Sidebar.DAY) ++ lit " days ago")
  /\ (7 * Sidebar.DAY <= elapsed -> label = toLocaleDateString t).
Proof.
  intros label elapsed. subst label. unfold Sidebar.formatDate. fold elapsed.
  assert (HD : Sidebar.DAY = 86400000) by reflexivity.
  pose proof (Z.div_mod elapsed Sidebar.DAY ltac:(rewrite HD; lia)) as Hdm.
  pose proof (Z.mod_pos_bound elapsed Sidebar.DAY ltac:(rewrite HD; lia)) as Hmod.
  set (days := elapsed / Sidebar.DAY) in *.
  split; [|split; [|split]]; intros H.
  - assert (E : days = 0) by nia. rewrite E. reflexivity.
  - assert (E : days = 1) by nia. rewrite E. reflexivity.
  - assert (Hd : 2 <= days <= 6) by nia. split; [exact Hd|].
    destruct (Z.eqb_spec days 0); [lia|].
    destruct (Z.eqb_spec days 1); [lia|].
    destruct (Z.ltb_spec days 7); [reflexivity | lia].
  - assert (7 <= days) by nia.
    destruct (Z.eqb_spec days 0); [lia|].
    destruct (Z.eqb_spec days 1); [lia|].
    destruct (Z.ltb_spec days 7); [lia | reflexivity].
Qed.

Lemma formatDate_past_witness :
  Sidebar.formatDate decimal_Date_parse Number_toString 1700000000000
    (inl (TimeValue (1700000000000 - 86399999))) = lit "Today"
  /\ Sidebar.formatDate decimal_Date_parse Number_toString 1700000000000
       (inl (TimeValue (1700000000000 - 86400000))) = lit "Yesterday"
  /\ Sidebar.formatDate decimal_Date_parse Number_toString 1700000000000
       (inl (TimeValue (1700000000000 - 3 * 86400000))) = lit "3 days ago".
Proof.
  split; [|split].
  - apply (formatDate_past decimal_Date_parse Number_toString 1700000000000
             (1700000000000 - 86399999)). unfold Sidebar.DAY. lia.
  - apply (formatDate_past decimal_Date_parse Number_toString 1700000000000
             (1700000000000 - 86400000)). unfold Sidebar.DAY. lia.
  - destruct (formatDate_past decimal_Date_parse Number_toString 1700000000000
                (1700000000000 - 3 * 86400000)) as (_ & _ & H & _).
    destruct H as [_ H]; [unfold Sidebar.DAY; lia|]. rewrite H. reflexivity.
Defined.

(** X12. [formatDate] answers "Unknown" for an invalid date and for a string
    that does not parse to a date, and treats a string that parses like the
    date it parses to.  A date in the future is never "Today": it is labelled
    with a negative number of days, "-N days ago". *)
Theorem formatDate_edges
    (Date_parse : jsstring -> Date) (toLocaleDateString : Z -> jsstring)
    (now : Z) (str : jsstring) (t : Z) :
  Sidebar.formatDate Date_parse toLocaleDateString now (inl InvalidDate) = lit "Unknown"
  /\ (Date_parse str = InvalidDate ->
      Sidebar.formatDate Date_parse toLocaleDateString now (inr str) = lit "Unknown")
  /\ Sidebar.formatDate Date_parse toLocaleDateString now (inr str)
     = Sidebar.formatDate Date_parse toLocaleDateString now (inl (Date_parse str))
  /\ (now < t ->
      (now - t) / Sidebar.DAY <= -1
      /\ Sidebar.formatDate Date_parse toLocaleDateString now (inl (TimeValue t))
         = Number_toString ((now - t) / Sidebar.DAY) ++ lit " days ago").
Proof.
  split; [reflexivity|]. split; [intros H; unfold Sidebar.formatDate; rewrite H; reflexivity|].
  split; [reflexivity|]. intros H.
  assert (HD : Sidebar.DAY = 86400000) by reflexivity.
  pose proof (Z.div_mod (now - t) Sidebar.DAY ltac:(rewrite HD; lia)) as Hdm.
  pose proof (Z.mod_pos_bound (now - t) Sidebar.DAY ltac:(rewrite HD; lia)) as Hmod.
  unfold Sidebar.formatDate.
  set (days := (now - t) / Sidebar.DAY) in *.
  assert (days <= -1) by nia. split; [assumption|].
  destruct (Z.eqb_spec days 0); [lia|].
  destruct (Z.eqb_spec days 1); [lia|].
  destruct (Z.ltb_spec days 7); [reflexivity | lia].
Qed.

Lemma formatDate_edges_witness :
  Sidebar.formatDate decimal_Date_parse Number_toString 1700000000000
    (inl (TimeValue 1700000000001)) = lit "-1 days ago"
  /\ Sidebar.formatDate decimal_Date_parse Number_toString 1700000000000
       (inr (lit "soon")) = lit "Unknown".
Proof.
  destruct (formatDate_edges decimal_Date_parse Number_toString 1700000000000
              (lit "soon") 1700000000001) as (_ & Hbad & _ & Hfuture).
  split.
  - destruct Hfuture as [_ H]; [lia|]. rewrite H. reflexivity.
  - apply Hbad. reflexivity.
Defined.

Section SidebarFacts.
Import Store.

Lemma addMessage_room_tracks c msg room :
  lastMessage_tracks_messages room ->
  lastMessage_tracks_messages (addMessage_room c msg room).
Proof.
  unfold lastMessage_tracks_messages, addMessage_room.
  destruct (str_eqb _ _); [|tauto]. intros _. simpl.
  rewrite last_snoc. reflexivity.
Qed.

Lemma step_tracks a s :
  Forall lastMessage_tracks_messages (chatrooms s) ->
  Forall lastMessage_tracks_messages (chatrooms (step a s)).
Proof.
  intros H. destruct a; simpl; try exact H.
  - constructor; [reflexivity | exact H].
  - unfold deleteChatroom. destruct (existsb _ _); simpl; [|exact H].
    rewrite remaining_filter. rewrite list.Forall_forall in H.
    apply list.Forall_forall. intros room Hroom.
    apply list_elem_of_filter in Hroom as [_ Hroom]. apply H. exact Hroom.
  - apply Forall_fmap. eapply list.Forall_impl; [exact H|].
    intros room. apply addMessage_room_tracks.
Qed.

Lemma find_existsb {A} (f : A -> bool) (l : list A) :
  existsb f l = match List.find f l with Some _ => true | None => false end.
Proof.
  induction l as [|x l IH]; [reflexivity|]. simpl. destruct (f x); [reflexivity | exact IH].
Qed.

End SidebarFacts.

(** X13. In every reachable state the [lastMessage] of a chatroom is the
    timestamp of the last message of its list, and is absent exactly when
    the list is empty; the date the sidebar shows for a chatroom is therefore
    its creation date while it is empty and the timestamp of its last
    message afterwards. *)
Theorem sidebar_date_of_reachable (s : AppState) :
  Store.reachable Store.any_action s ->
  forall room, room ∈ chatrooms s ->
    Chatroom.lastMessage room = (Message.timestamp <$> last (Chatroom.messages room))
    /\ (Chatroom.lastMessage room = None <-> Chatroom.messages room = [])
    /\ Sidebar.shown_date room
       = match last (Chatroom.messages room) with
         | Some m => Message.timestamp m
         | None => Chatroom.createdAt room
         end.
Proof.
  intros H.
  assert (Hall : Forall lastMessage_tracks_messages (chatrooms s)).
  { induction H as [|a s Hr IH _]; [constructor | apply step_tracks; exact IH]. }
  intros room Hin. rewrite list.Forall_forall in Hall. specialize (Hall room Hin).
  unfold lastMessage_tracks_messages in Hall.
  split; [exact Hall|]. split.
  - rewrite Hall. rewrite fmap_None. apply last_None.
  - unfold Sidebar.shown_date. rewrite Hall.
    destruct (last (Chatroom.messages room)); reflexivity.
Qed.

Lemma sidebar_date_of_reachable_witness :
  let hello := Message.mkData (lit "Hello") Message.user (TimeValue 5) None in
  let s := Store.step (Store.AddMessage [7%N] [1%N] hello)
             (Store.step (Store.CreateChatroom [1%N] (TimeValue 1) None) Store.initial) in
  (Sidebar.shown_date <$> head (chatrooms s)) = Some (TimeValue 5).
Proof.
  intros hello s.
  assert (Hr : Store.reachable Store.any_action s).
  { apply Store.reach_step; [|exact I]. apply Store.reach_step; [|exact I].
    apply Store.reach_initial. }
  destruct (head (chatrooms s)) as [room|] eqn:E; [|vm_compute in E; discriminate E].
  assert (Hin : room ∈ chatrooms s) by (apply head_Some_elem_of; exact E).
  destruct (sidebar_date_of_reachable s Hr room Hin) as (_ & _ & H).
  cbn [fmap option_fmap option_map]. rewrite H.
  vm_compute in E. injection E as <-. reflexivity.
Defined.

(** X14. The sidebar looks the chatroom up before it calls [deleteChatroom];
    the store makes the same test, so [handleDeleteChatroom] changes the
    store exactly as [deleteChatroom] does, for known and unknown ids. *)
Theorem handleDeleteChatroom_is_deleteChatroom (id : jsstring) (s : AppState) :
  Sidebar.handleDeleteChatroom id s = Store.deleteChatroom id s.
Proof.
  unfold Sidebar.handleDeleteChatroom, Store.deleteChatroom.
  rewrite find_existsb. destruct (List.find _ _); reflexivity.
Qed.

(** * Properties of the chat area *)

Section ChatAreaFacts.
Import Store ChatArea.

Lemma find_map_same_test {A} (f : A -> bool) (g : A -> A) (l : list A) :
  (forall x, f (g x) = f x) ->
  List.find f (List.map g l) = option_map g (List.find f l).
Proof.
  intros H. induction l as [|x l IH]; [reflexivity|]. simpl. rewrite H.
  destruct (f x); [reflexivity | exact IH].
Qed.

Lemma getActiveChatroom_addMessage uuid c m s :
  getActiveChatroom (addMessage uuid c m s)
  = option_map (addMessage_room c (Message.with_id m uuid)) (getActiveChatroom s).
Proof.
  unfold getActiveChatroom, addMessage. simpl.
  apply find_map_same_test. intros room. rewrite addMessage_room_id. reflexivity.
Qed.

Lemma aiResponse_listed (r : nat) :
  nth (r mod length aiResponses) aiResponses [] ∈ aiResponses.
Proof.
  apply list_elem_of_In, nth_In. apply Nat.mod_upper_bound. discriminate.
Qed.

Lemma handleSendMessage_new_chat trim e l s :
  (bool_decide (trim (message l) = []) && negb (imageFile l) = false) ->
  (forall room, getActiveChatroom s = Some room -> Chatroom.id room = []) ->
  roomUuid e ∉ ids s ->
  handleSendMessage trim e l s
  = (mkLocal [] false None,
     mkAppState (user s) (isAuthenticating s) (otpSent s)
       (Chatroom.mk (roomUuid e) (derived_title (trim (message l)))
          [Message.mk (msgUuid e) (trim (message l)) Message.user (msgNow e)
             (or_undefined (imagePreview l))]
          (roomNow e) (Some (msgNow e)) :: chatrooms s)
       (Some (roomUuid e)) true (searchQuery s) (isSidebarOpen s) (theme s),
     Some (roomUuid e)).
Proof.
  intros Hguard Hactive Hfresh. unfold handleSendMessage. rewrite Hguard.
  assert (Htarget : match option_map Chatroom.id (getActiveChatroom s) with
                    | Some (c :: r) => (c :: r, s)
                    | _ => (Chatroom.id (fst (createChatroom (roomUuid e) (roomNow e) None s)),
                            snd (createChatroom (roomUuid e) (roomNow e) None s))
                    end
                    = (roomUuid e, snd (createChatroom (roomUuid e) (roomNow e) None s))).
  { destruct (getActiveChatroom s) as [room|] eqn:E; [|reflexivity].
    simpl. rewrite (Hactive room eq_refl). reflexivity. }
  rewrite Htarget. cbn [fst snd]. f_equal. f_equal.
  unfold addMessage, setTyping, createChatroom, set_isTyping, set_activeChatroomId,
    set_chatrooms.
  cbn [fst snd chatrooms user isAuthenticating otpSent activeChatroomId isTyping
       searchQuery isSidebarOpen theme List.map Chatroom.id].
  rewrite addMessage_rooms_unknown by exact Hfresh.
  unfold addMessage_room. cbn [Chatroom.id Chatroom.messages].
  rewrite (proj2 (str_eqb_eq _ _) eq_refl). reflexivity.
Qed.

End ChatAreaFacts.

(** X15. With nothing to send (the draft is empty once trimmed and no image
    is selected) [handleSendMessage] changes nothing and schedules no reply.
    Otherwise, when there is no active chatroom (none selected, or the
    selected id names none) and the new uuid is not in use, it puts a new
    chatroom at the head of the collection and selects it: the chatroom holds
    exactly the trimmed draft as a user message, is titled from it (an empty
    title when only an image is sent), and has the message's time as
    [lastMessage]; the typing flag is set, the draft is cleared and the reply
    is scheduled for the new chatroom. *)
Theorem send_without_active_chatroom
    (trim : jsstring -> jsstring) (e : ChatArea.SendEnv) (l : ChatArea.Local)
    (s : AppState) :
  (trim (ChatArea.message l) = [] -> ChatArea.imageFile l = false ->
   ChatArea.handleSendMessage trim e l s = (l, s, None))
  /\ ((trim (ChatArea.message l) <> [] \/ ChatArea.imageFile l = true) ->
      Store.getActiveChatroom s = None ->
      ChatArea.roomUuid e ∉ Store.ids s ->
      let result := ChatArea.handleSendMessage trim e l s in
      let s' := snd (fst result) in
      fst (fst result) = ChatArea.mkLocal [] false None
      /\ snd result = Some (ChatArea.roomUuid e)
      /\ isTyping s' = true
      /\ activeChatroomId s' = Some (ChatArea.roomUuid e)
      /\ exists room,
           chatrooms s' = room :: chatrooms s
           /\ Store.getActiveChatroom s' = Some room
           /\ Chatroom.id room = ChatArea.roomUuid e
           /\ Chatroom.createdAt room = ChatArea.roomNow e
           /\ Chatroom.lastMessage room = Some (ChatArea.msgNow e)
           /\ Chatroom.messages room
              = [Message.mk (ChatArea.msgUuid e) (trim (ChatArea.message l))
                   Message.user (ChatArea.msgNow e)
                   (ChatArea.or_undefined (ChatArea.imagePreview l))]
           /\ ((length (trim (ChatArea.message l)) <= 50)%nat ->
               Chatroom.title room = trim (ChatArea.message l))
           /\ ((50 < length (trim (ChatArea.message l)))%nat ->
               Chatroom.title room = take 50 (trim (ChatArea.message l)) ++ lit "...")).
Proof.
  split.
  - intros Hempty Hfile. unfold ChatArea.handleSendMessage.
    rewrite Hempty, Hfile. reflexivity.
  - intros Hsend Hnone Hfresh result s'. subst s' result.
    rewrite handleSendMessage_new_chat; [| |rewrite Hnone; discriminate|exact Hfresh].
    2:{ destruct Hsend as [H|H].
        - rewrite bool_decide_eq_false_2 by exact H. reflexivity.
        - rewrite H. apply andb_false_r. }
    cbn [fst snd isTyping activeChatroomId chatrooms].
    split; [reflexivity|]. split; [reflexivity|]. split; [reflexivity|].
    split; [reflexivity|]. eexists. split; [reflexivity|].
    split.
    { unfold Store.getActiveChatroom. simpl.
      rewrite bool_decide_eq_true_2 by reflexivity. reflexivity. }
    cbn [Chatroom.id Chatroom.createdAt Chatroom.lastMessage Chatroom.messages
         Chatroom.title].
    repeat (split; [reflexivity|]).
    split; [apply derived_title_short | apply derived_title_long].
Qed.

Lemma send_without_active_chatroom_witness :
  let e := ChatArea.mkSendEnv (lit "room-1") (TimeValue 10) (TimeValue 11) (lit "m1") in
  let l := ChatArea.mkLocal (lit "Hello") false None in
  let result := ChatArea.handleSendMessage (fun x => x) e l Store.initial in
  (Chatroom.title <$> Store.getActiveChatroom (snd (fst result))) = Some (lit "Hello")
  /\ snd result = Some (lit "room-1").
Proof.
  intros e l result.
  destruct (send_without_active_chatroom (fun x => x) e l Store.initial) as [_ H].
  destruct H as (_ & Htimer & _ & _ & room & _ & Hactive & _ & _ & _ & _ & Hshort & _).
  - left. discriminate.
  - reflexivity.
  - intros H. inversion H.
  - fold result in Hactive, Htimer. rewrite Hactive. simpl.
    rewrite Hshort; [split; [reflexivity | exact Htimer] | vm_compute; lia].
Defined.

(** X16. When a chatroom with a non-empty id is active, [handleSendMessage]
    creates no chatroom: the ids and the selection stay, the active chatroom
    gets the trimmed draft as its last message, the typing flag is set and
    the reply is scheduled for that chatroom. *)
Theorem send_to_active_chatroom
    (trim : jsstring -> jsstring) (e : ChatArea.SendEnv) (l : ChatArea.Local)
    (s : AppState) (room : Chatroom.t) :
  (trim (ChatArea.message l) <> [] \/ ChatArea.imageFile l = true) ->
  Store.getActiveChatroom s = Some room ->
  Chatroom.id room <> [] ->
  let result := ChatArea.handleSendMessage trim e l s in
  let s' := snd (fst result) in
  snd result = Some (Chatroom.id room)
  /\ Store.ids s' = Store.ids s
  /\ activeChatroomId s' = activeChatroomId s
  /\ isTyping s' = true
  /\ exists room',
       Store.getActiveChatroom s' = Some room'
       /\ Chatroom.messages room'
          = Chatroom.messages room
            ++ [Message.mk (ChatArea.msgUuid e) (trim (ChatArea.message l))
                  Message.user (ChatArea.msgNow e)
                  (ChatArea.or_undefined (ChatArea.imagePreview l))]
       /\ ChatArea.shown_messages s' = Chatroom.messages room'.
Proof.
  intros Hsend Hactive Hid result s'. subst s' result.
  unfold ChatArea.handleSendMessage.
  assert (Hguard : bool_decide (trim (ChatArea.message l) = [])
                   && negb (ChatArea.imageFile l) = false).
  { destruct Hsend as [H|H].
    - rewrite bool_decide_eq_false_2 by exact H. reflexivity.
    - rewrite H. apply andb_false_r. }
  rewrite Hguard, Hactive. cbn [option_map].
  destruct (Chatroom.id room) as [|c r] eqn:E; [contradiction|].
  cbn [fst snd]. split; [reflexivity|].
  split; [apply addMessage_ids|]. split; [reflexivity|]. split; [reflexivity|].
  assert (Hact' : Store.getActiveChatroom
                    (Store.setTyping true
                       (Store.addMessage (ChatArea.msgUuid e) (c :: r)
                          (Message.mkData (trim (ChatArea.message l)) Message.user
                             (ChatArea.msgNow e)
                             (ChatArea.or_undefined (ChatArea.imagePreview l))) s))
                  = Some (Store.addMessage_room (c :: r)
                            (Message.with_id
                               (Message.mkData (trim (ChatArea.message l)) Message.user
                                  (ChatArea.msgNow e)
                                  (ChatArea.or_undefined (ChatArea.imagePreview l)))
                               (ChatArea.msgUuid e)) room)).
  { change (Store.getActiveChatroom (Store.setTyping true ?x))
      with (Store.getActiveChatroom x).
    rewrite getActiveChatroom_addMessage, Hactive. reflexivity. }
  eexists. split; [exact Hact'|]. split.
  - unfold Store.addMessage_room. rewrite E.
    rewrite (proj2 (str_eqb_eq _ _) eq_refl). reflexivity.
  - unfold ChatArea.shown_messages. rewrite Hact'. reflexivity.
Qed.

Lemma send_to_active_chatroom_witness :
  let s := snd (Store.createChatroom (lit "room-1") (TimeValue 1) None Store.initial) in
  let e := ChatArea.mkSendEnv (lit "room-2") (TimeValue 10) (TimeValue 11) (lit "m1") in
  let l := ChatArea.mkLocal [] true (Some (lit "data:image/png;base64,AAAA")) in
  let result := ChatArea.handleSendMessage (fun x => x) e l s in
  Store.ids (snd (fst result)) = [lit "room-1"]
  /\ length (ChatArea.shown_messages (snd (fst result))) = 1%nat.
Proof.
  intros s e l result.
  destruct (send_to_active_chatroom (fun x => x) e l s
              (Chatroom.mk (lit "room-1") (lit "New Chat") [] (TimeValue 1) None))
    as (_ & Hids & _ & _ & room' & _ & Hmsgs & Hshown).
  - right. reflexivity.
  - reflexivity.
  - discriminate.
  - fold result in Hids, Hshown. split; [exact Hids|].
    rewrite Hshown, Hmsgs. reflexivity.
Defined.

(** X17. The simulated reply always clears the typing flag and keeps the
    ids of the chatrooms and the selection.  It is added, as an "ai" message
    with one of the six canned texts, to the chatroom whose id the timer
    captured when the user's message was sent, active or not, and does not
    retitle a chatroom that has messages; if that chatroom was deleted in
    the meantime the reply is dropped and the collection stays as it is. *)
Theorem ai_reply_spec
    (r : nat) (now : Date) (uuid c : jsstring) (s : AppState) :
  let s' := ChatArea.ai_reply r now uuid c s in
  isTyping s' = false
  /\ Store.ids s' = Store.ids s
  /\ activeChatroomId s' = activeChatroomId s
  /\ (c ∉ Store.ids s -> chatrooms s' = chatrooms s)
  /\ forall (i : nat) room, chatrooms s !! i = Some room -> Chatroom.id room = c ->
       exists room' reply,
         chatrooms s' !! i = Some room'
         /\ Chatroom.messages room' = Chatroom.messages room ++ [reply]
         /\ Message.content reply ∈ ChatArea.aiResponses
         /\ Message.sender reply = Message.ai
         /\ Message.timestamp reply = now
         /\ Message.id reply = uuid
         /\ Chatroom.lastMessage room' = Some now
         /\ (Chatroom.messages room <> [] -> Chatroom.title room' = Chatroom.title room).
Proof.
  intros s'. subst s'. unfold ChatArea.ai_reply.
  split; [reflexivity|]. split; [apply addMessage_ids|]. split; [reflexivity|].
  split.
  - intros Hc. simpl. apply addMessage_rooms_unknown. exact Hc.
  - intros i room Hi Hid. eexists. eexists.
    change (chatrooms (Store.setTyping false ?x)) with (chatrooms x).
    rewrite addMessage_lookup, Hi. split; [reflexivity|].
    unfold Store.addMessage_room. rewrite (proj2 (str_eqb_eq _ _) Hid).
    cbn [Chatroom.messages Chatroom.title Chatroom.lastMessage].
    split; [reflexivity|].
    cbn [Message.with_id Message.content Message.sender Message.timestamp Message.id
         Message.d_content Message.d_sender Message.d_timestamp].
    split; [apply aiResponse_listed|]. repeat (split; [reflexivity|]).
    intros Hne. destruct (Chatroom.messages room); [contradiction | reflexivity].
Qed.

Lemma ai_reply_spec_witness :
  let s := Store.setTyping true
             (snd (Store.createChatroom (lit "room-1") (TimeValue 1) None Store.initial)) in
  let s' := ChatArea.ai_reply 4 (TimeValue 20) (lit "m2") (lit "deleted-room") s in
  chatrooms s' = chatrooms s /\ isTyping s' = false.
Proof.
  intros s s'.
  destruct (ai_reply_spec 4 (TimeValue 20) (lit "m2") (lit "deleted-room") s)
    as (Htyping & _ & _ & Hdropped & _).
  split; [|exact Htyping]. apply Hdropped.
  vm_compute. intros H. apply list_elem_of_singleton in H. discriminate.
Defined.

(** * Properties of the authentication screens *)

(** X18. [AuthWrapper] shows the phone form in the initial state.  While no
    authenticated user is set, submitting the phone form leads, once its
    timer has run, to the code form, and [goBack] leads to the phone form.
    The timer of the code form sets an authenticated user, the same fixed
    phone number whatever was entered, clears both flags, leaves the chat
    data alone, and the application is shown; from then on no action other
    than [setUser] leads away from it. *)
Theorem login_flow (s : AppState) (uuid : jsstring) :
  Auth.AuthWrapper Store.initial = Auth.PhoneLogin
  /\ (Auth.AuthWrapper s <> Auth.Children ->
      Auth.AuthWrapper (Auth.phone_onSubmit s) = Auth.AuthWrapper s
      /\ isAuthenticating (Auth.phone_onSubmit s) = true
      /\ Auth.AuthWrapper (Auth.phone_onSubmit_timer (Auth.phone_onSubmit s))
         = Auth.OtpVerification
      /\ Auth.AuthWrapper (Auth.goBack s) = Auth.PhoneLogin)
  /\ (let s' := Auth.otp_onSubmit_timer uuid s in
      Auth.AuthWrapper s' = Auth.Children
      /\ user s' = Some (User.mk uuid (lit "+1 234 567 8900") (lit "+1") true)
      /\ (otpSent s', isAuthenticating s') = (false, false)
      /\ (chatrooms s', activeChatroomId s') = (chatrooms s, activeChatroomId s))
  /\ (forall a, Auth.AuthWrapper s = Auth.Children ->
                (forall u, a <> Store.SetUser u) ->
                Auth.AuthWrapper (Store.step a s) = Auth.Children).
Proof.
  split; [reflexivity|]. split; [|split].
  - intros H. unfold Auth.AuthWrapper in *. simpl.
    destruct (user s) as [u|]; [destruct (User.isAuthenticated u)|]; simpl in *;
      try contradiction; repeat split; reflexivity.
  - repeat split.
  - intros a H Ha. unfold Auth.AuthWrapper in *.
    assert (Hu : user (Store.step a s) = user s).
    { destruct a; try reflexivity.
      - exfalso. exact (Ha u eq_refl).
      - simpl. unfold Store.deleteChatroom. destruct (existsb _ _); reflexivity. }
    rewrite Hu.
    destruct (user s) as [u|]; [destruct (User.isAuthenticated u)|]; simpl in *;
      try reflexivity; destruct (otpSent s); discriminate.
Qed.

Lemma login_flow_witness :
  let s := Auth.otp_onSubmit_timer (lit "u1")
             (Auth.phone_onSubmit_timer (Auth.phone_onSubmit Store.initial)) in
  Auth.AuthWrapper (Auth.phone_onSubmit_timer (Auth.phone_onSubmit Store.initial))
  = Auth.OtpVerification
  /\ Auth.AuthWrapper (Store.step (Store.SetOtpSent true) s) = Auth.Children.
Proof.
  intros s.
  destruct (login_flow Store.initial (lit "u1")) as (_ & Hphone & _ & _).
  destruct Hphone as (_ & _ & Hotp & _); [discriminate|].
  split; [exact Hotp|].
  destruct (login_flow s (lit "u1")) as (_ & _ & _ & Hstay).
  apply Hstay; [reflexivity | discriminate].
Defined.

(** * Further properties of the persistence adapter *)

Section PersistMore.
Import JS Persist.

Ltac lit_differ := let E := fresh in intros E; vm_compute in E; discriminate E.

Ltac obj_props :=
  repeat first
    [ rewrite lookup_prop_here | rewrite set_prop_here
    | rewrite lookup_prop_nil | rewrite set_prop_nil
    | rewrite lookup_prop_next by lit_differ
    | rewrite set_prop_next by lit_differ ].

Ltac js_eval :=
  repeat progress
    (cbn [field get get_opt spread bind default from_option Datatypes.id]; obj_props).

Lemma lookup_set_prop_eq k v ps : lookup_prop k (set_prop k v ps) = Some v.
Proof.
  induction ps as [|[k' v'] ps IH]; [apply lookup_prop_here|].
  destruct (decide (k' = k)) as [->|Hne].
  - rewrite set_prop_here. apply lookup_prop_here.
  - rewrite set_prop_next, lookup_prop_next by exact Hne. exact IH.
Qed.

Lemma lookup_set_prop_ne k k' v ps :
  k <> k' -> lookup_prop k (set_prop k' v ps) = lookup_prop k ps.
Proof.
  intros Hne. induction ps as [|[k2 v2] ps IH].
  - rewrite set_prop_nil, lookup_prop_next by congruence. reflexivity.
  - destruct (decide (k2 = k')) as [->|Hne2].
    + rewrite set_prop_here, !lookup_prop_next by congruence. reflexivity.
    + rewrite set_prop_next by exact Hne2.
      destruct (decide (k2 = k)) as [->|Hne3].
      * rewrite !lookup_prop_here. reflexivity.
      * rewrite !lookup_prop_next by exact Hne3. exact IH.
Qed.

Lemma mapM_throws {A B} (f : A -> completion B) (l : list A) (x : A) (e : error) :
  x ∈ l -> f x = Throw e -> exists e', mapM f l = Throw e'.
Proof.
  intros Hin Hx. induction l as [|y l IH]; [inversion Hin|].
  apply elem_of_cons in Hin as [<-|Hin]; simpl.
  - rewrite Hx. eauto.
  - destruct (f y); simpl; [|eauto].
    destruct (IH Hin) as [e' ->]. eauto.
Qed.

Lemma revive_room_malformed P room :
  malformed_room room -> exists e, revive_room P room = Throw e.
Proof.
  intros [->|[->|H]]; [eexists; reflexivity | eexists; reflexivity|].
  unfold revive_room.
  destruct room; try (simpl in H; contradiction).
  cbn [get bind].
  destruct (new_Date P (field (Obj props) "createdAt")); [|eexists; reflexivity].
  cbn [bind].
  destruct (truthy (field (Obj props) "lastMessage"));
    [destruct (new_Date P (field (Obj props) "lastMessage")); [|eexists; reflexivity]|];
    cbn [bind];
    (destruct (field (Obj props) "messages"); try contradiction;
     cbn [call_map bind]; eexists; reflexivity).
Qed.

Lemma getItem_room_throws P name item ls parsed rooms room e :
  ls name = Some item ->
  JSON_parse P item = Normal parsed ->
  field (field parsed "state") "chatrooms" = Arr rooms ->
  room ∈ rooms -> revive_room P room = Throw e ->
  getItem P name ls = Normal Null.
Proof.
  intros Hls Hparse Hrooms Hin Hthrow.
  unfold getItem. rewrite Hls. destruct item as [|c item]; [reflexivity|].
  unfold getItem_try. rewrite Hparse. cbn [bind].
  destruct parsed; try discriminate Hrooms.
  destruct (field (Obj props) "state") eqn:Hstate; try discriminate Hrooms.
  cbn [get bind]. rewrite Hstate. cbn [get_opt get bind]. rewrite Hrooms.
  cbn [truthy call_map].
  destruct (mapM_throws (revive_room P) rooms room e Hin Hthrow) as [e' ->].
  reflexivity.
Qed.

Context (P : Platform).

Lemma revive_message_written_any (m : Message.t) :
  exists v, revive_message P (to_json P (message_value m)) = Normal v.
Proof.
  destruct m as [id content sender ts image]. unfold revive_message, message_value.
  cbn [Message.timestamp Message.id Message.content Message.sender Message.imageUrl].
  destruct image, sender, ts; cbn [option_map sender_value app opt_prop];
    cbn [to_json]; js_eval; eexists; reflexivity.
Qed.

Lemma revive_messages_written_any (msgs : list Message.t) :
  exists vs, mapM (revive_message P) (List.map (to_json P) (List.map message_value msgs))
             = Normal vs.
Proof.
  induction msgs as [|m l (vs & Hvs)]; [exists []; reflexivity|].
  destruct (revive_message_written_any m) as (v & Hv).
  exists (v :: vs). cbn [List.map mapM]. rewrite Hv. cbn [bind]. rewrite Hvs. reflexivity.
Qed.

Lemma revive_room_written_any (r : Chatroom.t) :
  exists v, revive_room P (to_json P (chatroom_value r)) = Normal v
            /\ field v "id" = Str (Chatroom.id r)
            /\ field v "title" = Str (Chatroom.title r).
Proof.
  destruct r as [id title msgs created last].
  destruct (revive_messages_written_any msgs) as (ms & Hms).
  unfold revive_room, chatroom_value.
  cbn [Chatroom.id Chatroom.title Chatroom.messages Chatroom.createdAt
       Chatroom.lastMessage].
  destruct last as [[|t']|], created as [|t]; cbn [option_map app opt_prop];
    cbn [to_json]; js_eval; cbn [call_map]; rewrite Hms; js_eval; cbn [truthy];
    try (destruct (negb (bool_decide (toISOString P t' = []))));
    (eexists; split; [reflexivity|]); js_eval; split; reflexivity.
Qed.

Lemma revive_rooms_written_any (rooms : list Chatroom.t) :
  exists vs, mapM (revive_room P) (List.map (to_json P) (List.map chatroom_value rooms))
             = Normal vs
             /\ Forall2 (fun v r => field v "id" = Str (Chatroom.id r)
                                    /\ field v "title" = Str (Chatroom.title r))
                  vs rooms.
Proof.
  induction rooms as [|r l (vs & Hvs & HR)]; [exists []; split; [reflexivity | constructor]|].
  destruct (revive_room_written_any r) as (v & Hv & Hrel).
  exists (v :: vs). cbn [List.map mapM]. rewrite Hv. cbn [bind]. rewrite Hvs.
  split; [reflexivity | constructor; assumption].
Qed.

Lemma getItem_try_written_any (s : AppState) :
  JSON_parse P (JSON_stringify P (storage_value s))
  = Normal (to_json P (storage_value s)) ->
  exists vs,
    getItem_try P (JSON_stringify P (storage_value s))
    = Normal (Obj [(lit "state",
                    Obj [(lit "user", user_value (user s));
                         (lit "chatrooms", Arr vs);
                         (lit "activeChatroomId",
                            match activeChatroomId s with
                            | Some a => Str a
                            | None => Null
                            end);
                         (lit "theme", theme_value (theme s))]);
                   (lit "version", Num (Finite 0))])
    /\ Forall2 (fun v r => field v "id" = Str (Chatroom.id r)
                           /\ field v "title" = Str (Chatroom.title r))
         vs (chatrooms s).
Proof.
  intros Hparse.
  destruct (revive_rooms_written_any (chatrooms s)) as (vs & Hvs & HR).
  exists vs. split; [|exact HR].
  unfold getItem_try. rewrite Hparse. unfold storage_value, partialize.
  destruct (user s) as [u|], (activeChatroomId s) as [a|], (theme s);
    cbn [user_value theme_value to_json]; js_eval; cbn [truthy call_map];
    rewrite Hvs; js_eval; cbn [assign bind]; obj_props; reflexivity.
Qed.

End PersistMore.

(** X19. Whatever the state, valid dates or not, [getItem] after [setItem]
    does not fall back to [null]: given that [JSON.parse] gives back the tree
    [JSON.stringify] wrote, it returns the written wrapper with the same
    version, user, active id and theme and with as many chatrooms, each with
    its id and title.  The fields left out by [partialize] ([isTyping],
    [searchQuery], [isSidebarOpen], [otpSent], [isAuthenticating]) are not
    in it. *)
Theorem persisted_state_reloaded
    (P : JS.Platform) (name : jsstring) (ls : Persist.Storage) (s : AppState) :
  JS.JSON_parse P (JS.JSON_stringify P (Persist.storage_value s))
  = JS.Normal (JS.to_json P (Persist.storage_value s)) ->
  JS.JSON_stringify P (Persist.storage_value s) <> [] ->
  exists v rooms,
    Persist.getItem P name (Persist.setItem P name (Persist.storage_value s) ls)
    = JS.Normal v
    /\ v <> JS.Null
    /\ JS.field v "version" = JS.Num (JS.Finite 0)
    /\ JS.field (JS.field v "state") "user" = Persist.user_value (user s)
    /\ JS.field (JS.field v "state") "activeChatroomId"
       = match activeChatroomId s with Some a => JS.Str a | None => JS.Null end
    /\ JS.field (JS.field v "state") "theme" = Persist.theme_value (theme s)
    /\ JS.field (JS.field v "state") "chatrooms" = JS.Arr rooms
    /\ Forall2 (fun room r => JS.field room "id" = JS.Str (Chatroom.id r)
                              /\ JS.field room "title" = JS.Str (Chatroom.title r))
         rooms (chatrooms s)
    /\ Forall (fun k => JS.field (JS.field v "state") k = JS.Undefined)
         ["isTyping"; "searchQuery"; "isSidebarOpen"; "otpSent"; "isAuthenticating"]%string.
Proof.
  intros Hparse Hne.
  destruct (getItem_try_written_any P s Hparse) as (vs & Hv & HR).
  eexists. exists vs. split.
  { unfold Persist.getItem, Persist.setItem, Persist.localStorage_setItem.
    rewrite (proj2 (str_eqb_eq name name) eq_refl).
    destruct (JS.JSON_stringify P (Persist.storage_value s)) as [|c text] eqn:E;
      [contradiction|].
    rewrite Hv. reflexivity. }
  split; [discriminate|].
  repeat (split; [reflexivity|]).
  split; [exact HR|].
  repeat constructor.
Qed.

Lemma persisted_state_reloaded_witness :
  exists v,
    Persist.getItem (platform_for invalid_date_state) (lit "gemini-app-storage")
      (Persist.setItem (platform_for invalid_date_state) (lit "gemini-app-storage")
         (Persist.storage_value invalid_date_state) (fun _ => None))
    = JS.Normal v
    /\ v <> JS.Null
    /\ JS.field (JS.field v "state") "theme" = JS.Str (lit "light").
Proof.
  destruct (persisted_state_reloaded (platform_for invalid_date_state)
              (lit "gemini-app-storage") (fun _ => None) invalid_date_state)
    as (v & rooms & Hv & Hnn & _ & _ & _ & Htheme & _).
  - reflexivity.
  - discriminate.
  - exists v. split; [exact Hv|]. split; [exact Hnn | exact Htheme].
Defined.

(** X20. A stored value that parses but holds no chatrooms to revive (no
    [state], or a [state] whose [chatrooms] is absent or falsy) is returned
    by [getItem] as it was parsed. *)
Theorem getItem_without_chatrooms
    (P : JS.Platform) (name item : jsstring) (ls : Persist.Storage) (parsed : JS.value) :
  ls name = Some item -> item <> [] ->
  JS.JSON_parse P item = JS.Normal parsed ->
  parsed <> JS.Null -> parsed <> JS.Undefined ->
  JS.truthy (JS.field (JS.field parsed "state") "chatrooms") = false ->
  Persist.getItem P name ls = JS.Normal parsed.
Proof.
  intros Hls Hne Hparse Hn Hu Hfalsy.
  unfold Persist.getItem. rewrite Hls. destruct item as [|c item]; [contradiction|].
  unfold Persist.getItem_try. rewrite Hparse. cbn [JS.bind].
  assert (Hget : JS.get parsed "state" = JS.Normal (JS.field parsed "state"))
    by (destruct parsed; try reflexivity; contradiction).
  rewrite Hget. cbn [JS.bind].
  assert (Hopt : JS.get_opt (JS.field parsed "state") "chatrooms"
                 = JS.Normal (JS.field (JS.field parsed "state") "chatrooms"))
    by (destruct (JS.field parsed "state"); reflexivity).
  rewrite Hopt. cbn [JS.bind]. rewrite Hfalsy. reflexivity.
Qed.

Lemma getItem_without_chatrooms_witness :
  let parsed := JS.Obj [(lit "state", JS.Obj [(lit "theme", JS.Str (lit "dark"))]);
                        (lit "version", JS.Num (JS.Finite 0))] in
  Persist.getItem (table_platform (lit "blob") parsed) (lit "k")
    (fun _ => Some (lit "blob"))
  = JS.Normal parsed.
Proof.
  intros parsed.
  apply (getItem_without_chatrooms (table_platform (lit "blob") parsed) (lit "k")
           (lit "blob")); try reflexivity; discriminate.
Defined.

(** X21. One unusable part discards everything that was stored: [getItem]
    returns [null] when the stored text parses to [null], when [chatrooms]
    is truthy but not an array, and when some entry of the [chatrooms] array
    is [null] or has a [messages] property that is neither absent, [null]
    nor an array. *)
Theorem getItem_discards_malformed
    (P : JS.Platform) (name item : jsstring) (ls : Persist.Storage) (parsed : JS.value) :
  ls name = Some item ->
  JS.JSON_parse P item = JS.Normal parsed ->
  (parsed = JS.Null
   \/ (JS.truthy (JS.field (JS.field parsed "state") "chatrooms") = true
       /\ forall rooms, JS.field (JS.field parsed "state") "chatrooms" <> JS.Arr rooms)
   \/ (exists rooms room,
         JS.field (JS.field parsed "state") "chatrooms" = JS.Arr rooms
         /\ room ∈ rooms /\ malformed_room room)) ->
  Persist.getItem P name ls = JS.Normal JS.Null.
Proof.
  intros Hls Hparse Hbad.
  unfold Persist.getItem. rewrite Hls. destruct item as [|c item]; [reflexivity|].
  unfold Persist.getItem_try. rewrite Hparse. cbn [JS.bind].
  destruct Hbad as [->|Hbad]; [reflexivity|].
  assert (Hshape : exists ps ss, parsed = JS.Obj ps
                                 /\ JS.field parsed "state" = JS.Obj ss).
  { assert (Ht : JS.field (JS.field parsed "state") "chatrooms" <> JS.Undefined).
    { destruct Hbad as [[Ht _]|(rooms & room & E & _)]; intros E'; rewrite E' in *;
        discriminate. }
    destruct parsed; try (exfalso; apply Ht; reflexivity).
    destruct (JS.field (JS.Obj props) "state") eqn:Es;
      try (exfalso; apply Ht; reflexivity).
    eauto. }
  destruct Hshape as (ps & ss & -> & Hstate).
  cbn [JS.get JS.bind]. rewrite Hstate. cbn [JS.get_opt JS.get JS.bind].
  destruct Hbad as [[Ht Hnot]|(rooms & room & E & Hin & Hmal)].
  - rewrite Hstate in Ht, Hnot. rewrite Ht.
    destruct (JS.field (JS.Obj ss) "chatrooms") eqn:Ec; try reflexivity.
    exfalso. exact (Hnot items eq_refl).
  - rewrite Hstate in E. rewrite E. cbn [JS.truthy JS.call_map].
    destruct (revive_room_malformed P room Hmal) as [e He].
    destruct (mapM_throws (Persist.revive_room P) rooms room e Hin He) as [e' ->].
    reflexivity.
Qed.

Lemma getItem_discards_malformed_witness :
  let room := JS.Obj [(lit "id", JS.Str (lit "room-1"));
                      (lit "messages", JS.Str (lit "none"))] in
  let parsed := JS.Obj [(lit "state", JS.Obj [(lit "chatrooms", JS.Arr [room])]);
                        (lit "version", JS.Num (JS.Finite 0))] in
  Persist.getItem (table_platform (lit "blob") parsed) (lit "k")
    (fun _ => Some (lit "blob"))
  = JS.Normal JS.Null.
Proof.
  intros room parsed.
  apply (getItem_discards_malformed (table_platform (lit "blob") parsed) (lit "k")
           (lit "blob") (fun _ => Some (lit "blob")) parsed); try reflexivity.
  right. right. exists [room], room. split; [reflexivity|].
  split; [constructor|]. right. right. exact I.
Defined.

(** X22. Reviving a stored chatroom object that has no [messages] property
    and whose [createdAt] and [lastMessage] are not arrays or objects gives
    it an empty message list; [createdAt] becomes a [Date], an invalid one
    when the property is missing; [lastMessage] becomes [undefined] when it
    is missing or falsy; every other property of the object is kept as it
    was stored.  When [createdAt] or [lastMessage] is an object with an own
    [toString] property, [new Date] raises: the chatroom is not revived, and
    [getItem] returns [null] for every stored value that has this chatroom
    in its [chatrooms] array. *)
Theorem revive_room_defaults (P : JS.Platform) (ps : list (jsstring * JS.value)) :
  JS.lookup_prop (lit "messages") ps = None ->
  (primitive_or_date (JS.field (JS.Obj ps) "createdAt") ->
   primitive_or_date (JS.field (JS.Obj ps) "lastMessage") ->
   exists ps' created,
     Persist.revive_room P (JS.Obj ps) = JS.Normal (JS.Obj ps')
     /\ JS.field (JS.Obj ps') "messages" = JS.Arr []
     /\ JS.new_Date P (JS.field (JS.Obj ps) "createdAt") = JS.Normal created
     /\ JS.field (JS.Obj ps') "createdAt" = JS.DateObj created
     /\ (JS.lookup_prop (lit "createdAt") ps = None -> created = InvalidDate)
     /\ (JS.truthy (JS.field (JS.Obj ps) "lastMessage") = false ->
         JS.field (JS.Obj ps') "lastMessage" = JS.Undefined)
     /\ forall k, k ∉ revived_keys -> JS.lookup_prop k ps' = JS.lookup_prop k ps)
  /\ (forall qs,
        JS.field (JS.Obj ps) "createdAt" = JS.Obj qs
        \/ JS.field (JS.Obj ps) "lastMessage" = JS.Obj qs ->
        JS.lookup_prop (lit "toString") qs <> None ->
        (exists e, Persist.revive_room P (JS.Obj ps) = JS.Throw e)
        /\ forall name item ls parsed rooms,
             ls name = Some item ->
             JS.JSON_parse P item = JS.Normal parsed ->
             JS.field (JS.field parsed "state") "chatrooms" = JS.Arr rooms ->
             JS.Obj ps ∈ rooms ->
             Persist.getItem P name ls = JS.Normal JS.Null).
Proof.
  intros Hm.
  assert (Hprim : forall v, primitive_or_date v -> exists d, JS.new_Date P v = JS.Normal d).
  { intros v Hv. destruct v; try contradiction; eexists; reflexivity. }
  assert (Hobj : forall qs, JS.lookup_prop (lit "toString") qs <> None ->
                            JS.new_Date P (JS.Obj qs) = JS.Throw JS.TypeError).
  { intros qs Hq. cbn [JS.new_Date]. unfold JS.object_to_primitive.
    destruct (JS.lookup_prop (lit "toString") qs); [reflexivity | contradiction]. }
  split.
  - unfold Persist.revive_room. cbn [JS.get JS.bind JS.spread].
    intros Hc Hl.
    destruct (Hprim _ Hc) as [created Hcreated].
    destruct (Hprim _ Hl) as [last Hlast].
    rewrite Hcreated, Hlast. cbn [JS.bind].
    assert (Hmf : JS.field (JS.Obj ps) "messages" = JS.Undefined)
      by (cbn [JS.field]; rewrite Hm; reflexivity).
    rewrite Hmf. cbn [JS.bind JS.truthy].
    assert (Hc3 : forall v1 v2 v3,
              JS.lookup_prop (lit "createdAt")
                (JS.set_prop (lit "messages") v1
                   (JS.set_prop (lit "lastMessage") v2
                      (JS.set_prop (lit "createdAt") v3 ps))) = Some v3).
    { intros. rewrite !lookup_set_prop_ne by (intros E; vm_compute in E; discriminate E).
      apply lookup_set_prop_eq. }
    destruct (JS.truthy (JS.field (JS.Obj ps) "lastMessage")) eqn:Ht; cbn [JS.bind];
      (eexists; exists created; split; [reflexivity|];
       cbn [JS.field];
       split; [rewrite lookup_set_prop_eq; reflexivity|];
       split; [reflexivity|];
       split; [rewrite Hc3; reflexivity|];
       split; [intros Hnone; cbn [JS.field] in Hcreated; rewrite Hnone in Hcreated;
               cbn in Hcreated; congruence|];
       split; [intros Hfalsy; try discriminate Hfalsy;
               rewrite lookup_set_prop_ne by (intros E; vm_compute in E; discriminate E);
               rewrite lookup_set_prop_eq; reflexivity|];
       intros k Hk; unfold revived_keys in Hk;
       rewrite !not_elem_of_cons in Hk; destruct Hk as (H1 & H2 & H3 & _);
       rewrite !lookup_set_prop_ne by assumption; reflexivity).
  - intros qs Hsource Hq.
    assert (Hthrow : exists e, Persist.revive_room P (JS.Obj ps) = JS.Throw e).
    { unfold Persist.revive_room. cbn [JS.get JS.bind JS.spread].
      destruct Hsource as [Hc|Hl].
      - rewrite Hc, (Hobj qs Hq). eexists. reflexivity.
      - destruct (JS.new_Date P (JS.field (JS.Obj ps) "createdAt"));
          [|eexists; reflexivity].
        cbn [JS.bind]. rewrite Hl, (Hobj qs Hq). cbn [JS.truthy JS.bind].
        eexists. reflexivity. }
    split; [exact Hthrow|].
    destruct Hthrow as [e He].
    intros name item ls parsed rooms Hls Hparse Hrooms Hin.
    exact (getItem_room_throws P name item ls parsed rooms (JS.Obj ps) e
             Hls Hparse Hrooms Hin He).
Qed.

Lemma revive_room_defaults_witness :
  (exists ps',
     Persist.revive_room (table_platform [] JS.Null)
       (JS.Obj [(lit "id", JS.Str (lit "room-1")); (lit "pinned", JS.Bool true)])
     = JS.Normal (JS.Obj ps')
     /\ JS.field (JS.Obj ps') "createdAt" = JS.DateObj InvalidDate
     /\ JS.field (JS.Obj ps') "messages" = JS.Arr []
     /\ JS.field (JS.Obj ps') "pinned" = JS.Bool true)
  /\ (let room := JS.Obj [(lit "id", JS.Str (lit "room-1"));
                          (lit "createdAt",
                           JS.Obj [(lit "toString", JS.Num (JS.Finite 1))])] in
      let parsed := JS.Obj [(lit "state", JS.Obj [(lit "chatrooms", JS.Arr [room])]);
                            (lit "version", JS.Num (JS.Finite 0))] in
      Persist.getItem (table_platform (lit "blob") parsed) (lit "k")
        (fun _ => Some (lit "blob"))
      = JS.Normal JS.Null).
Proof.
  split.
  - destruct (revive_room_defaults (table_platform [] JS.Null)
                [(lit "id", JS.Str (lit "room-1")); (lit "pinned", JS.Bool true)] eq_refl)
      as [Hok _].
    destruct (Hok I I) as (ps' & created & Hv & Hm & _ & Hc & Hmissing & _ & Hkeep).
    exists ps'. split; [exact Hv|].
    split; [rewrite Hc, (Hmissing eq_refl); reflexivity|]. split; [exact Hm|].
    unfold JS.field. rewrite Hkeep; [reflexivity|].
    unfold revived_keys. rewrite !not_elem_of_cons.
    repeat split; try (intros E; vm_compute in E; discriminate E).
    intros E; inversion E.
  - intros room parsed.
    destruct (revive_room_defaults (table_platform (lit "blob") parsed)
                [(lit "id", JS.Str (lit "room-1"));
                 (lit "createdAt", JS.Obj [(lit "toString", JS.Num (JS.Finite 1))])]
                eq_refl) as [_ Hthrow].
    destruct (Hthrow [(lit "toString", JS.Num (JS.Finite 1))]) as [_ Hnull];
      [left; reflexivity | discriminate|].
    apply (Hnull (lit "k") (lit "blob") (fun _ => Some (lit "blob")) parsed [room]);
      try reflexivity.
    constructor.
Defined.

(** * Further properties of the message list *)

Section MessageListMore.
Import Browser MessageList.

Lemma merge_older_kept (newMessages prev : list Message.t) :
  merge_older newMessages prev
  = filter (fun m => Message.id m ∉ List.map Message.id prev) newMessages ++ prev.
Proof.
  unfold merge_older. f_equal.
  induction newMessages as [|m l IH]; [reflexivity|]. simpl.
  rewrite filter_cons, IH.
  destruct (bool_decide_reflect (Message.id m ∈ List.map Message.id prev)) as [H|H];
    simpl.
  - destruct (decide (Message.id m ∉ List.map Message.id prev)); [contradiction | reflexivity].
  - destruct (decide (Message.id m ∉ List.map Message.id prev)); [reflexivity | contradiction].
Qed.

Lemma uniqueId_index_inj c p i j now now' fragment fragment' :
  0 <= i -> 0 <= j ->
  uniqueId c p i now fragment = uniqueId c p j now' fragment' -> i = j.
Proof.
  intros Hi Hj E. unfold uniqueId in E.
  do 5 apply app_inv_head in E.
  apply Number_toString_inj.
  eapply (split_at_separator 45%N);
    [apply Number_toString_no_minus; exact Hi
    |apply Number_toString_no_minus; exact Hj | exact E].
Qed.

Lemma page_ids_NoDup c (k : nat) w :
  NoDup (List.map Message.id (fst (generateDummyMessages c (Z.of_nat k) w))).
Proof.
  rewrite generateDummyMessages_spec. cbn [fst].
  change (List.map Message.id ?l) with (Message.id <$> l).
  rewrite fmap_reverse, reverse_Permutation.
  change (Message.id <$> List.map ?f ?l) with (Message.id <$> (f <$> l)).
  rewrite <- list_fmap_compose.
  apply NoDup_fmap_2_strong; [|apply NoDup_seq].
  intros x y _ _ E. cbn in E. unfold kth_message, dummy_message in E. cbn in E.
  apply uniqueId_index_inj in E; [lia | |];
    change MESSAGES_PER_PAGE with 20; lia.
Qed.

Lemma loadOlderMessages_loaded p n c :
  messages p <> [] -> (n < 10)%nat -> loaded p n c ->
  loadOlderMessages c
  = mkComponent p (mkView true true (Z.of_nat n) (olderMessages (view c)))
      [mkTimer (chatroomId p) (Z.of_nat n)].
Proof.
  intros Hne Hn [Hp Ht Hl Hpg Hm Hlen Hids].
  unfold loadOlderMessages. rewrite Hl, Hm, Hp, Ht, Hpg.
  rewrite (proj2 (Nat.ltb_lt n 10) Hn). simpl.
  destruct (messages p) as [|x l]; [contradiction|]. simpl.
  destruct (Z.geb_spec (Z.of_nat n) 10); [lia | reflexivity].
Qed.

Lemma rerender_same_deps p' c :
  chatroomId p' = chatroomId (props c) ->
  length (messages p') = length (messages (props c)) ->
  rerender p' c = mkComponent p' (view c) (timers c).
Proof.
  intros H1 H2. unfold rerender.
  rewrite H1, H2, (proj2 (str_eqb_eq _ _) eq_refl), Nat.eqb_refl. reflexivity.
Qed.

Lemma loaded_rerender p p' n c :
  chatroomId p' = chatroomId p -> length (messages p') = length (messages p) ->
  loaded p n c -> loaded p' n (rerender p' c).
Proof.
  intros H1 H2 [Hp Ht Hl Hpg Hm Hlen Hids].
  rewrite rerender_same_deps by (rewrite Hp; assumption).
  split; try assumption; [reflexivity|]. cbn [view]. rewrite H1. exact Hids.
Qed.

Lemma loaded_eta p n c :
  (n < 10)%nat -> loaded p n c ->
  c = mkComponent p (mkView false true (Z.of_nat n) (olderMessages (view c))) [].
Proof.
  intros Hn [Hp Ht Hl Hpg Hm Hlen Hids].
  destruct c as [pr [lo hm pg ol] tm]. simpl in *. subst.
  rewrite (proj2 (Nat.ltb_lt n 10) Hn). reflexivity.
Qed.

Lemma handle_keeps_paging cid len e c w :
  len <> 0%nat -> no_reset cid len e -> paging cid len c ->
  paging cid len (fst (handle e c w)).
Proof.
  intros Hlen He (p & n & Hcid & Hl & Hn & Hc).
  assert (Hne : messages p <> []) by (intros E; rewrite E in Hl; simpl in Hl; congruence).
  destruct e as [| |p']; cbn [handle].
  - (* a load request *)
    unfold ret. cbn [fst]. destruct Hc as [Hc|(Hn' & c0 & Hc0 & ->)].
    + destruct (Nat.eq_dec n 10%nat) as [->|Hn10].
      * exists p, 10%nat. repeat split; try assumption. left.
        destruct Hc as [Hp Ht Hlo Hpg Hm Hlen' Hids].
        unfold loadOlderMessages. rewrite Hm, orb_true_r.
        split; assumption.
      * exists p, n. repeat split; try assumption. right. split; [lia|].
        exists c. split; [exact Hc|].
        rewrite (loadOlderMessages_loaded p n c Hne ltac:(lia) Hc), Hcid. reflexivity.
    + exists p, n. repeat split; try assumption. right. split; [exact Hn'|].
      exists c0. split; [exact Hc0 | reflexivity].
  - (* the timer *)
    destruct Hc as [Hc|(Hn' & c0 & Hc0 & ->)].
    + exists p, n. repeat split; try assumption. left.
      unfold timer_fires. rewrite (ld_timers _ _ _ Hc). exact Hc.
    + exists p, (S n). repeat split; try assumption; try lia. left.
      destruct (load_page_loaded p n c0 w Hne Hn' Hc0) as [Hnext _].
      unfold load_page in Hnext.
      rewrite (loadOlderMessages_loaded p n c0 Hne Hn' Hc0), Hcid in Hnext.
      exact Hnext.
  - (* a render that leaves the dependencies as they are *)
    unfold ret. cbn [fst]. destruct He as [He1 He2].
    destruct Hc as [Hc|(Hn' & c0 & Hc0 & ->)].
    + exists p', n. repeat split; try assumption. left.
      apply (loaded_rerender p); [congruence | congruence | exact Hc].
    + exists p', n. repeat split; try assumption. right. split; [exact Hn'|].
      exists (rerender p' c0). split.
      * apply (loaded_rerender p); [congruence | congruence | exact Hc0].
      * rewrite rerender_same_deps by (cbn [props]; congruence).
        rewrite (rerender_same_deps p' c0)
          by (rewrite (ld_props _ _ _ Hc0); congruence).
        reflexivity.
Qed.

Lemma handle_all_keeps_paging cid len es : forall c w,
  len <> 0%nat -> Forall (no_reset cid len) es -> paging cid len c ->
  paging cid len (fst (handle_all es c w)).
Proof.
  induction es as [|e es IH]; intros c w Hlen Hes Hc; [exact Hc|].
  inversion Hes as [|? ? He Hes']; subst.
  cbn [handle_all]. unfold bind.
  pose proof (handle_keeps_paging cid len e c w Hlen He Hc) as Hstep.
  destruct (handle e c w) as [c' w']. apply IH; assumption.
Qed.

End MessageListMore.

Lemma filter_none {A} (P : A -> Prop) `{forall x, Decision (P x)} (l : list A) :
  (forall x, x ∈ l -> ~ P x) -> filter P l = [].
Proof.
  induction l as [|x l IH]; [reflexivity|]. intros Hall.
  rewrite filter_cons. destruct (decide (P x)) as [HP|_].
  - exfalso. apply (Hall x); [left | exact HP].
  - apply IH. intros y Hy. apply Hall. right. exact Hy.
Qed.

(** X23. The merge of a page into the older messages keeps the older
    messages, in place, after the new ones; of the new messages it keeps, in
    their order, exactly those whose id no older message has.  So merging
    messages with distinct ids into messages with distinct ids gives distinct
    ids, and merging the same page a second time adds nothing. *)
Theorem merge_older_spec (newMessages prev : list Message.t) :
  (exists kept,
     MessageList.merge_older newMessages prev = kept ++ prev
     /\ kept `sublist_of` newMessages
     /\ forall m, m ∈ kept <-> m ∈ newMessages
                               /\ Message.id m ∉ List.map Message.id prev)
  /\ (NoDup (List.map Message.id newMessages) -> NoDup (List.map Message.id prev) ->
      NoDup (List.map Message.id (MessageList.merge_older newMessages prev)))
  /\ MessageList.merge_older newMessages (MessageList.merge_older newMessages prev)
     = MessageList.merge_older newMessages prev.
Proof.
  split; [|split].
  - eexists. split; [apply merge_older_kept|]. split; [apply sublist_filter|].
    intros m. rewrite list_elem_of_filter. tauto.
  - intros Hnew Hprev. rewrite merge_older_kept, List.map_app.
    apply NoDup_app. split; [|split; [|exact Hprev]].
    + eapply sublist_NoDup; [exact Hnew|]. apply fmap_sublist, sublist_filter.
    + intros x Hx. apply list_elem_of_fmap in Hx as (m & -> & Hm).
      apply list_elem_of_filter in Hm as [Hm _]. exact Hm.
  - rewrite (merge_older_kept newMessages (MessageList.merge_older newMessages prev)).
    rewrite filter_none; [reflexivity|].
    intros m Hm Hfresh. apply Hfresh. rewrite merge_older_kept, List.map_app.
    destruct (decide (Message.id m ∈ List.map Message.id prev)) as [Hin|Hout].
    + apply elem_of_app. right. exact Hin.
    + apply elem_of_app. left. apply list_elem_of_fmap. exists m.
      split; [reflexivity|]. apply list_elem_of_filter. split; assumption.
Qed.

Lemma merge_older_spec_witness :
  let a := Message.mk (lit "a") (lit "one") Message.ai (TimeValue 1) None in
  let b := Message.mk (lit "b") (lit "two") Message.ai (TimeValue 2) None in
  NoDup (List.map Message.id (MessageList.merge_older [a; b] [b])).
Proof.
  intros a b.
  apply (proj1 (proj2 (merge_older_spec [a; b] [b]))).
  - vm_compute. repeat constructor.
    + intros H. apply list_elem_of_singleton in H. discriminate.
    + intros H. inversion H.
  - vm_compute. repeat constructor. intros H. inversion H.
Defined.

Lemma load_page_older p n c w :
  MessageList.messages p <> [] -> (n < 10)%nat -> loaded p n c ->
  MessageList.olderMessages (MessageList.view (fst (MessageList.load_page c w)))
  = fst (MessageList.generateDummyMessages (MessageList.chatroomId p) (Z.of_nat n) w)
    ++ MessageList.olderMessages (MessageList.view c).
Proof.
  intros Hne Hn Hinv.
  destruct (load_page_loaded p n c w Hne Hn Hinv) as (_ & Hold & _). exact Hold.
Qed.

Lemma ids_of_pages_unique (page older : list Message.t) cid (n : nat) :
  NoDup (List.map Message.id page) -> NoDup (List.map Message.id older) ->
  Forall (fun m => from_page cid (Z.of_nat n) (Message.id m)) page ->
  Forall (fun m => exists k : nat,
            (k < n)%nat /\ from_page cid (Z.of_nat k) (Message.id m)) older ->
  (n < 10)%nat ->
  NoDup (List.map Message.id (page ++ older)).
Proof.
  intros H1 H2 Hnew Hids Hn. rewrite List.map_app. apply NoDup_app. split; [exact H1|].
  split; [|exact H2].
  intros x Hx Hx'.
  apply list_elem_of_In, in_map_iff in Hx as (m & <- & Hm).
  apply list_elem_of_In, in_map_iff in Hx' as (m' & Heq & Hm').
  rewrite List.Forall_forall in Hnew. specialize (Hnew m Hm). cbv beta in Hnew.
  rewrite List.Forall_forall in Hids.
  destruct (Hids m' Hm') as (k & Hk & Hfrom). rewrite Heq in Hfrom.
  assert (Z.of_nat n = Z.of_nat k)
    by (eapply from_page_distinct; [| |exact Hnew|exact Hfrom]; lia).
  lia.
Qed.

Lemma load_page_ids_unique p n c w :
  MessageList.messages p <> [] -> (n < 10)%nat -> loaded p n c ->
  NoDup (List.map Message.id (MessageList.olderMessages (MessageList.view c))) ->
  NoDup (List.map Message.id
           (MessageList.olderMessages (MessageList.view (fst (MessageList.load_page c w))))).
Proof.
  intros Hne Hn Hinv Hnd.
  rewrite (load_page_older p n c w Hne Hn Hinv).
  apply (ids_of_pages_unique _ _ (MessageList.chatroomId p) n);
    [apply page_ids_NoDup | exact Hnd | apply page_ids | exact (ld_ids _ _ _ Hinv)
    | exact Hn].
Qed.

Lemma load_pages_ids_unique p n : forall k c w,
  MessageList.messages p <> [] -> (k + n <= 10)%nat -> loaded p k c ->
  NoDup (List.map Message.id (MessageList.olderMessages (MessageList.view c))) ->
  NoDup (List.map Message.id
           (MessageList.olderMessages
              (MessageList.view (fst (MessageList.load_pages n c w))))).
Proof.
  induction n as [|n IH]; intros k c w Hne Hk Hc Hnd; [exact Hnd|].
  cbn [MessageList.load_pages]. unfold Browser.bind.
  pose proof (load_page_ids_unique p k c w Hne ltac:(lia) Hc Hnd) as Hnd'.
  destruct (load_page_loaded p k c w Hne ltac:(lia) Hc) as [Hc' _].
  destruct (MessageList.load_page c w) as [c' w'].
  apply (IH (S k)); [exact Hne | lia | exact Hc' | exact Hnd'].
Qed.

(** X24. Over a chatroom with at least one real message, after any number
    of the ten loads the accumulated older messages have pairwise different
    ids, whatever the clock and the random source return; the index each id
    carries is enough to tell them apart. *)
Theorem older_message_ids_unique (p : MessageList.Props) (w : Browser.World) (n : nat) :
  MessageList.messages p <> [] -> (n <= 10)%nat ->
  NoDup (List.map Message.id
           (MessageList.olderMessages
              (MessageList.view (fst (MessageList.load_pages n (MessageList.mount p) w))))).
Proof.
  intros Hne Hn.
  apply (load_pages_ids_unique p n 0);
    [exact Hne | lia | apply mount_loaded; exact Hne | constructor].
Qed.

Lemma older_message_ids_unique_witness :
  NoDup (List.map Message.id
           (MessageList.olderMessages
              (MessageList.view
                 (fst (MessageList.load_pages 3 (MessageList.mount one_message_props)
                         (still_world 1700000000000 "same")))))).
Proof.
  apply older_message_ids_unique; [discriminate | lia].
Defined.

Lemma closure_request_after_render (r : Closure.Rendered) :
  Closure.seen r = MessageList.view (Closure.component r) ->
  Closure.component (Closure.loadOlderMessages r)
  = MessageList.loadOlderMessages (Closure.component r).
Proof.
  intros H. unfold Closure.loadOlderMessages, MessageList.loadOlderMessages.
  rewrite H.
  destruct (MessageList.loadingOlder _ || negb (MessageList.hasMoreMessages _));
    [reflexivity|].
  destruct (length _ =? 0)%nat; [reflexivity|].
  destruct (MessageList.page _ >=? 10); reflexivity.
Qed.

(** While every request follows a render, the handlers read the current
    state, and the component goes through the states that [handle] gives. *)
Lemma closure_follows_handle es : forall fresh r w,
  requests_after_render fresh es ->
  (fresh = true -> Closure.seen r = MessageList.view (Closure.component r)) ->
  (Closure.component (fst (Closure.handle_all es r w)), snd (Closure.handle_all es r w))
  = MessageList.handle_all es (Closure.component r) w.
Proof.
  induction es as [|e es IH]; intros fresh r w Hes Hseen; [reflexivity|].
  cbn [Closure.handle_all MessageList.handle_all]. unfold Browser.bind.
  destruct e as [| |p']; cbn [requests_after_render] in Hes;
    cbn [Closure.handle MessageList.handle].
  - destruct Hes as [Hfresh Hes]. unfold Browser.ret.
    rewrite <- (closure_request_after_render r (Hseen Hfresh)).
    apply (IH false); [exact Hes | discriminate].
  - unfold Closure.timer_fires, Browser.bind, Browser.ret.
    destruct (MessageList.timer_fires (Closure.component r) w) as [c' w'].
    apply (IH false (Closure.mkRendered c' (Closure.seen r)));
      [exact Hes | discriminate].
  - unfold Browser.ret.
    apply (IH true (Closure.render p' r)); [exact Hes | reflexivity].
Qed.

(** X25. Load requests, timers and renders that leave the chatroom id and
    the number of real messages as they are can come in any order, as long
    as every request is made by the handler of a render that has read the
    current state (a render comes directly before it): after any such events
    on a mounted view there is at most one timer pending, one is pending
    exactly while [loadingOlder] is set, the page counter is between 0 and
    10, the older messages are 20 per counted page (at most 200), and at
    page 10 no history is on offer. *)
Theorem pagination_any_order
    (p : MessageList.Props) (w : Browser.World) (es : list MessageList.Event) :
  Forall (no_reset (MessageList.chatroomId p) (length (MessageList.messages p))) es ->
  requests_after_render true es ->
  let c := Closure.component (fst (Closure.handle_all es (Closure.mount p) w)) in
  (length (MessageList.timers c) <= 1)%nat
  /\ (MessageList.loadingOlder (MessageList.view c) = true <-> MessageList.timers c <> [])
  /\ 0 <= MessageList.page (MessageList.view c) <= 10
  /\ Z.of_nat (length (MessageList.olderMessages (MessageList.view c)))
     = 20 * MessageList.page (MessageList.view c)
  /\ (MessageList.page (MessageList.view c) = 10 ->
      MessageList.hasMoreMessages (MessageList.view c) = false).
Proof.
  intros Hes Hfresh c. subst c.
  pose proof (f_equal fst
                (closure_follows_handle es true (Closure.mount p) w Hfresh
                   (fun _ => eq_refl))) as Hsim.
  cbn [fst] in Hsim. rewrite Hsim.
  change (Closure.component (Closure.mount p)) with (MessageList.mount p).
  destruct (MessageList.messages p) as [|m0 ms] eqn:Hm.
  - (* no real message: nothing ever changes *)
    destruct (no_more_is_stable (MessageList.chatroomId p) 0%nat es (MessageList.mount p) w)
      as [Hv Ht]; try reflexivity; try exact Hes.
    + simpl. rewrite Hm. reflexivity.
    + simpl. rewrite Hm. reflexivity.
    + rewrite Hv, Ht. simpl. repeat split; try lia; try discriminate.
      intros H. contradiction.
  - assert (Hpaging : paging (MessageList.chatroomId p) (length (m0 :: ms))
                        (fst (MessageList.handle_all es (MessageList.mount p) w))).
    { apply handle_all_keeps_paging; [discriminate | exact Hes|].
      exists p, 0%nat. repeat split; [exact (f_equal (@length _) Hm) | lia|].
      left. apply mount_loaded. rewrite Hm. discriminate. }
    destruct Hpaging as (p' & n & _ & _ & Hn & [Hc|(Hn' & c0 & Hc0 & ->)]).
    + destruct Hc as [_ Ht Hl Hpg Hmore Hlen _]. rewrite Ht, Hl, Hpg, Hlen, Hmore.
      simpl. split; [lia|]. split; [split; [discriminate | contradiction]|].
      split; [lia|]. split; [lia|].
      intros E. assert (n = 10%nat) by lia. subst n. reflexivity.
    + destruct Hc0 as [_ _ _ _ _ Hlen _]. simpl. rewrite Hlen.
      split; [lia|]. split; [split; [discriminate | reflexivity]|].
      split; [lia|]. split; lia.
Qed.

Lemma pagination_any_order_witness :
  let es := [MessageList.LoadRequest; MessageList.Rerender one_message_props;
             MessageList.LoadRequest; MessageList.TimerFires;
             MessageList.TimerFires; MessageList.Rerender one_message_props;
             MessageList.LoadRequest] in
  let c := Closure.component
             (fst (Closure.handle_all es (Closure.mount one_message_props)
                     (still_world 1700000000000 "same"))) in
  (length (MessageList.timers c) <= 1)%nat
  /\ Z.of_nat (length (MessageList.olderMessages (MessageList.view c)))
     = 20 * MessageList.page (MessageList.view c).
Proof.
  intros es c.
  destruct (pagination_any_order one_message_props (still_world 1700000000000 "same") es)
    as (H1 & _ & _ & H4 & _).
  - subst es. repeat constructor.
  - subst es. cbn [requests_after_render]. repeat split.
  - split; [exact H1 | exact H4].
Defined.

(** X29. Two load requests from one render both pass the guard, because
    the second still reads [loadingOlder] as false: two timers are pending,
    both for page 0.  When both have fired the page counter is 2, while the
    older messages (between 20 and 40 of them) all carry ids of page 0. *)
Theorem double_request_from_one_render
    (p : MessageList.Props) (w : Browser.World) :
  MessageList.messages p <> [] ->
  let requested :=
    Closure.component
      (fst (Closure.handle_all [MessageList.LoadRequest; MessageList.LoadRequest]
              (Closure.mount p) w)) in
  let c :=
    Closure.component
      (fst (Closure.handle_all
              [MessageList.LoadRequest; MessageList.LoadRequest;
               MessageList.TimerFires; MessageList.TimerFires]
              (Closure.mount p) w)) in
  MessageList.timers requested
  = [MessageList.mkTimer (MessageList.chatroomId p) 0;
     MessageList.mkTimer (MessageList.chatroomId p) 0]
  /\ MessageList.timers c = []
  /\ MessageList.loadingOlder (MessageList.view c) = false
  /\ MessageList.hasMoreMessages (MessageList.view c) = true
  /\ MessageList.page (MessageList.view c) = 2
  /\ (20 <= length (MessageList.olderMessages (MessageList.view c)) <= 40)%nat
  /\ Forall (fun m => from_page (MessageList.chatroomId p) 0 (Message.id m))
       (MessageList.olderMessages (MessageList.view c)).
Proof.
  intros Hne requested c. subst requested c.
  cbn [Closure.handle_all Closure.handle]. unfold Browser.bind, Browser.ret.
  assert (Hreq : forall loading timers,
            Closure.loadOlderMessages
              (Closure.mkRendered
                 (MessageList.mkComponent p
                    (MessageList.mkView loading true 0 []) timers)
                 (MessageList.mkView false true 0 []))
            = Closure.mkRendered
                (MessageList.mkComponent p
                   (MessageList.mkView true true 0 [])
                   (timers ++ [MessageList.mkTimer (MessageList.chatroomId p) 0]))
                (MessageList.mkView false true 0 [])).
  { intros loading timers. unfold Closure.loadOlderMessages.
    cbn [Closure.component Closure.seen MessageList.view MessageList.props
         MessageList.timers MessageList.loadingOlder MessageList.hasMoreMessages
         MessageList.page MessageList.olderMessages negb orb].
    destruct (MessageList.messages p); [contradiction | reflexivity]. }
  assert (Hmount : Closure.mount p
                   = Closure.mkRendered
                       (MessageList.mkComponent p (MessageList.mkView false true 0 []) [])
                       (MessageList.mkView false true 0 [])).
  { unfold Closure.mount, MessageList.mount, MessageList.reset_effect.
    cbn [MessageList.view].
    destruct (MessageList.messages p); [contradiction | reflexivity]. }
  rewrite Hmount, !Hreq. cbn [app fst Closure.component MessageList.timers].
  split; [reflexivity|].
  unfold Closure.timer_fires, MessageList.timer_fires, MessageList.timeout_callback,
    Browser.bind, Browser.ret.
  cbn [Closure.component Closure.seen MessageList.timers MessageList.view
       MessageList.props MessageList.t_chatroomId MessageList.t_page].
  pose proof (page_length (MessageList.chatroomId p) 0 w) as Hlen.
  pose proof (page_ids (MessageList.chatroomId p) 0 w) as Hids.
  change (Z.of_nat 0) with 0 in Hids.
  destruct (MessageList.generateDummyMessages (MessageList.chatroomId p) 0 w)
    as [first w1].
  cbn [fst snd Closure.component Closure.seen MessageList.timers MessageList.view
       MessageList.props MessageList.t_chatroomId MessageList.t_page
       MessageList.olderMessages MessageList.page MessageList.hasMoreMessages] in *.
  pose proof (page_length (MessageList.chatroomId p) 0 w1) as Hlen'.
  pose proof (page_ids (MessageList.chatroomId p) 0 w1) as Hids'.
  change (Z.of_nat 0) with 0 in Hids'.
  destruct (MessageList.generateDummyMessages (MessageList.chatroomId p) 0 w1)
    as [second w2].
  cbn [fst snd Closure.component Closure.seen MessageList.timers MessageList.view
       MessageList.props MessageList.olderMessages MessageList.page
       MessageList.hasMoreMessages MessageList.loadingOlder] in *.
  rewrite (merge_older_fresh first [])
    by (apply list.Forall_forall; intros m _ H; inversion H).
  rewrite app_nil_r, Hlen, Hlen'.
  change (Z.of_nat 20 <? MessageList.MESSAGES_PER_PAGE) with false.
  cbn [orb Z.geb Z.compare].
  split; [reflexivity|]. split; [reflexivity|]. split; [reflexivity|].
  split; [reflexivity|].
  rewrite merge_older_kept. split.
  - rewrite length_app, Hlen.
    pose proof (length_filter
                  (fun m => Message.id m ∉ List.map Message.id first) second) as Hf.
    rewrite Hlen' in Hf. lia.
  - apply Forall_app. split; [|exact Hids].
    apply list.Forall_forall. intros m Hm.
    apply list_elem_of_filter in Hm as [_ Hm].
    rewrite list.Forall_forall in Hids'. exact (Hids' m Hm).
Qed.

Lemma double_request_from_one_render_witness :
  let c :=
    Closure.component
      (fst (Closure.handle_all
              [MessageList.LoadRequest; MessageList.LoadRequest;
               MessageList.TimerFires; MessageList.TimerFires]
              (Closure.mount one_message_props) (still_world 1700000000000 "same"))) in
  MessageList.page (MessageList.view c) = 2
  /\ (20 <= length (MessageList.olderMessages (MessageList.view c)) <= 40)%nat.
Proof.
  intros c.
  destruct (double_request_from_one_render one_message_props
              (still_world 1700000000000 "same")) as (_ & _ & _ & _ & Hpage & Hlen & _).
  - discriminate.
  - split; [exact Hpage | exact Hlen].
Defined.

(** X26. A load that is in flight when the view switches to another
    chatroom is not cancelled: the reset effect clears the view, and when the
    timer fires the page generated for the chatroom that was left, all of its
    ids naming that chatroom, becomes the older messages of the chatroom now
    shown, even if that one has no message of its own; the page counter
    goes to 1. *)
Theorem stale_load_lands_in_new_chatroom
    (p p' : MessageList.Props) (w : Browser.World) :
  MessageList.messages p <> [] ->
  MessageList.chatroomId p' <> MessageList.chatroomId p ->
  let c := fst (MessageList.handle_all
                  [MessageList.LoadRequest; MessageList.Rerender p'; MessageList.TimerFires]
                  (MessageList.mount p) w) in
  MessageList.props c = p'
  /\ MessageList.olderMessages (MessageList.view c)
     = fst (MessageList.generateDummyMessages (MessageList.chatroomId p) 0 w)
  /\ length (MessageList.olderMessages (MessageList.view c)) = 20%nat
  /\ Forall (fun m => from_page (MessageList.chatroomId p) 0 (Message.id m))
       (MessageList.olderMessages (MessageList.view c))
  /\ MessageList.page (MessageList.view c) = 1
  /\ MessageList.loadingOlder (MessageList.view c) = false
  /\ MessageList.timers c = [].
Proof.
  intros Hne Hcid c. subst c.
  cbn [MessageList.handle_all MessageList.handle]. unfold Browser.bind, Browser.ret.
  rewrite (loadOlderMessages_loaded p 0 (MessageList.mount p) Hne ltac:(lia)
             (mount_loaded p Hne)).
  unfold MessageList.rerender. cbn [MessageList.props MessageList.view MessageList.timers].
  rewrite (proj2 (str_eqb_neq _ _) Hcid). cbn [negb orb].
  unfold MessageList.timer_fires, MessageList.timeout_callback, Browser.bind, Browser.ret.
  cbn [MessageList.timers MessageList.view MessageList.props MessageList.t_chatroomId
       MessageList.t_page MessageList.reset_effect MessageList.olderMessages
       MessageList.page].
  change (Z.of_nat 0) with 0.
  pose proof (page_length (MessageList.chatroomId p) 0 w) as Hlen.
  pose proof (page_ids (MessageList.chatroomId p) 0 w) as Hids.
  destruct (MessageList.generateDummyMessages (MessageList.chatroomId p) 0 w)
    as [page w'].
  cbn [fst snd MessageList.props MessageList.view MessageList.timers
       MessageList.olderMessages MessageList.page MessageList.loadingOlder] in *.
  rewrite merge_older_fresh
    by (apply list.Forall_forall; intros m _ H; inversion H).
  rewrite app_nil_r.
  split; [reflexivity|]. split; [reflexivity|]. split; [exact Hlen|].
  split; [exact Hids|]. repeat split.
Qed.

Lemma stale_load_lands_in_new_chatroom_witness :
  let empty_chat := MessageList.mkProps (lit "c2") [] false in
  let c := fst (MessageList.handle_all
                  [MessageList.LoadRequest; MessageList.Rerender empty_chat;
                   MessageList.TimerFires]
                  (MessageList.mount one_message_props)
                  (still_world 1700000000000 "same")) in
  MessageList.messages (MessageList.props c) = []
  /\ length (MessageList.allMessages c) = 20%nat.
Proof.
  intros empty_chat c.
  destruct (stale_load_lands_in_new_chatroom one_message_props empty_chat
              (still_world 1700000000000 "same")) as (Hp & _ & Hlen & _).
  - discriminate.
  - discriminate.
  - fold c in Hp, Hlen. split; [rewrite Hp; reflexivity|].
    unfold MessageList.allMessages. rewrite length_app, Hlen, Hp. reflexivity.
Defined.

(** X27. [handleScroll] requests a load only at scroll offset 0.  Its own
    tests of "has more" and "loading" add nothing to those at the head of
    [loadOlderMessages]: at offset 0 it does exactly what a click on the
    button does, and at any other offset nothing. *)
Theorem handleScroll_spec (scrollTop : Z) (c : MessageList.Component) :
  (scrollTop <> 0 -> Scroll.handleScroll scrollTop c = c)
  /\ Scroll.handleScroll 0 c = MessageList.loadOlderMessages c
  /\ (MessageList.loadingOlder (MessageList.view c) = true ->
      Scroll.handleScroll scrollTop c = c)
  /\ (MessageList.hasMoreMessages (MessageList.view c) = false ->
      Scroll.handleScroll scrollTop c = c).
Proof.
  unfold Scroll.handleScroll. split; [|split; [|split]].
  - intros H. destruct (Z.eqb_spec scrollTop 0); [contradiction | reflexivity].
  - simpl. unfold MessageList.loadOlderMessages.
    destruct (MessageList.hasMoreMessages (MessageList.view c)),
             (MessageList.loadingOlder (MessageList.view c)); reflexivity.
  - intros H. rewrite H, andb_false_r. reflexivity.
  - intros H. rewrite H, andb_false_r. reflexivity.
Qed.

Lemma handleScroll_spec_witness :
  Scroll.handleScroll 37 (MessageList.mount one_message_props)
  = MessageList.mount one_message_props.
Proof.
  apply (proj1 (handleScroll_spec 37 (MessageList.mount one_message_props))).
  discriminate.
Defined.

(** X28. For a page index in the range where the code's arithmetic is
    exact ([exact_page]), the sender, the text and the (absent) image of the
    messages of a page depend on the page index alone: generations for any
    chatroom, at any time and with any random draws give the same ones, and
    the message at position [j] carries the text for the global index
    [p*20 + (19-j)], the user's or the assistant's according to the
    sender. *)
Theorem page_text_is_fixed
    (c c' : jsstring) (p : Z) (w w' : Browser.World) :
  exact_page p ->
  let shown (m : Message.t) := (Message.sender m, Message.content m, Message.imageUrl m) in
  List.map shown (fst (MessageList.generateDummyMessages c p w))
  = List.map shown (fst (MessageList.generateDummyMessages c' p w'))
  /\ forall j : nat, (j < 20)%nat ->
       exists m, fst (MessageList.generateDummyMessages c p w) !! j = Some m
         /\ let idx := p * 20 + Z.of_nat (19 - j) in
            (Message.sender m = Message.user ->
             Message.content m = MessageList.user_content idx)
            /\ (Message.sender m = Message.ai ->
                Message.content m = MessageList.ai_content idx).
Proof.
  intros _ shown. split.
  - rewrite !generateDummyMessages_spec. cbn [fst].
    change (List.map shown ?l) with (shown <$> l).
    rewrite !fmap_reverse. reflexivity.
  - intros j Hj. eexists. split; [apply page_lookup; exact Hj|].
    intros idx. unfold kth_message, MessageList.dummy_message. simpl.
    change MessageList.MESSAGES_PER_PAGE with 20. fold idx.
    destruct (MessageList.isUser idx); split; intros H; try reflexivity; discriminate.
Qed.

Lemma page_text_is_fixed_witness :
  (Message.content <$>
     fst (MessageList.generateDummyMessages (lit "c1") 0
            (still_world 1700000000000 "same")) !! 19%nat)
  = Some (MessageList.user_content 0).
Proof.
  assert (Hexact : exact_page 0) by (split; [lia | discriminate]).
  destruct (page_text_is_fixed (lit "c1") (lit "c1") 0
              (still_world 1700000000000 "same") (still_world 1700000000000 "same")
              Hexact)
    as [_ H].
  destruct (H 19%nat ltac:(lia)) as (m & Hm & Huser & _).
  rewrite Hm. simpl. f_equal. apply Huser.
  vm_compute in Hm. injection Hm as <-. reflexivity.
Defined.
